(** * github-commit-status-mark: cache policy, remote identity and credentials

    A shallow embedding of the command line tool that prints the CI status
    mark of a git revision.  The repository holds three successive variants
    of the one-file program:

    - [V1]  src/main.go             (monolithic [main], seconds-based expiry)
    - [V2]  src/unnamed/part_000    (adds [retrieveAPIToken], [restoreCache])
    - [V3]  src/unnamed/part_001    (adds [statusConfiguration], [restoreState],
                                     [saveState]; the latest variant)

    Functions that are textually identical in the variants that have them
    ([runGit], [die], [normalizeURL], [targetRevision], [retrieveAPIToken])
    are embedded once, and so are the stretches of [main] that the variants
    share.  The operating system, git, the JSON codec, the netrc reader and
    the GitHub API are external: their answers are fields of a [World]. *)

From Stdlib Require Import ZArith String Ascii List Bool Lia DecimalString.
From stdpp Require Import base gmap strings list.

Local Open Scope string_scope.
Local Open Scope Z_scope.

(** ** Go's [strings] package, on byte strings *)

Module strings.

Fixpoint drop (n : nat) (s : string) : string :=
  match n, s with
  | O, _ => s
  | S _, EmptyString => EmptyString
  | S k, String _ s' => drop k s'
  end.

Fixpoint take (n : nat) (s : string) : string :=
  match n, s with
  | O, _ => EmptyString
  | S _, EmptyString => EmptyString
  | S k, String c s' => String c (take k s')
  end.

Definition HasPrefix (s prefix : string) : bool := String.prefix prefix s.

Definition HasSuffix (s suffix : string) : bool :=
  (String.length suffix <=? String.length s)%nat
  && String.eqb (drop (String.length s - String.length suffix) s) suffix.

Definition TrimSuffix (s suffix : string) : string :=
  if HasSuffix s suffix
  then take (String.length s - String.length suffix) s
  else s.

(** [Cut s sep] slices [s] around the first instance of [sep]. *)
Fixpoint Cut (s sep : string) : string * string * bool :=
  if String.prefix sep s then (EmptyString, drop (String.length sep) s, true)
  else match s with
       | EmptyString => (EmptyString, EmptyString, false)
       | String c s' =>
           let '(before, after, found) := Cut s' sep in
           (String c before, after, found)
       end.

(** The same around the last instance of [sep] ([strings.LastIndex]). *)
Fixpoint CutLast (s sep : string) : string * string * bool :=
  match s with
  | EmptyString =>
      if String.eqb sep EmptyString then (EmptyString, EmptyString, true)
      else (EmptyString, EmptyString, false)
  | String c s' =>
      let '(before, after, found) := CutLast s' sep in
      if found then (String c before, after, true)
      else if String.prefix sep s
           then (EmptyString, drop (String.length sep) s, true)
           else (s, EmptyString, false)
  end.

Definition Contains (s sub : string) : bool := snd (Cut s sub).

(** [strings.Replace(s, old, new, 1)]: only the first instance. *)
Definition Replace1 (s old new : string) : string :=
  let '(before, after, found) := Cut s old in
  if found then before ++ new ++ after else s.

(** [strings.Split(s, sep)] for a non-empty separator.  [skip] counts the
    bytes of a separator that has just matched and is still to be jumped
    over; [cur] is the field being collected. *)
Fixpoint splitFrom (sep : string) (skip : nat) (cur : string) (s : string)
  : list string :=
  match s with
  | EmptyString => [cur]
  | String c s' =>
      match skip with
      | S k => splitFrom sep k cur s'
      | O =>
          if String.prefix sep s
          then cur :: splitFrom sep (String.length sep - 1) EmptyString s'
          else splitFrom sep 0 (cur ++ String c EmptyString) s'
      end
  end.

Definition Split (s sep : string) : list string :=
  splitFrom sep 0 EmptyString s.

Fixpoint Join (elems : list string) (sep : string) : string :=
  match elems with
  | [] => EmptyString
  | [e] => e
  | e :: rest => e ++ sep ++ Join rest sep
  end.

(** [strings.TrimRight(s, cutset)] for a one-byte cutset. *)
Fixpoint TrimRight (s : string) (cut : ascii) : string :=
  match s with
  | EmptyString => EmptyString
  | String c s' =>
      match TrimRight s' cut with
      | EmptyString => if Ascii.eqb c cut then EmptyString
                       else String c EmptyString
      | t => String c t
      end
  end.

Fixpoint Count1 (s : string) (c : ascii) : nat :=
  match s with
  | EmptyString => O
  | String d s' => ((if Ascii.eqb c d then 1 else 0) + Count1 s' c)%nat
  end.

Fixpoint all (p : ascii -> bool) (s : string) : bool :=
  match s with
  | EmptyString => true
  | String c s' => p c && all p s'
  end.

Fixpoint span (p : ascii -> bool) (s : string) : string * string :=
  match s with
  | EmptyString => (EmptyString, EmptyString)
  | String c s' =>
      if p c then let '(a, b) := span p s' in (String c a, b)
      else (EmptyString, s)
  end.

End strings.

(** ** Byte classes *)

Definition code (c : ascii) : nat := nat_of_ascii c.

Definition between (lo hi : nat) (c : ascii) : bool :=
  ((lo <=? code c) && (code c <=? hi))%nat.

Definition isDigit (c : ascii) : bool := between 48 57 c.
Definition isUpper (c : ascii) : bool := between 65 90 c.
Definition isLower (c : ascii) : bool := between 97 122 c.
Definition isAlpha (c : ascii) : bool := isUpper c || isLower c.
Definition isAlnum (c : ascii) : bool := isAlpha c || isDigit c.

Definition oneOf (set : string) (c : ascii) : bool :=
  negb (Nat.eqb (strings.Count1 set c) 0).

Definition newline : ascii := ascii_of_nat 10.
Definition dquote : ascii := ascii_of_nat 34.

(** The verb [%q] and [strconv.Quote], without the escapes inside. *)
Definition quoted (s : string) : string :=
  String dquote (s ++ String dquote EmptyString).

(** ** The scheme pattern of [normalizeURL]

    [reScheme = regexp.MustCompile(`^[\w+]+://`)].  The class [[\w+]] holds
    the ASCII word bytes and [+]; it does not hold [:], so the pattern
    matches exactly when the longest run of class bytes at the start of the
    text is non-empty and is followed by ["://"]. *)

Definition reSchemeClass (c : ascii) : bool :=
  isAlnum c || Ascii.eqb c "_" || Ascii.eqb c "+".

Definition reScheme_ReplaceAllLiteralString (src repl : string) : string :=
  let '(run, rest) := strings.span reSchemeClass src in
  if negb (String.eqb run EmptyString) && strings.HasPrefix rest "://"
  then repl ++ strings.drop 3 rest
  else src.

(** ** Go's [(value, error)] results *)

Inductive res (A : Type) : Type :=
| Ok (a : A)
| Err (e : string).
Arguments Ok {A} a.
Arguments Err {A} e.

Definition res_bind {A B} (r : res A) (k : A -> res B) : res B :=
  match r with
  | Ok a => k a
  | Err e => Err e
  end.

Notation "'try' x <- r ; k" := (res_bind r (fun x => k))
  (at level 10, x name, r at level 100, k at level 200).

(** ** Go's [net/url]

    The standard library is not part of the repository.  [url.Parse] and
    the [String] method of [URL] are modelled after the library's
    algorithm (scheme, query and fragment cuts, authority with user
    information and port, percent-decoding with its error cases).  IPv6
    zone identifiers are not decoded, and [strconv.Quote] inside error
    texts only adds the quotes. *)

Module url.

Inductive encoding :=
| encodePath | encodeUserPassword | encodeHost | encodeFragment.

Record Userinfo := mkUserinfo {
  username : string;
  password : option string;
}.

Record URL := mkURL {
  Scheme : string;
  Opaque : string;
  User : option Userinfo;
  Host : string;
  Path : string;
  RawPath : string;
  OmitHost : bool;
  ForceQuery : bool;
  RawQuery : string;
  Fragment : string;
  RawFragment : string;
}.

Definition shouldEscape (c : ascii) (mode : encoding) : bool :=
  if isAlnum c then false
  else if match mode with encodeHost => oneOf "!$&'()*+,;=:[]<>" c
                                        || Ascii.eqb c dquote
                     | _ => false end
  then false
  else if oneOf "-_.~" c then false
  else if oneOf "$&+,/:;=?@" c then
    match mode with
    | encodePath => Ascii.eqb c "?"
    | encodeUserPassword => oneOf "@/?:" c
    | encodeHost => true
    | encodeFragment => false
    end
  else if match mode with encodeFragment => oneOf "!()*" c | _ => false end
  then false
  else true.

Definition ishex (c : ascii) : bool :=
  isDigit c || between 97 102 c || between 65 70 c.

Definition unhex (c : ascii) : nat :=
  if isDigit c then code c - 48
  else if between 97 102 c then code c - 97 + 10
  else if between 65 70 c then code c - 65 + 10
  else 0.

Definition upperhex (n : nat) : ascii :=
  match String.get n "0123456789ABCDEF" with
  | Some c => c
  | None => "0"%char
  end.

Definition EscapeError (s : string) : string :=
  "invalid URL escape " ++ quoted s.

Definition InvalidHostError (s : string) : string :=
  "invalid character " ++ quoted s ++ " in host name".

Fixpoint unescape (mode : encoding) (s : string) : res string :=
  match s with
  | EmptyString => Ok EmptyString
  | String c s' =>
      if Ascii.eqb c "%" then
        match s' with
        | String a (String b rest) =>
            if ishex a && ishex b then
              if match mode with
                 | encodeHost =>
                     (unhex a <? 8)%nat
                     && negb (String.eqb (strings.take 3 s) "%25")
                 | _ => false
                 end
              then Err (EscapeError (strings.take 3 s))
              else
                try t <- unescape mode rest;
                Ok (String (ascii_of_nat (unhex a * 16 + unhex b)) t)
            else Err (EscapeError (strings.take 3 s))
        | _ => Err (EscapeError (strings.take 3 s))
        end
      else if match mode with
              | encodeHost => (code c <? 128)%nat && shouldEscape c encodeHost
              | _ => false
              end
      then Err (InvalidHostError (String c EmptyString))
      else try t <- unescape mode s'; Ok (String c t)
  end.

Fixpoint escape (s : string) (mode : encoding) : string :=
  match s with
  | EmptyString => EmptyString
  | String c s' =>
      if shouldEscape c mode
      then String "%" (String (upperhex (code c / 16))
                         (String (upperhex (code c mod 16)) (escape s' mode)))
      else String c (escape s' mode)
  end.

Definition validEncoded (s : string) (mode : encoding) : bool :=
  strings.all
    (fun c => oneOf "!$&'()*+,;=:@[]%" c || negb (shouldEscape c mode)) s.

Definition toLower (c : ascii) : ascii :=
  if isUpper c then ascii_of_nat (code c + 32) else c.

Fixpoint ToLower (s : string) : string :=
  match s with
  | EmptyString => EmptyString
  | String c s' => String (toLower c) (ToLower s')
  end.

(** The scan of [getScheme]: [Some (scheme, rest)] when a colon ends a
    well-formed scheme, [None] when the text has no scheme. *)
Fixpoint schemeScan (first : bool) (s : string) : option (string * string) :=
  match s with
  | EmptyString => None
  | String c s' =>
      if isAlpha c
      then match schemeScan false s' with
           | Some (sch, rest) => Some (String c sch, rest)
           | None => None
           end
      else if isDigit c || oneOf "+-." c
      then if first then None
           else match schemeScan false s' with
                | Some (sch, rest) => Some (String c sch, rest)
                | None => None
                end
      else if Ascii.eqb c ":"
      then if first then None else Some (EmptyString, s')
      else None
  end.

Definition getScheme (rawURL : string) : res (string * string) :=
  if strings.HasPrefix rawURL ":" then Err "missing protocol scheme"
  else match schemeScan true rawURL with
       | Some (sch, rest) => Ok (sch, rest)
       | None => Ok (EmptyString, rawURL)
       end.

Definition validOptionalPort (port : string) : bool :=
  match port with
  | EmptyString => true
  | String c digits => Ascii.eqb c ":" && strings.all isDigit digits
  end.

Definition validUserinfo (s : string) : bool :=
  strings.all (fun c => isAlnum c || oneOf "-._:~!$&'()*+,;=%@" c) s.

Definition parseHost (host : string) : res string :=
  try _ <-
    (if strings.HasPrefix host "[" then
       let '(_, colonPort, found) := strings.CutLast host "]" in
       if negb found then Err "missing ']' in host"
       else if negb (validOptionalPort colonPort)
       then Err ("invalid port " ++ quoted colonPort ++ " after host")
       else Ok tt
     else
       let '(_, digits, found) := strings.CutLast host ":" in
       if found && negb (strings.all isDigit digits)
       then Err ("invalid port " ++ quoted (String ":" digits)
                   ++ " after host")
       else Ok tt);
  unescape encodeHost host.

Definition parseAuthority (authority : string)
  : res (option Userinfo * string) :=
  let '(userinfo, hostpart, found) := strings.CutLast authority "@" in
  try host <- parseHost (if found then hostpart else authority);
  if negb found then Ok (None, host)
  else if negb (validUserinfo userinfo)
  then Err "net/url: invalid userinfo"
  else
    let '(name, pass, hasPass) := strings.Cut userinfo ":" in
    if negb hasPass then
      try u <- unescape encodeUserPassword userinfo;
      Ok (Some (mkUserinfo u None), host)
    else
      try u <- unescape encodeUserPassword name;
      try p <- unescape encodeUserPassword pass;
      Ok (Some (mkUserinfo u (Some p)), host).

Definition isCTL (c : ascii) : bool :=
  (code c <? 32)%nat || Nat.eqb (code c) 127.

Definition stringContainsCTLByte (s : string) : bool :=
  negb (strings.all (fun c => negb (isCTL c)) s).

Definition setPath (u : URL) (p : string) : res URL :=
  try path <- unescape encodePath p;
  Ok (mkURL (Scheme u) (Opaque u) (User u) (Host u) path
        (if String.eqb p (escape path encodePath) then EmptyString else p)
        (OmitHost u) (ForceQuery u) (RawQuery u)
        (Fragment u) (RawFragment u)).

Definition setFragment (u : URL) (f : string) : res URL :=
  try frag <- unescape encodeFragment f;
  Ok (mkURL (Scheme u) (Opaque u) (User u) (Host u) (Path u) (RawPath u)
        (OmitHost u) (ForceQuery u) (RawQuery u) frag
        (if String.eqb f (escape frag encodeFragment)
         then EmptyString else f)).

(** [parse(rawURL, viaRequest = false)] *)
Definition parse (rawURL : string) : res URL :=
  if stringContainsCTLByte rawURL
  then Err "net/url: invalid control character in URL"
  else if String.eqb rawURL "*"
  then Ok (mkURL "" "" None "" "*" "" false false "" "" "")
  else
    try sr <- getScheme rawURL;
    let scheme := ToLower (fst sr) in
    let '(rest, force, query) :=
      if strings.HasSuffix (snd sr) "?"
         && Nat.eqb (strings.Count1 (snd sr) "?") 1
      then (strings.take (String.length (snd sr) - 1) (snd sr),
            true, EmptyString)
      else let '(r, q, _) := strings.Cut (snd sr) "?" in (r, false, q) in
    if negb (strings.HasPrefix rest "/") && negb (String.eqb scheme "")
    then Ok (mkURL scheme rest None "" "" "" false force query "" "")
    else if negb (strings.HasPrefix rest "/")
            && strings.Contains (fst (fst (strings.Cut rest "/"))) ":"
    then Err "first path segment in URL cannot contain colon"
    else if (negb (String.eqb scheme "")
             || negb (strings.HasPrefix rest "///"))
            && strings.HasPrefix rest "//"
    then
      let '(authority, tail, found) :=
        strings.Cut (strings.drop 2 rest) "/" in
      let rest' := if found then String "/" tail else EmptyString in
      try uh <- parseAuthority authority;
      setPath (mkURL scheme "" (fst uh) (snd uh) "" "" false force query
                 "" "") rest'
    else
      setPath (mkURL scheme "" None "" "" ""
                 (negb (String.eqb scheme "") && strings.HasPrefix rest "/")
                 force query "" "") rest.

Definition Error (op u err : string) : string :=
  op ++ " " ++ quoted u ++ ": " ++ err.

Definition Parse (rawURL : string) : res URL :=
  let '(u, frag, _) := strings.Cut rawURL "#" in
  match parse u with
  | Err e => Err (Error "parse" u e)
  | Ok parsed =>
      if String.eqb frag "" then Ok parsed
      else match setFragment parsed frag with
           | Err e => Err (Error "parse" rawURL e)
           | Ok withFrag => Ok withFrag
           end
  end.

Definition Userinfo_String (ui : Userinfo) : string :=
  escape (username ui) encodeUserPassword
  ++ match password ui with
     | Some p => String ":" (escape p encodeUserPassword)
     | None => EmptyString
     end.

Definition EscapedPath (u : URL) : string :=
  if negb (String.eqb (RawPath u) "")
     && validEncoded (RawPath u) encodePath
     && match unescape encodePath (RawPath u) with
        | Ok p => String.eqb p (Path u)
        | Err _ => false
        end
  then RawPath u
  else if String.eqb (Path u) "*" then "*"
  else escape (Path u) encodePath.

Definition EscapedFragment (u : URL) : string :=
  if negb (String.eqb (RawFragment u) "")
     && validEncoded (RawFragment u) encodeFragment
     && match unescape encodeFragment (RawFragment u) with
        | Ok f => String.eqb f (Fragment u)
        | Err _ => false
        end
  then RawFragment u
  else escape (Fragment u) encodeFragment.

Definition String_ (u : URL) : string :=
  let head :=
    (if String.eqb (Scheme u) "" then EmptyString
     else Scheme u ++ ":") in
  let body :=
    if negb (String.eqb (Opaque u) "") then head ++ Opaque u
    else
      let auth :=
        if negb (String.eqb (Scheme u) "")
           || negb (String.eqb (Host u) "")
           || match User u with Some _ => true | None => false end
        then
          if OmitHost u && String.eqb (Host u) ""
             && match User u with Some _ => false | None => true end
          then EmptyString
          else
            (if negb (String.eqb (Host u) "")
                || negb (String.eqb (Path u) "")
                || match User u with Some _ => true | None => false end
             then "//" else EmptyString)
            ++ match User u with
               | Some ui => Userinfo_String ui ++ "@"
               | None => EmptyString
               end
            ++ (if String.eqb (Host u) "" then EmptyString
                else escape (Host u) encodeHost)
        else EmptyString in
      let path := EscapedPath u in
      let sofar :=
        head ++ auth
        ++ (if negb (String.eqb path "")
               && negb (strings.HasPrefix path "/")
               && negb (String.eqb (Host u) "")
            then "/" else EmptyString) in
      sofar
      ++ (if String.eqb sofar ""
             && strings.Contains (fst (fst (strings.Cut path "/"))) ":"
          then "./" else EmptyString)
      ++ path in
  body
  ++ (if ForceQuery u || negb (String.eqb (RawQuery u) "")
      then String "?" (RawQuery u) else EmptyString)
  ++ (if String.eqb (Fragment u) "" then EmptyString
      else String "#" (EscapedFragment u)).

End url.

(** ** [normalizeURL] (identical in the three variants) *)

Definition normalizeURL (urlString : string) : res url.URL :=
  let urlString := reScheme_ReplaceAllLiteralString urlString "https://" in
  let urlString :=
    if negb (strings.HasPrefix urlString "https://")
    then "https://" ++ strings.Replace1 urlString ":" "/"
    else urlString in
  url.Parse (strings.TrimSuffix urlString ".git").

(** [int64] arithmetic wraps around. *)
Definition wrap64 (z : Z) : Z := (z + 2 ^ 63) mod 2 ^ 64 - 2 ^ 63.
Definition add64 (a b : Z) : Z := wrap64 (a + b).
Definition maxInt64 : Z := 2 ^ 63 - 1.
Definition minInt64 : Z := - 2 ^ 63.

(** ** Go's [time]

    A [Time] is read by its wall clock, as [Before] reads it when one of
    the two times was made by [Unix] and so carries no monotonic reading:
    the [int64] count of seconds since January 1 of year 1, and the
    nanoseconds within that second.  A [Duration] is an [int64] count of
    nanoseconds.  The sums of seconds are [int64] sums: [Unix] wraps around,
    [Add] stops at the largest and the smallest count. *)

Module time.

Definition Second : Z := 1000000000.

(** The seconds from year 1 to the Unix epoch. *)
Definition unixToInternal : Z := 62135596800.

Record Time := mkTime {
  sec : Z;
  nsec : Z;
}.

Definition unixTime (sec nsec : Z) : Time :=
  mkTime (add64 sec unixToInternal) nsec.

(** [time.Unix(sec, nsec)]; Go's [/] on integers truncates. *)
Definition Unix (sec nsec : Z) : Time :=
  if (nsec <? 0) || (Second <=? nsec)
  then
    let n := Z.quot nsec Second in
    let sec := add64 sec n in
    let nsec := nsec - n * Second in
    if nsec <? 0 then unixTime (add64 sec (-1)) (nsec + Second)
    else unixTime sec nsec
  else unixTime sec nsec.

(** [addSec]: the sum of the seconds, held at the end of the range where
    the [int64] sum went around. *)
Definition addSec (ext d : Z) : Z :=
  let sum := add64 ext d in
  if Bool.eqb (ext <? sum) (0 <? d) then sum
  else if 0 <? d then maxInt64
  else - maxInt64.

(** [t.Add(d)] *)
Definition Add (t : Time) (d : Z) : Time :=
  let dsec := Z.quot d Second in
  let nsec := nsec t + Z.rem d Second in
  if Second <=? nsec then mkTime (addSec (sec t) (dsec + 1)) (nsec - Second)
  else if nsec <? 0 then mkTime (addSec (sec t) (dsec - 1)) (nsec + Second)
  else mkTime (addSec (sec t) dsec) nsec.

(** [t.Before(u)] *)
Definition Before (t u : Time) : bool :=
  (sec t <? sec u) || ((sec t =? sec u) && (nsec t <? nsec u)).

(** What [time.Now()] gives when the wall clock stands [ns] nanoseconds
    after the Unix epoch. *)
Definition Now (ns : Z) : Time := unixTime (ns / Second) (ns mod Second).

(** [t.Unix()] *)
Definition ToUnix (t : Time) : Z := add64 (sec t) (- unixToInternal).

End time.

(** ** Data model *)

(** [revisionEntry] ([programCacheStatus] in the first two variants).
    [LastModified] is an [int64]; the sums it enters wrap around or stop at
    the end of the range as Go's do. *)
Record revisionEntry := mkEntry {
  Status : string;
  LastModified : Z;
}.

(** [persistentState] ([programCache] in the first two variants).  A Go map
    may be [nil]: reads of a nil map give the zero value, and [main] makes
    the map before it writes. *)
Record persistentState := mkState {
  Revisions : option (gmap string revisionEntry);
}.

Definition zeroEntry : revisionEntry := mkEntry "" 0.
Definition zeroState : persistentState := mkState None.

Definition revisionsOf (state : persistentState) : gmap string revisionEntry :=
  match Revisions state with
  | Some m => m
  | None => ∅
  end.

(** [state.Revisions[rev]] *)
Definition lookupRevision (state : persistentState) (rev : string)
  : revisionEntry :=
  match revisionsOf state !! rev with
  | Some e => e
  | None => zeroEntry
  end.

(** [if state.Revisions == nil { ... }; state.Revisions[rev] = entry] *)
Definition putRevision (state : persistentState) (rev : string)
    (entry : revisionEntry) : persistentState :=
  mkState (Some (<[rev := entry]> (revisionsOf state))).

Inductive Color := ct_None | ct_Red | ct_Yellow | ct_Green.

Inductive Output :=
| ChangeColor (fg : Color)
| Print (text : string)
| ResetColor.

(** go-github's [RepoStatus]; [State] is a [*string]. *)
Record RepoStatus := mkRepoStatus {
  State_ : option string;
}.

(** What one call of [client.Repositories.ListStatuses] is made with. *)
Record Request := mkRequest {
  rq_token : string;
  rq_insecureTLS : bool;
  rq_baseURL : url.URL;
  rq_owner : string;
  rq_repo : string;
  rq_ref : string;
}.

Module netrc.

Record Machine := mkMachine {
  Name : string;
  Login : string;
  Password : string;
  Account : string;
}.

(** The loop of [FindMachine] over the parsed entries: the first entry
    named [name] wins, otherwise the last ["default"] entry (whose [Name]
    is empty) is the result. *)
Fixpoint find (mach : list Machine) (name : string) (def : option Machine)
  : option Machine :=
  match mach with
  | [] => def
  | m :: rest =>
      if String.eqb (Name m) name then Some m
      else find rest name
             (if String.eqb (Name m) "" then Some m else def)
  end.

Definition FindMachine (parsed : res (list Machine)) (name : string)
  : res Machine :=
  match parsed with
  | Err e => Err e
  | Ok mach =>
      match find mach name None with
      | Some m => Ok m
      | None => Err "no machine found"
      end
  end.

End netrc.

(** ** The world outside the program *)

Record World := mkWorld {
  (** [os.Getenv] *)
  getenv : string -> string;
  (** [exec.Command("git", command...).Output()] *)
  git : list string -> res string;
  (** [HomeDir] of [os/user.Current()], [None] when it gives no user *)
  currentUser : option string;
  (** whether [os.Stat] finds the path *)
  stat : string -> bool;
  (** [netrc.ParseFile] *)
  netrcParse : string -> res (list netrc.Machine);
  (** an error of [os.Open] other than non-existence *)
  openError : string -> option string;
  (** an error of [os.Create] or of [os.OpenFile] with [O_CREATE|O_RDWR] *)
  createError : string -> option string;
  (** [json.NewDecoder(f).Decode] into a zero value: what it filled in, and
      its error *)
  jsonDecode : string -> persistentState * option string;
  (** [json.NewEncoder(f).Encode]: the bytes written, or its error *)
  jsonEncode : persistentState -> res string;
  (** the GitHub API *)
  listStatuses : Request -> res (list RepoStatus);
  (** where the wall clock stands at the n-th reading of [time.Now()], in
      nanoseconds after the Unix epoch *)
  clock : nat -> Z;
  (** the wall clock is a signed 64-bit count of nanoseconds, as the
      kernel keeps it *)
  clock_range : forall tick, minInt64 <= clock tick <= maxInt64;
}.

(** What one run can change. *)
Record State := mkSt {
  files : gmap string string;
  ticks : nat;
  stdout : list Output;
  stderr : list string;
  requests : list Request;
}.

Definition withFiles (s : State) (f : gmap string string) : State :=
  mkSt f (ticks s) (stdout s) (stderr s) (requests s).
Definition withTick (s : State) : State :=
  mkSt (files s) (S (ticks s)) (stdout s) (stderr s) (requests s).
Definition withStdout (s : State) (o : list Output) : State :=
  mkSt (files s) (ticks s) (stdout s ++ o) (stderr s) (requests s).
Definition withStderr (s : State) (line : string) : State :=
  mkSt (files s) (ticks s) (stdout s) (stderr s ++ [line]) (requests s).
Definition withRequest (s : State) (r : Request) : State :=
  mkSt (files s) (ticks s) (stdout s) (stderr s) (requests s ++ [r]).

(** ** Programs: state passing with process exit *)

Inductive Result (A : Type) : Type :=
| Done (a : A) (s : State)
| Exited (exitCode : Z) (s : State).
Arguments Done {A} a s.
Arguments Exited {A} exitCode s.

Definition Prog (A : Type) : Type := State -> Result A.

Definition ret {A} (a : A) : Prog A := fun s => Done a s.

Definition bind {A B} (m : Prog A) (k : A -> Prog B) : Prog B :=
  fun s =>
    match m s with
    | Done a s' => k a s'
    | Exited c s' => Exited c s'
    end.

Notation "x <- m ;; k" := (bind m (fun x => k))
  (at level 100, m at next level, right associativity).
Notation "m ;;; k" := (bind m (fun _ => k))
  (at level 100, right associativity).

Definition os_Exit {A} (exitCode : Z) : Prog A := fun s => Exited exitCode s.

(** A run-time panic ends the process with status 2. *)
Definition panic {A} (message : string) : Prog A :=
  fun s => Exited 2 (withStderr s ("panic: " ++ message)).

Definition fmt_Print (o : list Output) : Prog unit :=
  fun s => Done tt (withStdout s o).

Definition time_Now (w : World) : Prog time.Time :=
  fun s => Done (time.Now (clock w (ticks s))) (withTick s).

Definition die {A} (message : string) : Prog A :=
  fun s => Exited 1 (withStderr s (message ++ String newline EmptyString)).

Definition dieIf (err : option string) : Prog unit :=
  match err with
  | Some e => die e
  | None => ret tt
  end.

(** What git itself writes to the diagnostic stream is not recorded. *)
Definition runGit (w : World) (command : list string) : Prog string :=
  match git w command with
  | Err err =>
      die ("'git " ++ strings.Join command " " ++ "' failed: " ++ err)
  | Ok buf => ret (strings.TrimRight buf newline)
  end.

(** [filepath.Join]: the non-empty elements, joined by the separator (the
    lexical cleaning of the result is not modelled). *)
Definition filepath_Join (elem : list string) : string :=
  strings.Join (filter (fun e => negb (String.eqb e "")) elem) "/".

Definition cacheFilePath (toplevel : string) : string :=
  filepath_Join [toplevel; ".github-commit-status"; "cache"].

Definition targetRevision (w : World) (args : list string) : Prog string :=
  let rev := match args with
             | arg0 :: _ => arg0
             | [] => "HEAD"
             end in
  runGit w ["rev-parse"; rev].

(** The [.netrc] step of [retrieveAPIToken]: the password of the machine
    entry, or the empty string. *)
Definition netrcToken (w : World) (remoteURL : url.URL) : string :=
  match currentUser w with
  | None => ""
  | Some homeDir =>
      let netrcFile := filepath_Join [homeDir; ".netrc"] in
      if stat w netrcFile then
        let apiHost := if String.eqb (url.Host remoteURL) "github.com"
                       then "api.github.com"
                       else url.Host remoteURL in
        match netrc.FindMachine (netrcParse w netrcFile) apiHost with
        | Ok machine =>
            (* ignore "default" machine *)
            if negb (String.eqb (netrc.Name machine) "")
            then netrc.Password machine
            else ""
        | Err _ => ""
        end
      else ""
  end.

(** [retrieveAPIToken] (second and third variant) *)
Definition retrieveAPIToken (w : World) (remoteURL : url.URL) : Prog string :=
  (* try environment variable *)
  let token := getenv w "GITHUB_COMMIT_STATUS_MARK_TOKEN" in
  (* ..then .netrc *)
  let token := if String.eqb token "" then netrcToken w remoteURL
               else token in
  (* ..then git config *)
  if String.eqb token ""
  then runGit w ["config"; "--get-urlmatch"; "github.token";
                 url.String_ remoteURL]
  else ret token.

(** The flags and arguments [flag.Parse] hands to [main]. *)
Record Flags := mkFlags {
  cached : bool;
  update : bool;
  args : list string;
}.

(** go-github's default [BaseURL], ["https://api.github.com/"]. *)
Definition defaultBaseURL : url.URL :=
  url.mkURL "https" "" None "api.github.com" "/" "" false false "" "" "".

(** The client set-up and the API call of [main]: an OAuth transport when
    there is a token, certificate checks off and the [/api/v3/] base for a
    host other than github.com. *)
Definition fetchStatuses (w : World) (remoteURL : url.URL)
    (token user repo rev : string) : Prog (list RepoStatus) :=
  let enterprise := negb (String.eqb (url.Host remoteURL) "github.com") in
  baseURL <- (if enterprise
              then match url.Parse ("https://" ++ url.Host remoteURL
                                      ++ "/api/v3/") with
                   | Err e => die e
                   | Ok u => ret u
                   end
              else ret defaultBaseURL) ;;
  let request := mkRequest token enterprise baseURL user repo rev in
  fun s =>
    match listStatuses w request with
    | Err err => die ("Error while fetching status: " ++ err)
                   (withRequest s request)
    | Ok statuses => Done statuses (withRequest s request)
    end.

(** [thisStatus]: the state of the first record, the empty status when
    there is none, at the present second. *)
Definition observedEntry (w : World) (statuses : list RepoStatus)
  : Prog revisionEntry :=
  now <- time_Now w ;;
  match statuses with
  | [] => ret (mkEntry "" (time.ToUnix now))
  | first :: _ =>
      match State_ first with
      | Some state => ret (mkEntry state (time.ToUnix now))
      | None => panic "runtime error: invalid memory address or nil pointer dereference"
      end
  end.

(** The remote identity of [main]: the normalized [remote.origin.url], the
    second and the third field of its path. *)
Definition remoteIdentity (w : World) : Prog (url.URL * string * string) :=
  raw <- runGit w ["config"; "remote.origin.url"] ;;
  match normalizeURL raw with
  | Err err => die ("Error while parsing URL: " ++ err)
  | Ok remoteURL =>
      let parts := strings.Split (url.Path remoteURL) "/" in
      if (length parts <? 3)%nat
      then die ("Could not parse: " ++ quoted (url.String_ remoteURL))
      else ret (remoteURL, nth 1 parts "", nth 2 parts "")
  end.

(** ** Files *)

Inductive opened :=
| Opened (content : string)
| NotExist
| OpenFailed (err : string).

(** [os.Open]: read only. *)
Definition os_Open (w : World) (path : string) (s : State) : opened :=
  match openError w path with
  | Some err => OpenFailed err
  | None => match files s !! path with
            | Some content => Opened content
            | None => NotExist
            end
  end.

(** [os.OpenFile(path, os.O_CREATE|os.O_RDWR, 0666)]: a missing file is
    created empty. *)
Definition os_OpenFile_create (w : World) (path : string)
  : Prog (res string) :=
  fun s =>
    match createError w path with
    | Some err => Done (Err err) s
    | None => match files s !! path with
              | Some content => Done (Ok content) s
              | None => Done (Ok "") (withFiles s (<[path := ""]> (files s)))
              end
    end.

(** Truncation to no content: [os.Create] on success, [Truncate(0)]. *)
Definition truncate (path : string) : Prog unit :=
  fun s => Done tt (withFiles s (<[path := ""]> (files s))).

Definition os_Create (w : World) (path : string) : Prog (option string) :=
  match createError w path with
  | Some err => ret (Some err)
  | None => truncate path ;;; ret None
  end.

(** [json.NewEncoder(cacheFile).Encode(&state)] on a file at offset 0. *)
Definition encodeTo (w : World) (path : string) (state : persistentState)
  : Prog (option string) :=
  match jsonEncode w state with
  | Err e => ret (Some e)
  | Ok bytes =>
      fun s => Done None (withFiles s (<[path := bytes]> (files s)))
  end.

(** ** Third variant: src/unnamed/part_001 *)

Module V3.

Definition statusUnknown : string := "".
Definition statusFailure : string := "failure".
Definition statusPending : string := "pending".
Definition statusSuccess : string := "success".

(** [const forever = time.Duration(-1)] *)
Definition forever : Z := -1.

Record statusConf := mkConf {
  mark : string;
  color : Color;
  cacheFor : Z;
}.

Definition statusConfiguration : gmap string statusConf :=
  <[statusUnknown := mkConf "?" ct_None (30 * time.Second)]>
  (<[statusFailure := mkConf "✗" ct_Red forever]>
  (<[statusPending := mkConf "●" ct_Yellow (10 * time.Second)]>
  (<[statusSuccess := mkConf "✓" ct_Green forever]> ∅))).

(** Indexing a Go map gives the zero value for a missing key. *)
Definition index (key : string) : statusConf :=
  match statusConfiguration !! key with
  | Some conf => conf
  | None => mkConf "" ct_None 0
  end.

(** [conf, ok := statusConfiguration[status];
     if !ok { conf = statusConfiguration[statusUnknown] }] *)
Definition confOf (status : string) : statusConf :=
  match statusConfiguration !! status with
  | Some conf => conf
  | None => index statusUnknown
  end.

(** The validity test of [main] when the wall clock stands [now]
    nanoseconds after the Unix epoch:
    [exp == forever || time.Now().Before(time.Unix(LastModified, 0).Add(exp))] *)
Definition isValid (entry : revisionEntry) (now : Z) : bool :=
  let exp := cacheFor (confOf (Status entry)) in
  (exp =? forever)
  || time.Before (time.Now now)
       (time.Add (time.Unix (LastModified entry) 0) exp).

Definition printStatus (status : string) : Prog unit :=
  let conf := confOf status in
  fmt_Print [ChangeColor (color conf); Print (mark conf); ResetColor].

(** What [printStatus] writes. *)
Definition rendering (status : string) : list Output :=
  [ChangeColor (color (confOf status)); Print (mark (confOf status));
   ResetColor].

Definition restoreState (w : World) : Prog persistentState :=
  toplevel <- runGit w ["rev-parse"; "--show-toplevel"] ;;
  fun s =>
    match os_Open w (cacheFilePath toplevel) s with
    | Opened content => Done (fst (jsonDecode w content)) s
    | NotExist => Done zeroState s
    | OpenFailed err => die err s
    end.

Definition saveState (w : World) (state : persistentState) : Prog unit :=
  toplevel <- runGit w ["rev-parse"; "--show-toplevel"] ;;
  err <- os_Create w (cacheFilePath toplevel) ;;
  dieIf err ;;;
  err <- encodeTo w (cacheFilePath toplevel) state ;;
  dieIf err.

(** How [main] settles [*useCache]; the clock is read only when the
    status does not last forever. *)
Definition useCache (w : World) (fl : Flags) (entry : revisionEntry)
  : Prog bool :=
  let conf := confOf (Status entry) in
  if update fl then ret false
  else
    let exp := cacheFor conf in
    if exp =? forever then ret true
    else
      now <- time_Now w ;;
      if time.Before now
           (time.Add (time.Unix (LastModified entry) 0) exp)
      then ret true
      else ret (cached fl).

(** [main] after the cached mark was not used. *)
Definition lookup (w : World) (rev : string) (state : persistentState)
  : Prog unit :=
  id <- remoteIdentity w ;;
  let '(remoteURL, user, repo) := id in
  token <- retrieveAPIToken w remoteURL ;;
  statuses <- fetchStatuses w remoteURL token user repo rev ;;
  thisStatus <- observedEntry w statuses ;;
  printStatus (Status thisStatus) ;;;
  saveState w (putRevision state rev thisStatus).

Definition main (w : World) (fl : Flags) : Prog unit :=
  rev <- targetRevision w (args fl) ;;
  state <- restoreState w ;;
  let cachedRevisionEntry := lookupRevision state rev in
  use <- useCache w fl cachedRevisionEntry ;;
  if use : bool
  then printStatus (Status cachedRevisionEntry) ;;; os_Exit 0
  else lookup w rev state.

End V3.

(** ** What the first two variants share *)

Module Marks.

Definition markUnknown : string := "?".
Definition markFailure : string := "✗".
Definition markPending : string := "●".
Definition markSuccess : string := "✓".

Definition statusColors : gmap string Color :=
  <[markFailure := ct_Red]>
  (<[markPending := ct_Yellow]>
  (<[markSuccess := ct_Green]> ∅)).

Definition cacheExpirationSeconds : gmap string Z :=
  <["" := 30]>
  (<["failure" := -1]>
  (<["pending" := 10]>
  (<["success" := -1]> ∅))).

(** [cacheExpirationSeconds[status]]: 0 for a status that is no key. *)
Definition expirationOf (status : string) : Z :=
  match cacheExpirationSeconds !! status with
  | Some secs => secs
  | None => 0
  end.

(** [expSecs == -1 || now.Unix() < LastModified+expSecs], the sum taken
    in [int64]; [nowUnix] is [time.Now().Unix()]. *)
Definition isValid (entry : revisionEntry) (nowUnix : Z) : bool :=
  let expSecs := expirationOf (Status entry) in
  (expSecs =? -1) || (nowUnix <? add64 (LastModified entry) expSecs).

Definition printStatus (status : string) : Prog unit :=
  let mark := if String.eqb status "failure" then markFailure
              else if String.eqb status "pending" then markPending
              else if String.eqb status "success" then markSuccess
              else markUnknown in
  match statusColors !! mark with
  | Some color => fmt_Print [ChangeColor color; Print mark; ResetColor]
  | None => fmt_Print [Print mark]
  end.

(** What [printStatus] writes: the unknown mark has no color. *)
Definition rendering (status : string) : list Output :=
  if String.eqb status "failure"
  then [ChangeColor ct_Red; Print markFailure; ResetColor]
  else if String.eqb status "pending"
  then [ChangeColor ct_Yellow; Print markPending; ResetColor]
  else if String.eqb status "success"
  then [ChangeColor ct_Green; Print markSuccess; ResetColor]
  else [Print markUnknown].

(** The test, with the clock read only when the first disjunct fails. *)
Definition fresh (w : World) (entry : revisionEntry) : Prog bool :=
  let expSecs := expirationOf (Status entry) in
  if expSecs =? -1 then ret true
  else
    now <- time_Now w ;;
    ret (time.ToUnix now <? add64 (LastModified entry) expSecs).

(** Opening the cache file and decoding it; the decoder's error is
    dropped.  The result carries the path of the open file. *)
Definition restoreCache (w : World) : Prog (persistentState * string) :=
  toplevel <- runGit w ["rev-parse"; "--show-toplevel"] ;;
  opened <- os_OpenFile_create w (cacheFilePath toplevel) ;;
  match opened with
  | Err err => die err
  | Ok content =>
      ret (fst (jsonDecode w content), cacheFilePath toplevel)
  end.

(** [Truncate(0)], [Seek(0, SEEK_SET)], [Encode]. *)
Definition storeCache (w : World) (cache : persistentState)
    (cacheFile : string) : Prog unit :=
  truncate cacheFile ;;;
  err <- encodeTo w cacheFile cache ;;
  dieIf err.

End Marks.

(** ** Second variant: src/unnamed/part_000 *)

Module V2.

Definition useCache (w : World) (fl : Flags) (entry : revisionEntry)
  : Prog bool :=
  if update fl then ret false
  else
    ok <- Marks.fresh w entry ;;
    if ok : bool then ret true else ret (cached fl).

Definition lookup (w : World) (rev : string) (cache : persistentState)
    (cacheFile : string) : Prog unit :=
  id <- remoteIdentity w ;;
  let '(remoteURL, user, repo) := id in
  token <- retrieveAPIToken w remoteURL ;;
  statuses <- fetchStatuses w remoteURL token user repo rev ;;
  thisStatus <- observedEntry w statuses ;;
  Marks.printStatus (Status thisStatus) ;;;
  Marks.storeCache w (putRevision cache rev thisStatus) cacheFile.

Definition main (w : World) (fl : Flags) : Prog unit :=
  rev <- targetRevision w (args fl) ;;
  restored <- Marks.restoreCache w ;;
  let '(cache, cacheFile) := restored in
  let cachedStatus := lookupRevision cache rev in
  use <- useCache w fl cachedStatus ;;
  if use : bool
  then Marks.printStatus (Status cachedStatus) ;;; os_Exit 0
  else lookup w rev cache cacheFile.

End V2.

(** ** First variant: src/main.go

    Here [main] has the steps of [targetRevision], [restoreCache] and
    [storeCache] written out in its body, in the same order. *)

Module V1.

(** The test is made before [--update] is looked at. *)
Definition useCache (w : World) (fl : Flags) (entry : revisionEntry)
  : Prog bool :=
  ok <- Marks.fresh w entry ;;
  let use := if ok : bool then true else cached fl in
  ret (if update fl then false else use).

(** The token comes from git's configuration only. *)
Definition lookup (w : World) (rev : string) (cache : persistentState)
    (cacheFile : string) : Prog unit :=
  id <- remoteIdentity w ;;
  let '(remoteURL, user, repo) := id in
  token <- runGit w ["config"; "--get-urlmatch"; "github.token";
                     url.String_ remoteURL] ;;
  statuses <- fetchStatuses w remoteURL token user repo rev ;;
  thisStatus <- observedEntry w statuses ;;
  Marks.printStatus (Status thisStatus) ;;;
  Marks.storeCache w (putRevision cache rev thisStatus) cacheFile.

Definition main (w : World) (fl : Flags) : Prog unit :=
  rev <- targetRevision w (args fl) ;;
  restored <- Marks.restoreCache w ;;
  let '(cache, cacheFile) := restored in
  let cachedStatus := lookupRevision cache rev in
  use <- useCache w fl cachedStatus ;;
  if use : bool
  then Marks.printStatus (Status cachedStatus) ;;; os_Exit 0
  else lookup w rev cache cacheFile.

End V1.

(** ** A sample world

    One repository at [/repo] whose origin is the SSH form of
    github.com/owner/repo, with HEAD at [abc123], a cache file that holds a
    pending entry written at second 1000, a [.netrc] with an entry for
    api.github.com and a ["default"] entry, and an API that reports
    success.  The clock stands at second 1005. *)

Module Sample.

Definition text (z : Z) : string :=
  DecimalString.NilZero.string_of_int (Z.to_int z).

Definition entryJSON (e : revisionEntry) : string :=
  "{" ++ quoted "Status" ++ ":" ++ quoted (Status e) ++ ","
  ++ quoted "LastModified" ++ ":" ++ text (LastModified e) ++ "}".

Definition stateJSON (state : persistentState) : string :=
  "{" ++ quoted "Revisions" ++ ":"
  ++ match Revisions state with
     | None => "null"
     | Some m =>
         "{" ++ strings.Join
                  (map (fun kv => quoted (fst kv) ++ ":" ++ entryJSON (snd kv))
                     (map_to_list m)) ","
         ++ "}"
     end
  ++ "}" ++ String newline EmptyString.

Definition rev : string := "abc123".

(** Second 1005 after the epoch is a reading of the wall clock. *)
Definition steady (tick : nat)
  : minInt64 <= 1005 * time.Second <= maxInt64 :=
  ltac:(unfold minInt64, maxInt64, time.Second; lia).
Definition path : string := "/repo/.github-commit-status/cache".

Definition pendingState : persistentState :=
  mkState (Some {[ rev := mkEntry "pending" 1000 ]}).

Definition line (s : string) : string := s ++ String newline EmptyString.

Definition answers (command : list string) : res string :=
  if bool_decide (command = ["rev-parse"; "HEAD"]) then Ok (line rev)
  else if bool_decide (command = ["rev-parse"; "--show-toplevel"])
  then Ok (line "/repo")
  else if bool_decide (command = ["config"; "remote.origin.url"])
  then Ok (line "git@github.com:owner/repo.git")
  else if bool_decide
            (command = ["config"; "--get-urlmatch"; "github.token";
                        "https://git@github.com/owner/repo"])
  then Ok (line "config-token")
  else Err "exit status 1".

Definition machines : list netrc.Machine :=
  [netrc.mkMachine "" "anyone" "fallback" "";
   netrc.mkMachine "api.github.com" "me" "netrc-token" ""].

Definition decode (content : string) : persistentState * option string :=
  if String.eqb content (stateJSON pendingState) then (pendingState, None)
  else if String.eqb content "" then (zeroState, Some "EOF")
  else (zeroState, Some "unexpected end of JSON input").

Definition world : World :=
  mkWorld
    (fun _ => "")
    answers
    (Some "/home/me")
    (fun p => String.eqb p "/home/me/.netrc")
    (fun _ => Ok machines)
    (fun _ => None)
    (fun _ => None)
    decode
    (fun state => Ok (stateJSON state))
    (fun _ => Ok [mkRepoStatus (Some "success");
                  mkRepoStatus (Some "pending")])
    (fun _ => 1005 * time.Second)
    steady.

Definition start : State :=
  mkSt {[ path := stateJSON pendingState ]} 0 [] [] [].

(** The same with a cache file cut short by a writer. *)
Definition torn : State :=
  mkSt {[ path := "{" ++ quoted "Revisions" ++ ":{" ]} 0 [] [] [].

(** No token in the environment, only a ["default"] entry in [.netrc], and
    [github.token] not set: [git config --get-urlmatch] then prints nothing
    and exits with status 1. *)
Definition anonymous : World :=
  mkWorld
    (fun _ => "")
    (fun command =>
       if bool_decide
            (command = ["config"; "--get-urlmatch"; "github.token";
                        "https://git@github.com/owner/repo"])
       then Err "exit status 1"
       else answers command)
    (Some "/home/me")
    (fun p => String.eqb p "/home/me/.netrc")
    (fun _ => Ok [netrc.mkMachine "" "anyone" "fallback" ""])
    (fun _ => None)
    (fun _ => None)
    decode
    (fun state => Ok (stateJSON state))
    (fun _ => Ok [])
    (fun _ => 1005 * time.Second)
    steady.

(** The environment variable is set as well. *)
Definition withEnv : World :=
  mkWorld
    (fun name => if String.eqb name "GITHUB_COMMIT_STATUS_MARK_TOKEN"
                 then "env-token" else "")
    answers
    (Some "/home/me")
    (fun p => String.eqb p "/home/me/.netrc")
    (fun _ => Ok machines)
    (fun _ => None)
    (fun _ => None)
    decode
    (fun state => Ok (stateJSON state))
    (fun _ => Ok [])
    (fun _ => 1005 * time.Second)
    steady.

(** The origin is [https://github.com/owner/]. *)
Definition ownerOnly : World :=
  mkWorld
    (fun _ => "")
    (fun command =>
       if bool_decide (command = ["config"; "remote.origin.url"])
       then Ok (line "https://github.com/owner/")
       else answers command)
    None
    (fun _ => false)
    (fun _ => Err "no such file")
    (fun _ => None)
    (fun _ => None)
    decode
    (fun state => Ok (stateJSON state))
    (fun _ => Ok [])
    (fun _ => 1005 * time.Second)
    steady.

Definition remoteURL : url.URL :=
  url.mkURL "https" "" (Some (url.mkUserinfo "git" None)) "github.com"
    "/owner/repo" "" false false "" "" "".

(** The state after a live lookup that found the first status, success,
    at second 1005 (the clock was read twice). *)
Definition refreshed : State :=
  mkSt {[ path := stateJSON (mkState (Some {[ rev := mkEntry "success" 1005 ]})) ]}
    2 [ChangeColor ct_Green; Print "✓"; ResetColor] []
    [mkRequest "netrc-token" false defaultBaseURL "owner" "repo" rev].

(** What [https://github.com/owner/] parses to. *)
Definition ownerOnlyURL : url.URL :=
  url.mkURL "https" "" None "github.com" "/owner/" "" false false "" "" "".

(** A codec that gives every state back: the state's number, in binary. *)
#[export] Instance revisionEntry_eq_dec : EqDecision revisionEntry.
Proof. solve_decision. Defined.

#[export] Instance revisionEntry_countable : Countable revisionEntry :=
  inj_countable'
    (fun e => (Status e, LastModified e))
    (fun p => mkEntry (fst p) (snd p))
    (fun e => match e with mkEntry _ _ => eq_refl end).

#[export] Instance persistentState_eq_dec : EqDecision persistentState.
Proof. solve_decision. Defined.

#[export] Instance persistentState_countable : Countable persistentState :=
  inj_countable' Revisions mkState
    (fun state => match state with mkState _ => eq_refl end).

Fixpoint bits (p : positive) : string :=
  match p with
  | xH => ""
  | xO q => String "0" (bits q)
  | xI q => String "1" (bits q)
  end.

Fixpoint unbits (content : string) : positive :=
  match content with
  | String c rest =>
      if Ascii.eqb c "1" then xI (unbits rest)
      else if Ascii.eqb c "0" then xO (unbits rest)
      else xH
  | EmptyString => xH
  end.

Definition encodeAll (state : persistentState) : res string :=
  Ok (bits (countable.encode state)).

Definition decodeAll (content : string) : persistentState * option string :=
  match countable.decode (unbits content) with
  | Some state => (state, None)
  | None => (zeroState, Some "invalid character")
  end.

(** The statuses are pending, the clock advances a second at each reading,
    and the codec is the one above. *)
Definition faithful : World :=
  mkWorld
    (fun _ => "")
    answers
    (Some "/home/me")
    (fun p => String.eqb p "/home/me/.netrc")
    (fun _ => Ok machines)
    (fun _ => None)
    (fun _ => None)
    decodeAll
    encodeAll
    (fun _ => Ok [mkRepoStatus (Some "pending")])
    (fun tick => (1005 + Z.of_nat (Nat.min tick 60)) * time.Second)
    ltac:(intros tick; unfold minInt64, maxInt64, time.Second; lia).

(** No cache file yet. *)
Definition empty : State := mkSt ∅ 0 [] [] [].

(** A cache file of that codec with a stale pending entry for the sample
    revision and a failure for another revision. *)
Definition twoRevisions : persistentState :=
  mkState (Some (<[ "def456" := mkEntry "failure" 900 ]>
                   {[ rev := mkEntry "pending" 900 ]})).

Definition seasoned : State :=
  mkSt {[ path := bits (countable.encode twoRevisions) ]} 0 [] [] [].

(** [.netrc] names the web host, not the API host. *)
Definition webHostOnly : World :=
  mkWorld
    (fun _ => "")
    answers
    (Some "/home/me")
    (fun p => String.eqb p "/home/me/.netrc")
    (fun _ => Ok [netrc.mkMachine "github.com" "me" "netrc-token" ""])
    (fun _ => None)
    (fun _ => None)
    decode
    (fun state => Ok (stateJSON state))
    (fun _ => Ok [])
    (fun _ => 1005 * time.Second)
    steady.

End Sample.

(** ** What a completed live lookup leaves behind *)

(** The status a list of records stands for: the state of the first record,
    the empty status for no record. *)
Definition firstState (statuses : list RepoStatus) : option string :=
  match statuses with
  | [] => Some ""
  | first :: _ => State_ first
  end.

(** From [s] to [s']: one request for [rev] was made, its first status was
    printed with [render], and the file at [path] was written with the
    loaded state in which the entry of [rev], and no other, was put. *)
Definition Refreshed (w : World) (render : string -> list Output)
    (rev : string) (loaded : persistentState) (path : string)
    (s s' : State) : Prop :=
  exists request statuses entry bytes,
    listStatuses w request = Ok statuses
    /\ rq_ref request = rev
    /\ requests s' = (requests s ++ [request])%list
    /\ firstState statuses = Some (Status entry)
    /\ stdout s' = (stdout s ++ render (Status entry))%list
    /\ jsonEncode w (putRevision loaded rev entry) = Ok bytes
    /\ files s' = <[path := bytes]> (files s).

(** A run that went for the live lookup: it ends with a non-zero status, or
    it returns from [main] after a refresh of the revision's entry in the
    cache file under the top level that git names. *)
Definition LiveLookup (w : World) (render : string -> list Output)
    (fl : Flags) (load : Prog persistentState) (s : State)
    (r : Result unit) : Prop :=
  match r with
  | Exited exitCode _ => exitCode <> 0
  | Done _ s' =>
      exists rev loaded s1 buf,
        targetRevision w (args fl) s = Done rev s
        /\ load s = Done loaded s1
        /\ git w ["rev-parse"; "--show-toplevel"] = Ok buf
        /\ Refreshed w render rev loaded
             (cacheFilePath (strings.TrimRight buf newline)) s s'
  end.

(** A program that ends the process only with a non-zero status. *)
Definition Fatal {A} (m : Prog A) : Prop :=
  forall s exitCode s', m s = Exited exitCode s' -> exitCode <> 0.

(** Loading in the first two variants: [restoreCache] without the file. *)
Definition restoredCache (w : World) : Prog persistentState :=
  restored <- Marks.restoreCache w ;; ret (fst restored).

(** The entry of [rev], and no other, differs between the loaded state and
    the state that was written to the cache file. *)
Definition OneEntryReplaced (w : World) (fl : Flags)
    (load : Prog persistentState) (s s' : State) : Prop :=
  exists rev loaded s1 buf entry bytes,
    targetRevision w (args fl) s = Done rev s
    /\ load s = Done loaded s1
    /\ git w ["rev-parse"; "--show-toplevel"] = Ok buf
    /\ jsonEncode w (putRevision loaded rev entry) = Ok bytes
    /\ files s'
       = <[cacheFilePath (strings.TrimRight buf newline) := bytes]> (files s)
    /\ revisionsOf (putRevision loaded rev entry) !! rev = Some entry
    /\ forall other,
         other <> rev ->
         revisionsOf (putRevision loaded rev entry) !! other
         = revisionsOf loaded !! other.

(** ** The specification's readings *)

(** The non-empty segments of a path. *)
Definition nonEmptySegments (path : string) : list string :=
  filter (fun segment => negb (String.eqb segment ""))
    (strings.Split path "/").

(** The host whose [.netrc] entry is looked for. *)
Definition apiHostOf (remoteURL : url.URL) : string :=
  if String.eqb (url.Host remoteURL) "github.com" then "api.github.com"
  else url.Host remoteURL.

(** The [.netrc] step as the specification words it: the first entry whose
    machine name is exactly the API host; an entry without a name (the
    ["default"] entry) never counts. *)
Definition exactMachine (w : World) (remoteURL : url.URL)
  : option netrc.Machine :=
  match currentUser w with
  | None => None
  | Some homeDir =>
      if stat w (filepath_Join [homeDir; ".netrc"]) then
        match netrcParse w (filepath_Join [homeDir; ".netrc"]) with
        | Ok mach =>
            List.find
              (fun m => String.eqb (netrc.Name m) (apiHostOf remoteURL)
                        && negb (String.eqb (netrc.Name m) ""))
              mach
        | Err _ => None
        end
      else None
  end.

Definition exactPassword (w : World) (remoteURL : url.URL) : string :=
  match exactMachine w remoteURL with
  | Some m => netrc.Password m
  | None => ""
  end.

(** The text ["https://"] followed by [y], byte by byte. *)
Definition https (y : string) : string :=
  String "h" (String "t" (String "t" (String "p" (String "s"
    (String ":" (String "/" (String "/" y))))))).

(** ** Measures and frames of a run *)

(** [n] newlines. *)
Fixpoint newlines (n : nat) : string :=
  match n with
  | O => EmptyString
  | S k => String newline (newlines k)
  end.

(** The texts written to standard output, colour calls left out. *)
Definition printed (o : list Output) : list string :=
  flat_map (fun e => match e with Print text => [text] | _ => [] end) o.

(** [m] raises the measure [mu] by at most [d] when it returns and by at
    most [e] when it ends the process, and never lowers it. *)
Definition Grows (mu : State -> nat) (d e : nat) {A} (m : Prog A) : Prop :=
  forall s,
    match m s with
    | Done _ s' => (mu s <= mu s' <= mu s + d)%nat
    | Exited _ s' => (mu s <= mu s' <= mu s + e)%nat
    end.

(** A measure of the state that only counts: each printed text weighs
    [perMark], each message on the diagnostic stream [perLine], each call of
    the status listing [perRequest]; files and clock readings weigh
    nothing. *)
Class Gauge (mu : State -> nat) (perMark perLine perRequest : nat) : Prop := {
  gauge_files : forall s f, mu (withFiles s f) = mu s;
  gauge_tick : forall s, mu (withTick s) = mu s;
  gauge_stdout :
    forall s o, mu (withStdout s o) = (mu s + perMark * length (printed o))%nat;
  gauge_stderr : forall s line, mu (withStderr s line) = (mu s + perLine)%nat;
  gauge_request : forall s r, mu (withRequest s r) = (mu s + perRequest)%nat;
}.

Definition requestCount (s : State) : nat := length (requests s).
Definition diagnostics (s : State) : nat := length (stderr s).
Definition marksPrinted (s : State) : nat := length (printed (stdout s)).

(** The state a run ends in, however it ends. *)
Definition finalState {A} (r : Result A) : State :=
  match r with
  | Done _ s' => s'
  | Exited _ s' => s'
  end.

Definition Keeps (R : State -> State -> Prop) {A} (m : Prog A) : Prop :=
  forall s, R s (finalState (m s)).

Definition Untouched (p : string) (s s' : State) : Prop :=
  files s' !! p = files s !! p.

(** [m] has printed when it returns or ends the process with status 0. *)
Definition Marked {A} (m : Prog A) : Prop :=
  forall s,
    match m s with
    | Done _ s' => (marksPrinted s < marksPrinted s')%nat
    | Exited exitCode s' =>
        exitCode <> 0 \/ (marksPrinted s < marksPrinted s')%nat
    end.

Definition SameFiles (s s' : State) : Prop := files s' = files s.

(** Nothing is printed away, and the files are as they were as long as
    nothing has been printed. *)
Definition Unwritten (s s' : State) : Prop :=
  (marksPrinted s <= marksPrinted s')%nat
  /\ (marksPrinted s' = marksPrinted s -> files s' = files s).

(** ** A lookup that the environment answers *)

(** The token step of the first variant: git's configuration only. *)
Definition gitToken (w : World) (remoteURL : url.URL) : Prog string :=
  runGit w ["config"; "--get-urlmatch"; "github.token";
            url.String_ remoteURL].

(** The environment answers the lookup of [rev]: git names an origin whose
    path has an owner and a repository, the token step gives the token of
    [request], [request] is the call [main] then makes (to the default
    address for github.com, to [/api/v3/] of any other host), the API lists
    statuses for it, and the first of them has a state, [status] (the empty
    status when the list is empty). *)
Definition Answers (w : World) (tokenOf : url.URL -> Prog string)
    (rev : string) (request : Request) (status : string) : Prop :=
  exists buf remoteURL statuses,
    git w ["config"; "remote.origin.url"] = Ok buf
    /\ normalizeURL (strings.TrimRight buf newline) = Ok remoteURL
    /\ (3 <= length (strings.Split (url.Path remoteURL) "/"))%nat
    /\ (forall s, tokenOf remoteURL s = Done (rq_token request) s)
    /\ request
       = mkRequest (rq_token request)
           (negb (String.eqb (url.Host remoteURL) "github.com"))
           (rq_baseURL request)
           (nth 1 (strings.Split (url.Path remoteURL) "/") "")
           (nth 2 (strings.Split (url.Path remoteURL) "/") "")
           rev
    /\ (if String.eqb (url.Host remoteURL) "github.com"
        then rq_baseURL request = defaultBaseURL
        else url.Parse ("https://" ++ url.Host remoteURL ++ "/api/v3/")
             = Ok (rq_baseURL request))
    /\ listStatuses w request = Ok statuses
    /\ firstState statuses = Some status.

(** The state a completed lookup leaves: one more request, one more reading
    of the clock, the mark printed, the cache file written. *)
Definition looked (s : State) (out : list Output) (request : Request)
    (path bytes : string) : State :=
  mkSt (<[path := bytes]> (files s)) (S (ticks s)) (stdout s ++ out)
    (stderr s) (requests s ++ [request]).

(** * Properties *)

(** Splits conjunctions, and nothing else. *)
Ltac conjuncts := repeat match goal with |- _ /\ _ => split end.

(** ** The status table of the third variant *)

Lemma confOf_unknown :
  V3.confOf "" = V3.mkConf "?" ct_None (30 * time.Second).
Proof. reflexivity. Qed.

Lemma confOf_failure : V3.confOf "failure" = V3.mkConf "✗" ct_Red V3.forever.
Proof. reflexivity. Qed.

Lemma confOf_pending :
  V3.confOf "pending" = V3.mkConf "●" ct_Yellow (10 * time.Second).
Proof. reflexivity. Qed.

Lemma confOf_success : V3.confOf "success" = V3.mkConf "✓" ct_Green V3.forever.
Proof. reflexivity. Qed.

(** A status that is no key of the table gets the configuration of the
    unknown status. *)
Lemma confOf_fallback (status : string) :
  status ≠ "" -> status ≠ "failure" -> status ≠ "pending" ->
  status ≠ "success" ->
  V3.confOf status = V3.confOf "".
Proof.
  intros Hu Hf Hp Hs.
  unfold V3.confOf at 1.
  unfold V3.statusConfiguration, V3.statusUnknown, V3.statusFailure,
    V3.statusPending, V3.statusSuccess.
  rewrite !lookup_insert_ne by congruence.
  rewrite lookup_empty. reflexivity.
Qed.

Lemma isValid_forever (status : string) (lm now : Z) :
  V3.cacheFor (V3.confOf status) = V3.forever ->
  V3.isValid (mkEntry status lm) now = true.
Proof.
  intros H. unfold V3.isValid. cbn [Status LastModified].
  rewrite H. reflexivity.
Qed.

(** *** [int64] sums that stay in range *)

Lemma wrap64_small (z : Z) : minInt64 <= z <= maxInt64 -> wrap64 z = z.
Proof.
  unfold wrap64, minInt64, maxInt64. intros H.
  rewrite Z.mod_small by lia. lia.
Qed.

Lemma Unix_whole (lm : Z) :
  time.Unix lm 0 = time.mkTime (add64 lm time.unixToInternal) 0.
Proof. reflexivity. Qed.

Lemma Add_whole (x ttl : Z) :
  time.Add (time.mkTime x 0) (ttl * time.Second)
  = time.mkTime (time.addSec x ttl) 0.
Proof.
  unfold time.Add. cbn [time.sec time.nsec].
  assert (time.Second <> 0) as Hne by (unfold time.Second; lia).
  rewrite Z.quot_mul, Z.rem_mul by exact Hne. reflexivity.
Qed.

Lemma addSec_small (x d : Z) :
  0 < d -> minInt64 <= x -> x + d <= maxInt64 -> time.addSec x d = x + d.
Proof.
  intros Hd Hlo Hhi. unfold time.addSec, add64.
  rewrite wrap64_small by lia.
  rewrite (proj2 (Z.ltb_lt _ _)) by lia.
  rewrite (proj2 (Z.ltb_lt 0 d)) by lia. reflexivity.
Qed.

(** A reading of the wall clock is far from both ends of the range. *)
Lemma seconds_of_clock (now : Z) :
  minInt64 <= now <= maxInt64 ->
  -9223372037 <= now / time.Second <= 9223372036.
Proof.
  unfold minInt64, maxInt64, time.Second. intros H. split.
  - apply Z.div_le_lower_bound; lia.
  - assert (now / 1000000000 < 9223372037); [|lia].
    apply Z.div_lt_upper_bound; lia.
Qed.

Lemma Now_small (now : Z) :
  minInt64 <= now <= maxInt64 ->
  time.Now now
  = time.mkTime (now / time.Second + time.unixToInternal)
      (now mod time.Second).
Proof.
  intros H. pose proof (seconds_of_clock now H) as Hs.
  unfold time.Now, time.unixTime, add64. rewrite wrap64_small; [reflexivity|].
  unfold minInt64, maxInt64, time.unixToInternal. lia.
Qed.

(** The stamp [time.Now().Unix()] is the second of the reading. *)
Lemma ToUnix_Now (now : Z) :
  minInt64 <= now <= maxInt64 ->
  time.ToUnix (time.Now now) = now / time.Second.
Proof.
  intros H. pose proof (seconds_of_clock now H) as Hs.
  rewrite Now_small by exact H. unfold time.ToUnix, add64.
  cbn [time.sec]. rewrite wrap64_small.
  - lia.
  - unfold minInt64, maxInt64, time.unixToInternal. lia.
Qed.

(** With a time to live of [ttl] seconds the entry is valid strictly before
    second [lm + ttl], as long as that second is within the range of the
    library's seconds. *)
Lemma isValid_finite (status : string) (lm now ttl : Z) :
  V3.cacheFor (V3.confOf status) = ttl * time.Second ->
  0 < ttl ->
  minInt64 <= lm -> lm + time.unixToInternal + ttl <= maxInt64 ->
  minInt64 <= now <= maxInt64 ->
  V3.isValid (mkEntry status lm) now = (now <? (lm + ttl) * time.Second).
Proof.
  intros H Hpos Hlo Hhi Hnow. unfold V3.isValid. cbn [Status LastModified].
  rewrite H.
  assert ((ttl * time.Second =? V3.forever) = false) as ->.
  { apply Z.eqb_neq. unfold V3.forever, time.Second. lia. }
  cbn [orb].
  assert (minInt64 <= lm + time.unixToInternal) as Hlo'
    by (unfold time.unixToInternal; lia).
  rewrite Unix_whole, Add_whole. unfold add64.
  rewrite wrap64_small by lia.
  rewrite addSec_small by lia.
  rewrite Now_small by exact Hnow.
  unfold time.Before. cbn [time.sec time.nsec].
  assert (0 <= now mod time.Second) as Hmod.
  { apply Z.mod_pos_bound. unfold time.Second. lia. }
  rewrite (proj2 (Z.ltb_ge _ 0) Hmod), andb_false_r, orb_false_r.
  destruct (Z.ltb_spec now ((lm + ttl) * time.Second)) as [Hlt|Hge].
  - apply Z.ltb_lt.
    assert (now / time.Second < lm + ttl); [|lia].
    apply Z.div_lt_upper_bound; unfold time.Second in *; lia.
  - apply Z.ltb_ge.
    assert (lm + ttl <= now / time.Second); [|lia].
    apply Z.div_le_lower_bound; unfold time.Second in *; lia.
Qed.

Lemma cacheFor_values (status : string) :
  V3.cacheFor (V3.confOf status) = V3.forever
  \/ V3.cacheFor (V3.confOf status) = 10 * time.Second
  \/ V3.cacheFor (V3.confOf status) = 30 * time.Second.
Proof.
  destruct (String.eqb_spec status "failure") as [->|Hf]; [left; reflexivity|].
  destruct (String.eqb_spec status "pending") as [->|Hp];
    [right; left; reflexivity|].
  destruct (String.eqb_spec status "success") as [->|Hs]; [left; reflexivity|].
  destruct (String.eqb_spec status "") as [->|Hu]; [right; right; reflexivity|].
  right. right. rewrite (confOf_fallback status) by assumption. reflexivity.
Qed.

(** [main] settles [*useCache] by this test when neither flag is given. *)
Lemma useCache_isValid (w : World) (fl : Flags) (entry : revisionEntry)
    (s : State) :
  update fl = false ->
  exists s',
    V3.useCache w fl entry s
    = Done (V3.isValid entry (clock w (ticks s)) || cached fl) s'
    /\ files s' = files s /\ stdout s' = stdout s
    /\ stderr s' = stderr s /\ requests s' = requests s.
Proof.
  intros Hu. unfold V3.useCache, V3.isValid. rewrite Hu.
  destruct (V3.cacheFor (V3.confOf (Status entry)) =? V3.forever) eqn:E.
  - exists s. cbn. auto.
  - exists (withTick s). unfold bind, time_Now. cbn [orb].
    destruct (time.Before _ _); cbn; auto.
Qed.

(** A stamp at the end of the [int64] range, a pending entry and second
    1005: the claimed law makes the entry valid, the test does not, because
    [time.Unix] adds the seconds from year 1 to the stamp and the [int64]
    sum goes around. *)
Lemma isValid_fails_past_the_range :
  1005 * time.Second < (maxInt64 + 10) * time.Second
  /\ V3.isValid (mkEntry "pending" maxInt64) (1005 * time.Second) = false
  /\ ~ (V3.isValid (mkEntry "pending" maxInt64) (1005 * time.Second) = true
        <-> 1005 * time.Second < (maxInt64 + 10) * time.Second).
Proof.
  assert (1005 * time.Second < (maxInt64 + 10) * time.Second) as Hlt
    by (unfold time.Second, maxInt64; lia).
  assert (V3.isValid (mkEntry "pending" maxInt64) (1005 * time.Second)
          = false) as Hfalse by (vm_compute; reflexivity).
  conjuncts; [exact Hlt | exact Hfalse |].
  intros [_ H]. rewrite Hfalse in H. specialize (H Hlt). discriminate.
Qed.

(** C1 (amended): failure and success stand at every time and for every
    stamp.  For a stamp [lm] whose expiry is within the range of the
    library's seconds ([lm + 62135596800 + 30] fits [int64]) and a reading
    [now] of the wall clock, the test holds exactly when the status lasts
    forever or [now] is before [lm] plus the time to live of the status:
    a pending entry is valid exactly while [now] is before second [lm + 10],
    an entry with the empty status (also the entry of a revision that is
    not in the cache) exactly while [now] is before second [lm + 30]; at
    that instant and at every later one the test fails.  [main] uses this
    test when no flag is given. *)
Theorem isValid_ttl_law (lm now : Z) :
  minInt64 <= lm ->
  lm + time.unixToInternal + 30 <= maxInt64 ->
  minInt64 <= now <= maxInt64 ->
  (forall status,
     V3.isValid (mkEntry status lm) now = true
     <-> V3.cacheFor (V3.confOf status) = V3.forever
         \/ now < lm * time.Second + V3.cacheFor (V3.confOf status))
  /\ (forall stamp reading,
        V3.isValid (mkEntry "failure" stamp) reading = true
        /\ V3.isValid (mkEntry "success" stamp) reading = true)
  /\ (V3.isValid (mkEntry "pending" lm) now = true
      <-> now < (lm + 10) * time.Second)
  /\ (V3.isValid (mkEntry "" lm) now = true
      <-> now < (lm + 30) * time.Second)
  /\ ((lm + 10) * time.Second <= now ->
      V3.isValid (mkEntry "pending" lm) now = false)
  /\ ((lm + 30) * time.Second <= now ->
      V3.isValid (mkEntry "" lm) now = false)
  /\ (forall rev, lookupRevision zeroState rev = mkEntry "" 0)
  /\ (forall w args entry s,
        exists s',
          V3.useCache w (mkFlags false false args) entry s
          = Done (V3.isValid entry (clock w (ticks s))) s').
Proof.
  intros Hlo Hhi Hnow.
  assert (forall status ttl,
            V3.cacheFor (V3.confOf status) = ttl * time.Second ->
            0 < ttl <= 30 ->
            V3.isValid (mkEntry status lm) now
            = (now <? (lm + ttl) * time.Second)) as Hfinite.
  { intros status ttl Hc Httl. apply isValid_finite; auto; lia. }
  conjuncts.
  - intros status.
    destruct (cacheFor_values status) as [Hc | [Hc | Hc]].
    + rewrite isValid_forever by exact Hc. tauto.
    + rewrite (Hfinite status 10 Hc) by lia. rewrite Z.ltb_lt, Hc.
      unfold V3.forever, time.Second. lia.
    + rewrite (Hfinite status 30 Hc) by lia. rewrite Z.ltb_lt, Hc.
      unfold V3.forever, time.Second. lia.
  - intros stamp reading. split; apply isValid_forever; reflexivity.
  - rewrite (Hfinite "pending" 10) by (reflexivity || lia). apply Z.ltb_lt.
  - rewrite (Hfinite "" 30) by (reflexivity || lia). apply Z.ltb_lt.
  - intros Hlate. rewrite (Hfinite "pending" 10) by (reflexivity || lia).
    apply Z.ltb_ge. exact Hlate.
  - intros Hlate. rewrite (Hfinite "" 30) by (reflexivity || lia).
    apply Z.ltb_ge. exact Hlate.
  - reflexivity.
  - intros w args entry s.
    destruct (useCache_isValid w (mkFlags false false args) entry s eq_refl)
      as (s' & H & _).
    exists s'. rewrite H. cbn [cached]. rewrite orb_false_r. reflexivity.
Qed.

Lemma isValid_ttl_law_witness :
  (V3.isValid (mkEntry "pending" 1000) (1010 * time.Second) = true
   <-> 1010 * time.Second < (1000 + 10) * time.Second)
  /\ (V3.isValid (mkEntry "" 1000) (1010 * time.Second) = true
      <-> 1010 * time.Second < (1000 + 30) * time.Second)
  /\ V3.isValid (mkEntry "pending" 1000) (1010 * time.Second) = false.
Proof.
  assert (minInt64 <= 1000) as Hlo by (unfold minInt64; lia).
  assert (1000 + time.unixToInternal + 30 <= maxInt64) as Hhi
    by (unfold time.unixToInternal, maxInt64; lia).
  assert (minInt64 <= 1010 * time.Second <= maxInt64) as Hnow
    by (unfold minInt64, maxInt64, time.Second; lia).
  pose proof (isValid_ttl_law 1000 (1010 * time.Second) Hlo Hhi Hnow)
    as (_ & _ & Hpending & Hunknown & Hlate & _).
  conjuncts; [exact Hpending | exact Hunknown |].
  apply Hlate. unfold time.Second. lia.
Defined.

(** The seconds-based test of the first two variants agrees with the test
    of the third as long as the expiry stays within the range of the
    library's seconds. *)
Lemma legacy_isValid_agrees (status : string) (lm now : Z) :
  status = "" \/ status = "failure" \/ status = "pending"
  \/ status = "success" ->
  minInt64 <= lm -> lm + time.unixToInternal + 30 <= maxInt64 ->
  minInt64 <= now <= maxInt64 ->
  Marks.isValid (mkEntry status lm) (time.ToUnix (time.Now now))
  = V3.isValid (mkEntry status lm) now.
Proof.
  intros Hst Hlo Hhi Hnow. rewrite ToUnix_Now by exact Hnow.
  assert (forall ttl, 0 < ttl <= 30 ->
            (now / time.Second <? add64 lm ttl)
            = (now <? (lm + ttl) * time.Second))
    as Hcmp.
  { intros ttl Httl. unfold add64.
    rewrite wrap64_small
      by (unfold time.unixToInternal, minInt64, maxInt64 in *; lia).
    destruct (Z.ltb_spec now ((lm + ttl) * time.Second)) as [Hlt|Hge].
    - apply Z.ltb_lt. apply Z.div_lt_upper_bound;
        unfold time.Second in *; lia.
    - apply Z.ltb_ge. apply Z.div_le_lower_bound;
        unfold time.Second in *; lia. }
  destruct Hst as [-> | [-> | [-> | ->]]].
  - rewrite (isValid_finite "" lm now 30) by (reflexivity || lia).
    unfold Marks.isValid. cbn [Status LastModified].
    change (Marks.expirationOf "") with 30. cbn [Z.eqb orb].
    apply Hcmp. lia.
  - rewrite isValid_forever by reflexivity. reflexivity.
  - rewrite (isValid_finite "pending" lm now 10) by (reflexivity || lia).
    unfold Marks.isValid. cbn [Status LastModified].
    change (Marks.expirationOf "pending") with 10. cbn [Z.eqb orb].
    apply Hcmp. lia.
  - rewrite isValid_forever by reflexivity. reflexivity.
Qed.



(** In the first two variants the mark of such a status is [?] as well,
    but the table of expiry times is indexed without a fallback: the time
    to live is 0 seconds. *)
Lemma legacy_unrecognized_status (status : string) (lm nowUnix : Z)
    (s : State) :
  status ≠ "" -> status ≠ "failure" -> status ≠ "pending" ->
  status ≠ "success" ->
  Marks.printStatus status s = Done tt (withStdout s [Print "?"])
  /\ Marks.isValid (mkEntry status lm) nowUnix = (nowUnix <? add64 lm 0).
Proof.
  intros Hu Hf Hp Hs. split.
  - unfold Marks.printStatus.
    apply String.eqb_neq in Hf, Hp, Hs. rewrite Hf, Hp, Hs. reflexivity.
  - unfold Marks.isValid, Marks.expirationOf, Marks.cacheExpirationSeconds.
    cbn [Status LastModified].
    rewrite !lookup_insert_ne by congruence.
    rewrite lookup_empty. reflexivity.
Qed.

(** ** Sequencing *)

Lemma bind_ret_Done {A B} (m : Prog A) (k : A -> Prog B) s a s1 :
  m s = Done a s1 -> bind m k s = k a s1.
Proof. intros H. unfold bind. rewrite H. reflexivity. Qed.

Lemma bind_done {A B} (m : Prog A) (k : A -> Prog B) s b s' :
  bind m k s = Done b s' ->
  exists a s1, m s = Done a s1 /\ k a s1 = Done b s'.
Proof.
  unfold bind. destruct (m s) as [a s1|c s1]; [eauto | discriminate].
Qed.

Lemma bind_exited {A B} (m : Prog A) (k : A -> Prog B) s c s' :
  bind m k s = Exited c s' ->
  m s = Exited c s' \/ exists a s1, m s = Done a s1 /\ k a s1 = Exited c s'.
Proof.
  unfold bind. destruct (m s) as [a s1|c1 s1]; intros H.
  - right. eauto.
  - left. inversion H. reflexivity.
Qed.

Lemma Fatal_bind {A B} (m : Prog A) (k : A -> Prog B) :
  Fatal m -> (forall a, Fatal (k a)) -> Fatal (bind m k).
Proof.
  intros Hm Hk s c s' H.
  apply bind_exited in H as [H | (a & s1 & _ & H)].
  - exact (Hm _ _ _ H).
  - exact (Hk _ _ _ _ H).
Qed.

Lemma Fatal_ret {A} (a : A) : Fatal (ret a).
Proof. intros s c s' H. discriminate. Qed.

Lemma Fatal_die {A} (message : string) : Fatal (@die A message).
Proof. intros s c s' H. inversion H. lia. Qed.

Lemma Fatal_panic {A} (message : string) : Fatal (@panic A message).
Proof. intros s c s' H. inversion H. lia. Qed.

Lemma Fatal_dieIf (err : option string) : Fatal (dieIf err).
Proof. destruct err; [apply Fatal_die | apply Fatal_ret]. Qed.

Create HintDb fatal.
#[export] Hint Resolve Fatal_ret Fatal_die Fatal_panic Fatal_dieIf : fatal.

(** ** The steps of a run, one by one *)

Lemma runGit_done w command s out s' :
  runGit w command s = Done out s' ->
  s' = s /\ exists buf, git w command = Ok buf
                        /\ out = strings.TrimRight buf newline.
Proof.
  unfold runGit. destruct (git w command) as [buf|e]; [|discriminate].
  intros H. inversion H. eauto.
Qed.

Lemma runGit_ok w command buf s :
  git w command = Ok buf ->
  runGit w command s = Done (strings.TrimRight buf newline) s.
Proof. intros H. unfold runGit. rewrite H. reflexivity. Qed.

Lemma Fatal_runGit w command : Fatal (runGit w command).
Proof. unfold runGit. destruct (git w command); auto with fatal. Qed.
#[export] Hint Resolve Fatal_runGit : fatal.

Lemma targetRevision_done w a s rev s' :
  targetRevision w a s = Done rev s' -> s' = s.
Proof. intros H. apply runGit_done in H. tauto. Qed.

Lemma Fatal_targetRevision w a : Fatal (targetRevision w a).
Proof. apply Fatal_runGit. Qed.

Lemma remoteIdentity_done w s id s' :
  remoteIdentity w s = Done id s' -> s' = s.
Proof.
  unfold remoteIdentity. intros H.
  apply bind_done in H as (raw & s1 & Hg & H).
  apply runGit_done in Hg as [-> _].
  destruct (normalizeURL raw); [|discriminate].
  destruct (_ <? _)%nat; [discriminate|]. inversion H. reflexivity.
Qed.

Lemma Fatal_remoteIdentity w : Fatal (remoteIdentity w).
Proof.
  unfold remoteIdentity. apply Fatal_bind; auto with fatal.
  intros raw. destruct (normalizeURL raw); auto with fatal.
  destruct (_ <? _)%nat; auto with fatal.
Qed.

Lemma retrieveAPIToken_done w u s token s' :
  retrieveAPIToken w u s = Done token s' -> s' = s.
Proof.
  unfold retrieveAPIToken. intros H.
  destruct (String.eqb _ ""); [|inversion H; reflexivity].
  apply runGit_done in H. tauto.
Qed.

Lemma Fatal_retrieveAPIToken w u : Fatal (retrieveAPIToken w u).
Proof.
  unfold retrieveAPIToken. destruct (String.eqb _ ""); auto with fatal.
Qed.

Lemma fetchStatuses_done w u token user repo rev s statuses s' :
  fetchStatuses w u token user repo rev s = Done statuses s' ->
  exists request,
    listStatuses w request = Ok statuses /\ rq_ref request = rev
    /\ rq_token request = token
    /\ s' = withRequest s request.
Proof.
  unfold fetchStatuses. intros H.
  apply bind_done in H as (base & s1 & Hb & H).
  assert (s1 = s) as ->.
  { destruct (negb _); [|inversion Hb; reflexivity].
    destruct (url.Parse _); [inversion Hb; reflexivity | discriminate]. }
  match type of H with
  | context [listStatuses w ?r] =>
      exists r; destruct (listStatuses w r) eqn:E; [|discriminate]
  end.
  inversion H. subst. auto.
Qed.

Lemma Fatal_fetchStatuses w u token user repo rev :
  Fatal (fetchStatuses w u token user repo rev).
Proof.
  unfold fetchStatuses. apply Fatal_bind.
  - destruct (negb _); auto with fatal.
    destruct (url.Parse _); auto with fatal.
  - intros base s c s' H.
    destruct (listStatuses w _); [discriminate|].
    inversion H. lia.
Qed.

Lemma observedEntry_done w statuses s entry s' :
  observedEntry w statuses s = Done entry s' ->
  s' = withTick s /\ firstState statuses = Some (Status entry)
  /\ LastModified entry = time.ToUnix (time.Now (clock w (ticks s))).
Proof.
  unfold observedEntry, bind, time_Now. intros H.
  destruct statuses as [|first rest].
  - inversion H. auto.
  - cbn [firstState]. destruct (State_ first); [|discriminate].
    inversion H. auto.
Qed.

Lemma Fatal_observedEntry w statuses : Fatal (observedEntry w statuses).
Proof.
  unfold observedEntry. apply Fatal_bind.
  - intros s c s' H. discriminate.
  - intros now. destruct statuses as [|first rest]; auto with fatal.
    destruct (State_ first); auto with fatal.
Qed.
#[export] Hint Resolve Fatal_targetRevision Fatal_remoteIdentity
  Fatal_retrieveAPIToken Fatal_fetchStatuses Fatal_observedEntry : fatal.

Lemma Fatal_fmt_Print o : Fatal (fmt_Print o).
Proof. intros s c s' H. discriminate. Qed.

Lemma Fatal_truncate path : Fatal (truncate path).
Proof. intros s c s' H. discriminate. Qed.

Lemma Fatal_encodeTo w path state : Fatal (encodeTo w path state).
Proof.
  unfold encodeTo. destruct (jsonEncode w state); auto with fatal.
  intros s c s' H. discriminate.
Qed.

Lemma Fatal_os_Create w path : Fatal (os_Create w path).
Proof.
  unfold os_Create. destruct (createError w path); auto with fatal.
  apply Fatal_bind; auto using Fatal_truncate with fatal.
Qed.
#[export] Hint Resolve Fatal_fmt_Print Fatal_truncate Fatal_encodeTo
  Fatal_os_Create : fatal.

Lemma encodeTo_done w path state s err s' :
  encodeTo w path state s = Done err s' ->
  (exists e, err = Some e /\ jsonEncode w state = Err e /\ s' = s)
  \/ (exists bytes, err = None /\ jsonEncode w state = Ok bytes
                    /\ s' = withFiles s (<[path := bytes]> (files s))).
Proof.
  unfold encodeTo. destruct (jsonEncode w state) as [bytes|e]; intros H.
  - inversion H. right. eauto.
  - inversion H. left. eauto.
Qed.

Lemma saveState_done w state s s' :
  V3.saveState w state s = Done tt s' ->
  exists buf bytes,
    git w ["rev-parse"; "--show-toplevel"] = Ok buf
    /\ jsonEncode w state = Ok bytes
    /\ s' = withFiles s
              (<[cacheFilePath (strings.TrimRight buf newline) := bytes]>
                 (files s)).
Proof.
  unfold V3.saveState. intros H.
  apply bind_done in H as (top & s1 & Hg & H).
  apply runGit_done in Hg as [-> (buf & Hbuf & ->)].
  apply bind_done in H as (err & s2 & Hc & H).
  unfold os_Create in Hc.
  destruct (createError w _); [inversion Hc; subst; discriminate|].
  apply bind_done in Hc as ([] & s3 & Ht & Hc).
  inversion Ht; subst. inversion Hc; subst. clear Ht Hc.
  apply bind_done in H as ([] & s3 & Hd & H).
  inversion Hd; subst s3; clear Hd.
  apply bind_done in H as (err & s4 & He & H).
  apply encodeTo_done in He
    as [(e & -> & _ & _) | (bytes & -> & Henc & ->)]; [discriminate|].
  inversion H; subst s'; clear H.
  exists buf, bytes. conjuncts; auto.
  unfold withFiles at 1 2. cbn [files ticks stdout stderr requests].
  rewrite insert_insert_eq. reflexivity.
Qed.

Lemma Fatal_saveState w state : Fatal (V3.saveState w state).
Proof.
  unfold V3.saveState.
  repeat (apply Fatal_bind; [auto with fatal | intros ?]).
  auto with fatal.
Qed.

Lemma storeCache_done w cache path s s' :
  Marks.storeCache w cache path s = Done tt s' ->
  exists bytes,
    jsonEncode w cache = Ok bytes
    /\ s' = withFiles s (<[path := bytes]> (files s)).
Proof.
  unfold Marks.storeCache. intros H.
  apply bind_done in H as ([] & s1 & Ht & H).
  inversion Ht; subst s1; clear Ht.
  apply bind_done in H as (err & s2 & He & H).
  apply encodeTo_done in He
    as [(e & -> & _ & _) | (bytes & -> & Henc & ->)]; [discriminate|].
  inversion H; subst s'; clear H.
  exists bytes. split; [assumption|].
  unfold withFiles at 1 2. cbn [files ticks stdout stderr requests].
  rewrite insert_insert_eq. reflexivity.
Qed.

Lemma Fatal_storeCache w cache path : Fatal (Marks.storeCache w cache path).
Proof.
  unfold Marks.storeCache.
  repeat (apply Fatal_bind; [auto with fatal | intros ?]).
  auto with fatal.
Qed.
#[export] Hint Resolve Fatal_saveState Fatal_storeCache : fatal.

Lemma legacy_printStatus_rendering status s :
  Marks.printStatus status s
  = Done tt (withStdout s (Marks.rendering status)).
Proof.
  unfold Marks.printStatus, Marks.rendering.
  destruct (String.eqb status "failure"); [reflexivity|].
  destruct (String.eqb status "pending"); [reflexivity|].
  destruct (String.eqb status "success"); reflexivity.
Qed.

Lemma Fatal_printStatus status : Fatal (V3.printStatus status).
Proof. intros s c s' H. discriminate. Qed.

Lemma Fatal_legacy_printStatus status : Fatal (Marks.printStatus status).
Proof.
  intros s c s' H. rewrite legacy_printStatus_rendering in H. discriminate.
Qed.
#[export] Hint Resolve Fatal_printStatus Fatal_legacy_printStatus : fatal.

(** ** The live lookup *)

(** What the three variants do between the identity and the write. *)
Lemma observed_then_printed w u token user repo rev s
    (print : string -> Prog unit) (render : string -> list Output)
    (store : revisionEntry -> Prog unit) s' :
  (forall status s0, print status s0 = Done tt (withStdout s0 (render status))) ->
  (statuses <- fetchStatuses w u token user repo rev ;;
   thisStatus <- observedEntry w statuses ;;
   print (Status thisStatus) ;;;
   store thisStatus) s = Done tt s' ->
  exists request statuses entry,
    listStatuses w request = Ok statuses
    /\ rq_ref request = rev
    /\ firstState statuses = Some (Status entry)
    /\ store entry
         (withStdout (withTick (withRequest s request)) (render (Status entry)))
       = Done tt s'.
Proof.
  intros Hprint H.
  apply bind_done in H as (statuses & s1 & Hf & H).
  apply fetchStatuses_done in Hf as (request & Hl & Hr & _ & ->).
  apply bind_done in H as (entry & s2 & Ho & H).
  apply observedEntry_done in Ho as (-> & Hfirst & _).
  apply bind_done in H as ([] & s3 & Hp & H).
  rewrite Hprint in Hp. inversion Hp; subst s3; clear Hp.
  exists request, statuses, entry. auto.
Qed.

Lemma lookup_refreshes w rev loaded s s' :
  V3.lookup w rev loaded s = Done tt s' ->
  exists buf,
    git w ["rev-parse"; "--show-toplevel"] = Ok buf
    /\ Refreshed w V3.rendering rev loaded
         (cacheFilePath (strings.TrimRight buf newline)) s s'.
Proof.
  unfold V3.lookup. intros H.
  apply bind_done in H as ([[u user] repo] & s1 & Hi & H).
  apply remoteIdentity_done in Hi as ->.
  apply bind_done in H as (token & s1 & Ht & H).
  apply retrieveAPIToken_done in Ht as ->.
  apply (observed_then_printed _ _ _ _ _ _ _ _ V3.rendering) in H
    as (request & statuses & entry & Hl & Hr & Hfirst & H);
    [|reflexivity].
  apply saveState_done in H as (buf & bytes & Hg & He & ->).
  exists buf. split; [assumption|].
  exists request, statuses, entry, bytes. conjuncts; auto.
Qed.

Lemma Fatal_lookup w rev loaded : Fatal (V3.lookup w rev loaded).
Proof.
  unfold V3.lookup.
  apply Fatal_bind; [auto with fatal | intros [[u user] repo]].
  repeat (apply Fatal_bind; [auto with fatal | intros ?]).
  auto with fatal.
Qed.

Lemma legacy_lookup_refreshes w rev cache path s s' :
  V2.lookup w rev cache path s = Done tt s'
  \/ V1.lookup w rev cache path s = Done tt s' ->
  Refreshed w Marks.rendering rev cache path s s'.
Proof.
  intros [H | H].
  - unfold V2.lookup in H.
    apply bind_done in H as ([[u user] repo] & s1 & Hi & H).
    apply remoteIdentity_done in Hi as ->.
    apply bind_done in H as (token & s1 & Ht & H).
    apply retrieveAPIToken_done in Ht as ->.
    apply (observed_then_printed _ _ _ _ _ _ _ _ Marks.rendering) in H
      as (request & statuses & entry & Hl & Hr & Hfirst & H);
      [|apply legacy_printStatus_rendering].
    apply storeCache_done in H as (bytes & He & ->).
    exists request, statuses, entry, bytes. conjuncts; auto.
  - unfold V1.lookup in H.
    apply bind_done in H as ([[u user] repo] & s1 & Hi & H).
    apply remoteIdentity_done in Hi as ->.
    apply bind_done in H as (token & s1 & Ht & H).
    apply runGit_done in Ht as [-> _].
    apply (observed_then_printed _ _ _ _ _ _ _ _ Marks.rendering) in H
      as (request & statuses & entry & Hl & Hr & Hfirst & H);
      [|apply legacy_printStatus_rendering].
    apply storeCache_done in H as (bytes & He & ->).
    exists request, statuses, entry, bytes. conjuncts; auto.
Qed.

Lemma Fatal_legacy_lookup w rev cache path :
  Fatal (V2.lookup w rev cache path) /\ Fatal (V1.lookup w rev cache path).
Proof.
  split.
  - unfold V2.lookup.
    apply Fatal_bind; [auto with fatal | intros [[u user] repo]].
    repeat (apply Fatal_bind; [auto with fatal | intros ?]).
    auto with fatal.
  - unfold V1.lookup.
    apply Fatal_bind; [auto with fatal | intros [[u user] repo]].
    repeat (apply Fatal_bind; [auto with fatal | intros ?]).
    auto with fatal.
Qed.

(** A refresh seen from an earlier state that differs in the clock, or in
    a cache file that was created empty. *)
Lemma Refreshed_from w render rev loaded path s0 s s' :
  Refreshed w render rev loaded path s s' ->
  requests s = requests s0 -> stdout s = stdout s0 ->
  files s = files s0 \/ files s = <[path := ""]> (files s0) ->
  Refreshed w render rev loaded path s0 s'.
Proof.
  intros (request & statuses & entry & bytes
          & Hl & Hr & Hq & Hf & Ho & He & Hfiles) Hrq Hout Hfs.
  exists request, statuses, entry, bytes. conjuncts; auto.
  - rewrite Hq, Hrq. reflexivity.
  - rewrite Ho, Hout. reflexivity.
  - rewrite Hfiles. destruct Hfs as [-> | ->]; [reflexivity|].
    apply insert_insert_eq.
Qed.

(** ** Loading *)

Lemma restoreState_done w s state s' :
  V3.restoreState w s = Done state s' -> s' = s.
Proof.
  unfold V3.restoreState. intros H.
  apply bind_done in H as (top & s1 & Hg & H).
  apply runGit_done in Hg as [-> _].
  destruct (os_Open w _ s); inversion H; reflexivity.
Qed.

Lemma Fatal_restoreState w : Fatal (V3.restoreState w).
Proof.
  unfold V3.restoreState. apply Fatal_bind; [auto with fatal|].
  intros top s c s' H. destruct (os_Open w _ s); try discriminate.
  exact (Fatal_die _ _ _ _ H).
Qed.

Lemma restoreCache_done w s cache path s1 :
  Marks.restoreCache w s = Done (cache, path) s1 ->
  exists buf,
    git w ["rev-parse"; "--show-toplevel"] = Ok buf
    /\ path = cacheFilePath (strings.TrimRight buf newline)
    /\ requests s1 = requests s /\ stdout s1 = stdout s
    /\ stderr s1 = stderr s /\ ticks s1 = ticks s
    /\ (files s1 = files s \/ files s1 = <[path := ""]> (files s)).
Proof.
  unfold Marks.restoreCache. intros H.
  apply bind_done in H as (top & s0 & Hg & H).
  apply runGit_done in Hg as [-> (buf & Hbuf & ->)].
  apply bind_done in H as (opened & s2 & Ho & H).
  exists buf. split; [assumption|].
  destruct opened as [content|err]; [|discriminate].
  inversion H; subst; clear H.
  split; [reflexivity|].
  unfold os_OpenFile_create in Ho.
  destruct (createError w _); [discriminate|].
  destruct (files s !! _); inversion Ho; subst; cbn; auto 10.
Qed.

Lemma Fatal_restoreCache w : Fatal (Marks.restoreCache w).
Proof.
  unfold Marks.restoreCache. apply Fatal_bind; [auto with fatal|].
  intros top. apply Fatal_bind.
  - intros s c s' H. unfold os_OpenFile_create in H.
    destruct (createError w _); [discriminate|].
    destruct (files s !! _); discriminate.
  - intros [content|err]; auto with fatal.
Qed.
#[export] Hint Resolve Fatal_restoreState Fatal_restoreCache Fatal_lookup
  : fatal.

Lemma fresh_done w entry s ok s' :
  Marks.fresh w entry s = Done ok s' ->
  files s' = files s /\ requests s' = requests s /\ stdout s' = stdout s
  /\ stderr s' = stderr s.
Proof.
  unfold Marks.fresh. destruct (_ =? -1); intros H.
  - inversion H. auto.
  - unfold bind, time_Now in H. inversion H. auto.
Qed.

Lemma Fatal_fresh w entry : Fatal (Marks.fresh w entry).
Proof.
  unfold Marks.fresh. destruct (_ =? -1); auto with fatal.
  intros s c s' H. discriminate.
Qed.
#[export] Hint Resolve Fatal_fresh : fatal.

(** ** Settling [*useCache] *)

Lemma useCache_frame w fl entry s use s' :
  V3.useCache w fl entry s = Done use s'
  \/ V2.useCache w fl entry s = Done use s'
  \/ V1.useCache w fl entry s = Done use s' ->
  files s' = files s /\ requests s' = requests s /\ stdout s' = stdout s
  /\ stderr s' = stderr s.
Proof.
  intros [H | [H | H]].
  - unfold V3.useCache in H.
    destruct (update fl); [inversion H; auto|].
    destruct (_ =? V3.forever); [inversion H; auto|].
    unfold bind, time_Now in H.
    destruct (time.Before _ _); inversion H; auto.
  - unfold V2.useCache in H.
    destruct (update fl); [inversion H; auto|].
    apply bind_done in H as (ok & s1 & Hf & H).
    apply fresh_done in Hf. destruct ok; inversion H; subst; exact Hf.
  - unfold V1.useCache in H.
    apply bind_done in H as (ok & s1 & Hf & H).
    apply fresh_done in Hf. inversion H; subst; exact Hf.
Qed.

(** With [--update] the flag is cleared, whatever the entry and the time. *)
Lemma useCache_update w fl entry s :
  update fl = true ->
  V3.useCache w fl entry s = Done false s
  /\ V2.useCache w fl entry s = Done false s
  /\ exists s', V1.useCache w fl entry s = Done false s'.
Proof.
  intros Hu. conjuncts.
  - unfold V3.useCache. rewrite Hu. reflexivity.
  - unfold V2.useCache. rewrite Hu. reflexivity.
  - unfold V1.useCache, bind. rewrite Hu.
    destruct (Marks.fresh w entry s) as [ok s1|c s1] eqn:E; [eauto|].
    exfalso. unfold Marks.fresh in E.
    destruct (_ =? -1); [discriminate|]. discriminate.
Qed.

(** ** Returning from [main]

    The cached mark ends the process by [os.Exit(0)]; a run that returns
    from [main] has made the live lookup. *)

Lemma main_done_V3 w fl s s' :
  V3.main w fl s = Done tt s' ->
  LiveLookup w V3.rendering fl (V3.restoreState w) s (Done tt s').
Proof.
  unfold V3.main. intros E.
  apply bind_done in E as (rev & s1 & Hr & E).
  pose proof (targetRevision_done _ _ _ _ _ Hr) as ->.
  apply bind_done in E as (loaded & s2 & Hl & E).
  pose proof (restoreState_done _ _ _ _ Hl) as ->.
  apply bind_done in E as (use & s3 & Hc & E).
  destruct use; [discriminate|].
  pose proof (useCache_frame w fl _ s false s3 (or_introl Hc))
    as (Hf & Hq & Ho & _).
  apply lookup_refreshes in E as (buf & Hg & E).
  exists rev, loaded, s, buf. conjuncts; auto.
  eapply Refreshed_from; eauto.
Qed.

Lemma main_done_V2 w fl s s' :
  V2.main w fl s = Done tt s' ->
  LiveLookup w Marks.rendering fl (restoredCache w) s (Done tt s').
Proof.
  unfold V2.main. intros E.
  apply bind_done in E as (rev & s1 & Hr & E).
  pose proof (targetRevision_done _ _ _ _ _ Hr) as ->.
  apply bind_done in E as ([cache path] & s2 & Hl & E).
  apply bind_done in E as (use & s3 & Hc & E).
  destruct use.
  { apply bind_done in E as (? & ? & _ & E). discriminate. }
  pose proof (useCache_frame w fl _ s2 false s3 (or_intror (or_introl Hc)))
    as (Hf3 & Hq3 & Ho3 & _).
  pose proof (restoreCache_done _ _ _ _ _ Hl)
    as (buf & Hg & -> & Hq & Ho & _ & _ & Hf).
  exists rev, cache, s2, buf. conjuncts; auto.
  - unfold restoredCache, bind. rewrite Hl. reflexivity.
  - eapply Refreshed_from.
    + apply legacy_lookup_refreshes. left. exact E.
    + congruence.
    + congruence.
    + rewrite Hf3. exact Hf.
Qed.

Lemma main_done_V1 w fl s s' :
  V1.main w fl s = Done tt s' ->
  LiveLookup w Marks.rendering fl (restoredCache w) s (Done tt s').
Proof.
  unfold V1.main. intros E.
  apply bind_done in E as (rev & s1 & Hr & E).
  pose proof (targetRevision_done _ _ _ _ _ Hr) as ->.
  apply bind_done in E as ([cache path] & s2 & Hl & E).
  apply bind_done in E as (use & s3 & Hc & E).
  destruct use.
  { apply bind_done in E as (? & ? & _ & E). discriminate. }
  pose proof (useCache_frame w fl _ s2 false s3 (or_intror (or_intror Hc)))
    as (Hf3 & Hq3 & Ho3 & _).
  pose proof (restoreCache_done _ _ _ _ _ Hl)
    as (buf & Hg & -> & Hq & Ho & _ & _ & Hf).
  exists rev, cache, s2, buf. conjuncts; auto.
  - unfold restoredCache, bind. rewrite Hl. reflexivity.
  - eapply Refreshed_from.
    + apply legacy_lookup_refreshes. right. exact E.
    + congruence.
    + congruence.
    + rewrite Hf3. exact Hf.
Qed.

(** ** [--update] *)

(** With [--update] the variants go from loading to the live lookup; the
    first one reads the clock on the way. *)
Lemma main_update w fl s :
  update fl = true ->
  V3.main w fl s
  = (rev <- targetRevision w (args fl) ;;
     state <- V3.restoreState w ;;
     V3.lookup w rev state) s.
Proof.
  intros Hu. unfold V3.main, V3.useCache. rewrite Hu. reflexivity.
Qed.

Lemma legacy_main_update w fl s :
  update fl = true ->
  V2.main w fl s
  = (rev <- targetRevision w (args fl) ;;
     restored <- Marks.restoreCache w ;;
     V2.lookup w rev (fst restored) (snd restored)) s
  /\ V1.main w fl s
    = (rev <- targetRevision w (args fl) ;;
       restored <- Marks.restoreCache w ;;
       Marks.fresh w (lookupRevision (fst restored) rev) ;;;
       V1.lookup w rev (fst restored) (snd restored)) s.
Proof.
  intros Hu. split.
  - unfold V2.main, bind.
    destruct (targetRevision w (args fl) s) as [rev s0|]; [|reflexivity].
    destruct (Marks.restoreCache w s0) as [[cache path] s1|]; [|reflexivity].
    unfold V2.useCache. rewrite Hu. reflexivity.
  - unfold V1.main, bind.
    destruct (targetRevision w (args fl) s) as [rev s0|]; [|reflexivity].
    destruct (Marks.restoreCache w s0) as [[cache path] s1|]; [|reflexivity].
    unfold V1.useCache, bind. rewrite Hu.
    destruct (Marks.fresh w _ s1) as [ok s2|]; reflexivity.
Qed.

Lemma update_lookup w fl s :
  update fl = true ->
  LiveLookup w V3.rendering fl (V3.restoreState w) s (V3.main w fl s)
  /\ LiveLookup w Marks.rendering fl (restoredCache w) s (V2.main w fl s)
  /\ LiveLookup w Marks.rendering fl (restoredCache w) s (V1.main w fl s).
Proof.
  intros Hu. conjuncts.
  - destruct (V3.main w fl s) as [[] s'|c s'] eqn:E.
    + apply main_done_V3. exact E.
    + rewrite (main_update w fl s Hu) in E. revert E.
      apply Fatal_bind; [auto with fatal | intros rev].
      apply Fatal_bind; auto with fatal.
  - destruct (V2.main w fl s) as [[] s'|c s'] eqn:E.
    + apply main_done_V2. exact E.
    + rewrite (proj1 (legacy_main_update w fl s Hu)) in E. revert E.
      apply Fatal_bind; [auto with fatal | intros rev].
      apply Fatal_bind; [auto with fatal | intros restored].
      apply Fatal_legacy_lookup.
  - destruct (V1.main w fl s) as [[] s'|c s'] eqn:E.
    + apply main_done_V1. exact E.
    + rewrite (proj2 (legacy_main_update w fl s Hu)) in E. revert E.
      apply Fatal_bind; [auto with fatal | intros rev].
      apply Fatal_bind; [auto with fatal | intros restored].
      apply Fatal_bind; [auto with fatal | intros ok].
      apply Fatal_legacy_lookup.
Qed.

(** ** The map of revisions *)

Lemma put_same loaded rev entry :
  revisionsOf (putRevision loaded rev entry) !! rev = Some entry
  /\ lookupRevision (putRevision loaded rev entry) rev = entry.
Proof.
  unfold lookupRevision, putRevision, revisionsOf. cbn [Revisions].
  rewrite lookup_insert_eq. auto.
Qed.

Lemma put_other loaded rev entry other :
  other <> rev ->
  revisionsOf (putRevision loaded rev entry) !! other
  = revisionsOf loaded !! other
  /\ lookupRevision (putRevision loaded rev entry) other
    = lookupRevision loaded other.
Proof.
  intros Hne. unfold lookupRevision, putRevision, revisionsOf.
  cbn [Revisions]. rewrite lookup_insert_ne by congruence. auto.
Qed.


Lemma LiveLookup_one_entry w render fl load s s' :
  LiveLookup w render fl load s (Done tt s') ->
  OneEntryReplaced w fl load s s'.
Proof.
  intros (rev & loaded & s1 & buf & Hr & Hl & Hg
          & request & statuses & entry & bytes
          & _ & _ & _ & _ & _ & He & Hf).
  exists rev, loaded, s1, buf, entry, bytes. conjuncts; auto.
  - apply put_same.
  - intros other Hne. apply put_other. exact Hne.
Qed.

(** C9: a run of [main] that returns has made the live lookup, and the
    state it wrote to the cache file is the loaded state with the entry of
    the resolved revision put in: that key holds the new entry, and every
    other key holds what it held in the loaded state. *)
Theorem lookup_replaces_one_entry w fl s s' :
  V3.main w fl s = Done tt s' ->
  OneEntryReplaced w fl (V3.restoreState w) s s'.
Proof.
  intros H. eapply LiveLookup_one_entry. apply main_done_V3. exact H.
Qed.


(** A run over a cache file that holds a stale entry for the revision and
    an entry for another revision: the first is replaced, the second is
    written back as it was loaded. *)
Lemma lookup_replaces_one_entry_witness :
  V3.restoreState Sample.faithful Sample.seasoned
  = Done Sample.twoRevisions Sample.seasoned
  /\ revisionsOf Sample.twoRevisions !! "def456"
     = Some (mkEntry "failure" 900)
  /\ OneEntryReplaced Sample.faithful (mkFlags false false [])
       (V3.restoreState Sample.faithful) Sample.seasoned
       (finalState
          (V3.main Sample.faithful (mkFlags false false [])
             Sample.seasoned)).
Proof.
  split; [vm_compute; reflexivity|]. split; [vm_compute; reflexivity|].
  apply (lookup_replaces_one_entry Sample.faithful (mkFlags false false [])
           Sample.seasoned).
  vm_compute. reflexivity.
Defined.

(** The same in the first two variants. *)
Lemma legacy_one_entry_replaced w fl s s' :
  V2.main w fl s = Done tt s' \/ V1.main w fl s = Done tt s' ->
  OneEntryReplaced w fl (restoredCache w) s s'.
Proof.
  intros [H | H]; eapply LiveLookup_one_entry.
  - apply main_done_V2. exact H.
  - apply main_done_V1. exact H.
Qed.



(** ** The path of a normalized URL *)

Ltac refute H := lazy beta iota delta [res_bind] in H; discriminate H.


Lemma prefix_split (p s : string) :
  String.prefix p s = true -> s = p ++ strings.drop (String.length p) s.
Proof.
  revert s. induction p as [|a p IH]; intros s H.
  - reflexivity.
  - destruct s as [|b s]; [discriminate|].
    cbn in H. destruct (ascii_dec a b) as [->|]; [|discriminate].
    change (String b s
            = String b (p ++ strings.drop (String.length p) s)).
    f_equal. apply IH. exact H.
Qed.


Lemma https_app (y : string) : "https://" ++ y = https y.
Proof. reflexivity. Qed.

Lemma HasPrefix_slash (t : string) :
  strings.HasPrefix (String "/" t) "/" = true.
Proof. destruct t; reflexivity. Qed.

Lemma unescape_path_slash (t p : string) :
  url.unescape url.encodePath (String "/" t) = Ok p ->
  strings.HasPrefix p "/" = true.
Proof.
  cbn. destruct (url.unescape url.encodePath t) as [t'|]; cbn; intros H;
    inversion H.
  apply HasPrefix_slash.
Qed.

Lemma setPath_shape (u u' : url.URL) (rest : string) :
  url.setPath u rest = Ok u' ->
  rest = "" \/ strings.HasPrefix rest "/" = true ->
  url.Scheme u' = url.Scheme u
  /\ (url.Path u' = "" \/ strings.HasPrefix (url.Path u') "/" = true).
Proof.
  unfold url.setPath. intros H Hrest.
  destruct (url.unescape url.encodePath rest) as [path|e] eqn:E;
    [|discriminate].
  cbn in H. inversion H; subst u'; clear H. cbn. split; [reflexivity|].
  destruct Hrest as [-> | Hp].
  - cbn in E. inversion E. auto.
  - right. apply prefix_split in Hp. cbn in Hp. rewrite Hp in E.
    eapply unescape_path_slash. exact E.
Qed.

(** Apart from the text ["*"], a parsed URL has the scheme that [getScheme]
    found, in lower case, and with a scheme its path is empty or rooted. *)
Lemma parse_shape (x : string) (u : url.URL) :
  url.parse x = Ok u ->
  x <> "*" ->
  exists sr,
    url.getScheme x = Ok sr
    /\ url.Scheme u = url.ToLower (fst sr)
    /\ (url.Scheme u <> "" ->
        url.Path u = "" \/ strings.HasPrefix (url.Path u) "/" = true).
Proof.
  unfold url.parse. intros H Hstar.
  destruct (url.stringContainsCTLByte x); [refute H|].
  destruct (String.eqb_spec x "*") as [->|_]; [congruence|].
  destruct (url.getScheme x) as [sr|e]; [|refute H].
  exists sr. split; [reflexivity|]. cbn [res_bind] in H.
  set (scheme := url.ToLower (fst sr)) in *.
  destruct (if _ && _ then _ else _) as [[rest force] query].
  destruct (negb (strings.HasPrefix rest "/") && negb (String.eqb scheme ""))
    eqn:Hopaque.
  { inversion H. cbn. auto. }
  destruct (negb (strings.HasPrefix rest "/") && strings.Contains _ _);
    [refute H|].
  destruct ((negb (String.eqb scheme "") || _) && _).
  - destruct (strings.Cut (strings.drop 2 rest) "/")
      as [[authority tail] found].
    destruct (url.parseAuthority authority) as [uh|e]; [|refute H].
    cbn [res_bind] in H.
    apply setPath_shape in H as [Hs Hp].
    + cbn in Hs. auto.
    + destruct found; auto using HasPrefix_slash.
  - destruct (strings.HasPrefix rest "/") eqn:Hrest.
    + apply setPath_shape in H as [Hs Hp]; [|auto]. cbn in Hs. auto.
    + cbn in Hopaque. apply negb_false_iff in Hopaque.
      apply String.eqb_eq in Hopaque.
      unfold url.setPath in H.
      destruct (url.unescape url.encodePath rest); [|refute H].
      cbn in H. inversion H. cbn. split; [reflexivity|].
      intros Hne. congruence.
Qed.

Lemma setFragment_shape (u u' : url.URL) (f : string) :
  url.setFragment u f = Ok u' ->
  url.Scheme u' = url.Scheme u /\ url.Path u' = url.Path u.
Proof.
  unfold url.setFragment.
  destruct (url.unescape url.encodeFragment f); [|discriminate].
  cbn. intros H. inversion H. cbn. auto.
Qed.

Lemma Cut_https (x : string) :
  strings.Cut (https x) "#"
  = let '(b, a, f) := strings.Cut x "#" in (https b, a, f).
Proof.
  unfold https. cbn. destruct (strings.Cut x "#") as [[b a] f]. reflexivity.
Qed.

Lemma Parse_https (x : string) (u : url.URL) :
  url.Parse (https x) = Ok u ->
  url.Scheme u = "https"
  /\ (url.Path u = "" \/ strings.HasPrefix (url.Path u) "/" = true).
Proof.
  unfold url.Parse. rewrite Cut_https.
  destruct (strings.Cut x "#") as [[b frag] found].
  destruct (url.parse (https b)) as [parsed|e] eqn:E; [|discriminate].
  apply parse_shape in E as (sr & Hg & Hs & Hp); [|discriminate].
  assert (url.Scheme parsed = "https") as Hhttps.
  { rewrite Hs. cbn in Hg. inversion Hg. reflexivity. }
  assert (url.Path parsed = "" \/ strings.HasPrefix (url.Path parsed) "/" = true)
    as Hpath.
  { apply Hp. rewrite Hhttps. discriminate. }
  destruct (String.eqb frag "").
  - intros H. inversion H; subst u. auto.
  - destruct (url.setFragment parsed frag) as [withFrag|e] eqn:F;
      [|discriminate].
    intros H. inversion H; subst u.
    apply setFragment_shape in F as [-> ->]. auto.
Qed.

Lemma TrimSuffix_https (y : string) :
  exists y', strings.TrimSuffix (https y) ".git" = https y'.
Proof.
  destruct y as [|a [|b [|c [|d y]]]];
    try (eexists; cbn; reflexivity).
  unfold strings.TrimSuffix.
  destruct (strings.HasSuffix _ _).
  - eexists. unfold https. cbn. reflexivity.
  - eexists. reflexivity.
Qed.

(** What [normalizeURL] hands to [url.Parse] starts with ["https://"]. *)
Lemma normalizeURL_https (raw : string) :
  exists y, normalizeURL raw = url.Parse (https y).
Proof.
  unfold normalizeURL.
  set (s1 := reScheme_ReplaceAllLiteralString raw "https://").
  destruct (strings.HasPrefix s1 "https://") eqn:Hp; cbn [negb].
  - apply prefix_split in Hp. rewrite Hp, https_app.
    destruct (TrimSuffix_https (strings.drop (String.length "https://") s1))
      as [y' ->].
    eauto.
  - rewrite https_app.
    destruct (TrimSuffix_https (strings.Replace1 s1 ":" "/")) as [y' ->].
    eauto.
Qed.

Lemma normalizeURL_shape (raw : string) (u : url.URL) :
  normalizeURL raw = Ok u ->
  url.Scheme u = "https"
  /\ (url.Path u = "" \/ strings.HasPrefix (url.Path u) "/" = true).
Proof.
  destruct (normalizeURL_https raw) as [y ->]. apply Parse_https.
Qed.


(** ** Remote identity *)

Lemma rooted (p : string) :
  strings.HasPrefix p "/" = true -> exists t, p = String "/" t.
Proof.
  destruct p as [|a t]; [discriminate|].
  unfold strings.HasPrefix.
  change (String.prefix "/" (String a t))
    with (if ascii_dec "/" a then String.prefix "" t else false).
  destruct (ascii_dec "/" a) as [<-|]; [eauto | discriminate].
Qed.

Lemma rooted_fields (p : string) :
  p = "" \/ strings.HasPrefix p "/" = true ->
  (2 <= length (nonEmptySegments p))%nat ->
  (3 <= length (strings.Split p "/"))%nat.
Proof.
  intros [-> | Hp] Hseg.
  - vm_compute in Hseg. lia.
  - apply rooted in Hp as [t ->]. revert Hseg.
    unfold nonEmptySegments, strings.Split. cbn [strings.splitFrom].
    pose proof (HasPrefix_slash t) as Hs. unfold strings.HasPrefix in Hs.
    rewrite Hs. cbn [String.length Nat.sub].
    rewrite filter_cons_False by (cbn; tauto).
    pose proof (length_filter (fun segment => negb (String.eqb segment ""))
                  (strings.splitFrom "/" 0 "" t)).
    cbn [length]. lia.
Qed.

Lemma remoteIdentity_eq w s buf :
  git w ["config"; "remote.origin.url"] = Ok buf ->
  remoteIdentity w s
  = match normalizeURL (strings.TrimRight buf newline) with
    | Err err => die ("Error while parsing URL: " ++ err) s
    | Ok remoteURL =>
        if (length (strings.Split (url.Path remoteURL) "/") <? 3)%nat
        then die ("Could not parse: " ++ quoted (url.String_ remoteURL)) s
        else Done (remoteURL,
                   nth 1 (strings.Split (url.Path remoteURL) "/") "",
                   nth 2 (strings.Split (url.Path remoteURL) "/") "") s
    end.
Proof.
  intros Hg. unfold remoteIdentity, bind.
  rewrite (runGit_ok w _ buf s Hg).
  destruct (normalizeURL _) as [u|err]; [|reflexivity].
  destruct (_ <? _)%nat; reflexivity.
Qed.

Lemma die_exits {A} (message : string) (s : State) :
  @die A message s
  = Exited 1 (withStderr s (message ++ String newline "")).
Proof. reflexivity. Qed.

(** C7 (amended): once git has named the remote URL, the remote identity
    fails, with status 1, exactly when the normalized text does not parse
    as a URL (the message carries the parser's error, which quotes that
    text) or when the path of the normalized URL, split at its slashes, has
    fewer than three fields (the message quotes the normalized URL);
    otherwise it succeeds with the second and the third field as owner and
    repository, empty or not.  In particular it succeeds whenever the path
    has two non-empty segments or more. *)
Theorem remoteIdentity_outcomes w s buf :
  git w ["config"; "remote.origin.url"] = Ok buf ->
  remoteIdentity w s
  = match normalizeURL (strings.TrimRight buf newline) with
    | Err err => die ("Error while parsing URL: " ++ err) s
    | Ok remoteURL =>
        if (length (strings.Split (url.Path remoteURL) "/") <? 3)%nat
        then die ("Could not parse: " ++ quoted (url.String_ remoteURL)) s
        else Done (remoteURL,
                   nth 1 (strings.Split (url.Path remoteURL) "/") "",
                   nth 2 (strings.Split (url.Path remoteURL) "/") "") s
    end
  /\ ((exists exitCode s', remoteIdentity w s = Exited exitCode s')
      <-> (exists err, normalizeURL (strings.TrimRight buf newline) = Err err)
          \/ (exists remoteURL,
                normalizeURL (strings.TrimRight buf newline) = Ok remoteURL
                /\ (length (strings.Split (url.Path remoteURL) "/") < 3)%nat))
  /\ (forall remoteURL,
        normalizeURL (strings.TrimRight buf newline) = Ok remoteURL ->
        (2 <= length (nonEmptySegments (url.Path remoteURL)))%nat ->
        exists owner repo, remoteIdentity w s = Done (remoteURL, owner, repo) s).
Proof.
  intros Hg. pose proof (remoteIdentity_eq w s buf Hg) as Heq.
  conjuncts.
  - exact Heq.
  - rewrite Heq. split.
    + intros (c & s' & H).
      destruct (normalizeURL _) as [u|err]; [|eauto].
      right. exists u. split; [reflexivity|].
      destruct (Nat.ltb_spec (length (strings.Split (url.Path u) "/")) 3);
        [assumption | discriminate].
    + intros [(err & ->) | (u & -> & Hlt)].
      * rewrite die_exits. eauto.
      * apply Nat.ltb_lt in Hlt. rewrite Hlt, die_exits. eauto.
  - intros u Hn Hseg. rewrite Heq, Hn.
    pose proof (normalizeURL_shape _ _ Hn) as [_ Hp].
    pose proof (rooted_fields _ Hp Hseg) as Hlen.
    apply Nat.ltb_ge in Hlen. rewrite Hlen. eauto.
Qed.


Lemma remoteIdentity_outcomes_witness :
  remoteIdentity Sample.ownerOnly Sample.start
  = Done (Sample.ownerOnlyURL, "owner", "") Sample.start
  /\ exists owner repo,
       remoteIdentity Sample.world Sample.start
       = Done (Sample.remoteURL, owner, repo) Sample.start.
Proof.
  split.
  - rewrite (proj1 (remoteIdentity_outcomes Sample.ownerOnly Sample.start
                      (Sample.line "https://github.com/owner/") eq_refl)).
    reflexivity.
  - apply (proj2 (proj2 (remoteIdentity_outcomes Sample.world Sample.start
                           (Sample.line "git@github.com:owner/repo.git")
                           eq_refl))).
    + reflexivity.
    + vm_compute. lia.
Defined.

(** C7 as stated fails: the path of [https://github.com/owner/] has one
    non-empty segment, and the remote identity is resolved all the same,
    with an empty repository name.  (Nor is it the raw text that has to
    parse: the SSH form does not, and is resolved.) *)
Lemma owner_only_remote_resolves :
  url.Parse "git@github.com:owner/repo.git"
  = Err (url.Error "parse" "git@github.com:owner/repo.git"
           "first path segment in URL cannot contain colon")
  /\ remoteIdentity Sample.world Sample.start
     = Done (Sample.remoteURL, "owner", "repo") Sample.start
  /\ normalizeURL "https://github.com/owner/" = Ok Sample.ownerOnlyURL
  /\ nonEmptySegments (url.Path Sample.ownerOnlyURL) = ["owner"]
  /\ git Sample.ownerOnly ["config"; "remote.origin.url"]
     = Ok (Sample.line "https://github.com/owner/")
  /\ remoteIdentity Sample.ownerOnly Sample.start
     = Done (Sample.ownerOnlyURL, "owner", "") Sample.start.
Proof. conjuncts; reflexivity. Qed.

(** C6: for [git@github.com:owner/repo.git] the scheme pattern finds no
    match, the first colon becomes a slash behind ["https://"], the suffix
    [.git] is cut off, and the result parses to host github.com with the
    path fields owner and repo, which [main] takes as the identity. *)
Theorem normalize_ssh_remote :
  reScheme_ReplaceAllLiteralString "git@github.com:owner/repo.git" "https://"
  = "git@github.com:owner/repo.git"
  /\ "https://" ++ strings.Replace1 "git@github.com:owner/repo.git" ":" "/"
     = "https://git@github.com/owner/repo.git"
  /\ strings.TrimSuffix "https://git@github.com/owner/repo.git" ".git"
     = "https://git@github.com/owner/repo"
  /\ normalizeURL "git@github.com:owner/repo.git" = Ok Sample.remoteURL
  /\ url.Host Sample.remoteURL = "github.com"
  /\ strings.Split (url.Path Sample.remoteURL) "/" = [""; "owner"; "repo"]
  /\ (forall w s buf,
        git w ["config"; "remote.origin.url"] = Ok buf ->
        strings.TrimRight buf newline = "git@github.com:owner/repo.git" ->
        remoteIdentity w s = Done (Sample.remoteURL, "owner", "repo") s).
Proof.
  conjuncts; try reflexivity.
  intros w s buf Hg Hraw.
  rewrite (remoteIdentity_eq w s buf Hg), Hraw. reflexivity.
Qed.

Lemma normalize_ssh_remote_witness :
  remoteIdentity Sample.world Sample.start
  = Done (Sample.remoteURL, "owner", "repo") Sample.start.
Proof.
  apply (proj2 (proj2 (proj2 (proj2 (proj2 (proj2 normalize_ssh_remote)))))
           Sample.world Sample.start
           (Sample.line "git@github.com:owner/repo.git"));
    reflexivity.
Defined.

(** ** Credentials *)

(** [FindMachine] against the first entry of that exact name: its result
    counts only when it is no ["default"] entry. *)
Lemma find_exact (mach : list netrc.Machine) (host : string)
    (def : option netrc.Machine) :
  (forall d, def = Some d -> netrc.Name d = "") ->
  match netrc.find mach host def with
  | Some m => if negb (String.eqb (netrc.Name m) "")
              then netrc.Password m else ""
  | None => ""
  end
  = match List.find
            (fun m => String.eqb (netrc.Name m) host
                      && negb (String.eqb (netrc.Name m) ""))
            mach with
    | Some m => netrc.Password m
    | None => ""
    end.
Proof.
  revert def. induction mach as [|m rest IH]; intros def Hdef.
  - cbn. destruct def as [d|]; [|reflexivity].
    rewrite (Hdef d eq_refl). reflexivity.
  - cbn [netrc.find List.find].
    destruct (String.eqb_spec (netrc.Name m) host) as [Hm|Hm].
    + destruct (String.eqb_spec (netrc.Name m) "") as [He|He];
        cbn [negb andb]; [|reflexivity].
      (* the host itself is empty: no entry can match exactly *)
      assert (host = "") as -> by congruence.
      clear. induction rest as [|m' rest IH]; [reflexivity|].
      cbn [List.find].
      destruct (String.eqb (netrc.Name m') ""); cbn [negb andb]; exact IH.
    + cbn [andb]. apply IH.
      intros d Hd. destruct (String.eqb_spec (netrc.Name m) "") as [He|He].
      * inversion Hd; subst. exact He.
      * apply Hdef. exact Hd.
Qed.

Lemma netrcToken_exact (w : World) (remoteURL : url.URL) :
  netrcToken w remoteURL = exactPassword w remoteURL.
Proof.
  unfold netrcToken, exactPassword, exactMachine.
  destruct (currentUser w) as [homeDir|]; [|reflexivity].
  destruct (stat w _); [|reflexivity].
  unfold netrc.FindMachine.
  destruct (netrcParse w _) as [mach|e]; [|reflexivity].
  fold (apiHostOf remoteURL).
  rewrite <- (find_exact mach (apiHostOf remoteURL) None) by discriminate.
  destruct (netrc.find mach (apiHostOf remoteURL) None); reflexivity.
Qed.

(** C5: [retrieveAPIToken] gives the first non-empty of: the environment
    variable, the password of the [.netrc] entry whose machine name is
    exactly the host (api.github.com for github.com; a ["default"] entry
    never counts), and the output of
    [git config --get-urlmatch github.token <normalized URL>].  The
    environment variable wins over a matching [.netrc] entry.  When the
    first two sources have no token the result is left to [runGit]: the
    trimmed output when git succeeds, and the end of the process with
    status 1 when git fails, as it does for a key that is not set; the
    empty string that the claim promises is returned only when git
    succeeds with empty output. *)
Theorem token_priority (w : World) (remoteURL : url.URL) (s : State) :
  retrieveAPIToken w remoteURL s
  = (if negb (String.eqb (getenv w "GITHUB_COMMIT_STATUS_MARK_TOKEN") "")
     then Done (getenv w "GITHUB_COMMIT_STATUS_MARK_TOKEN") s
     else if negb (String.eqb (exactPassword w remoteURL) "")
     then Done (exactPassword w remoteURL) s
     else runGit w ["config"; "--get-urlmatch"; "github.token";
                    url.String_ remoteURL] s)
  /\ (getenv w "GITHUB_COMMIT_STATUS_MARK_TOKEN" <> "" ->
      retrieveAPIToken w remoteURL s
      = Done (getenv w "GITHUB_COMMIT_STATUS_MARK_TOKEN") s)
  /\ (getenv w "GITHUB_COMMIT_STATUS_MARK_TOKEN" = "" ->
      exactPassword w remoteURL <> "" ->
      retrieveAPIToken w remoteURL s = Done (exactPassword w remoteURL) s)
  /\ (forall buf,
        getenv w "GITHUB_COMMIT_STATUS_MARK_TOKEN" = "" ->
        exactPassword w remoteURL = "" ->
        git w ["config"; "--get-urlmatch"; "github.token";
               url.String_ remoteURL] = Ok buf ->
        retrieveAPIToken w remoteURL s
        = Done (strings.TrimRight buf newline) s)
  /\ (forall err,
        getenv w "GITHUB_COMMIT_STATUS_MARK_TOKEN" = "" ->
        exactPassword w remoteURL = "" ->
        git w ["config"; "--get-urlmatch"; "github.token";
               url.String_ remoteURL] = Err err ->
        retrieveAPIToken w remoteURL s
        = Exited 1
            (withStderr s
               (("'git "
                 ++ strings.Join ["config"; "--get-urlmatch"; "github.token";
                                  url.String_ remoteURL] " "
                 ++ "' failed: " ++ err) ++ String newline ""))).
Proof.
  assert (retrieveAPIToken w remoteURL s
          = (if negb (String.eqb (getenv w "GITHUB_COMMIT_STATUS_MARK_TOKEN") "")
             then Done (getenv w "GITHUB_COMMIT_STATUS_MARK_TOKEN") s
             else if negb (String.eqb (exactPassword w remoteURL) "")
             then Done (exactPassword w remoteURL) s
             else runGit w ["config"; "--get-urlmatch"; "github.token";
                            url.String_ remoteURL] s)) as Heq.
  { unfold retrieveAPIToken. rewrite netrcToken_exact.
    destruct (String.eqb_spec (getenv w "GITHUB_COMMIT_STATUS_MARK_TOKEN") "")
      as [He|He]; cbn [negb].
    - destruct (String.eqb (exactPassword w remoteURL) ""); reflexivity.
    - apply String.eqb_neq in He. rewrite He. reflexivity. }
  conjuncts.
  - exact Heq.
  - intros He. rewrite Heq. apply String.eqb_neq in He. rewrite He.
    reflexivity.
  - intros He Hn. rewrite Heq, He. apply String.eqb_neq in Hn. rewrite Hn.
    reflexivity.
  - intros buf He Hn Hg. rewrite Heq, He, Hn. cbn [String.eqb negb].
    apply runGit_ok. exact Hg.
  - intros err He Hn Hg. rewrite Heq, He, Hn. cbn [String.eqb negb].
    unfold runGit. rewrite Hg. reflexivity.
Qed.

(** With the variable and a matching [.netrc] entry the variable wins; in a
    repository where no source has a token the process ends with status 1
    and git's failure on the diagnostic stream. *)
Lemma token_priority_witness :
  (exactPassword Sample.withEnv Sample.remoteURL = "netrc-token"
   /\ retrieveAPIToken Sample.withEnv Sample.remoteURL Sample.start
      = Done "env-token" Sample.start)
  /\ exactPassword Sample.anonymous Sample.remoteURL = ""
  /\ retrieveAPIToken Sample.anonymous Sample.remoteURL Sample.start
     = Exited 1
         (withStderr Sample.start
            (("'git config --get-urlmatch github.token "
              ++ "https://git@github.com/owner/repo' failed: exit status 1")
             ++ String newline "")).
Proof.
  split; [split; [reflexivity|]|split; [reflexivity|]].
  - apply (proj1 (proj2 (token_priority Sample.withEnv Sample.remoteURL
                           Sample.start))).
    discriminate.
  - rewrite (proj2 (proj2 (proj2 (proj2
               (token_priority Sample.anonymous Sample.remoteURL
                  Sample.start)))) "exit status 1");
      reflexivity.
Defined.

(** ** Loading the cache file *)

(** C2 as stated fails: the sample cache file cut short by a writer opens,
    the decoder reports an error, and loading returns the empty state in
    every variant instead of ending the process. *)
Lemma torn_cache_file_is_not_fatal :
  os_Open Sample.world Sample.path Sample.torn
  = Opened ("{" ++ quoted "Revisions" ++ ":{")
  /\ snd (jsonDecode Sample.world ("{" ++ quoted "Revisions" ++ ":{"))
     = Some "unexpected end of JSON input"
  /\ V3.restoreState Sample.world Sample.torn = Done zeroState Sample.torn
  /\ Marks.restoreCache Sample.world Sample.torn
     = Done (zeroState, Sample.path) Sample.torn.
Proof. conjuncts; reflexivity. Qed.

(** C2 (amended): with the top level named by git, [restoreState] returns
    the empty state when the cache file does not exist, ends the process
    with status 1 and the error on the diagnostic stream when the file
    cannot be opened for another reason, and otherwise returns what the
    decoder filled in; the decoder's error is dropped, so a file that is
    present but corrupt is not fatal. *)
Theorem restoreState_outcomes (w : World) (s : State) (buf : string) :
  git w ["rev-parse"; "--show-toplevel"] = Ok buf ->
  V3.restoreState w s
  = match os_Open w (cacheFilePath (strings.TrimRight buf newline)) s with
    | NotExist => Done zeroState s
    | OpenFailed err => die err s
    | Opened content => Done (fst (jsonDecode w content)) s
    end
  /\ (forall content err,
        os_Open w (cacheFilePath (strings.TrimRight buf newline)) s
        = Opened content ->
        snd (jsonDecode w content) = Some err ->
        V3.restoreState w s = Done (fst (jsonDecode w content)) s).
Proof.
  intros Hg.
  assert (V3.restoreState w s
          = match os_Open w (cacheFilePath (strings.TrimRight buf newline)) s
            with
            | NotExist => Done zeroState s
            | OpenFailed err => die err s
            | Opened content => Done (fst (jsonDecode w content)) s
            end) as Heq.
  { unfold V3.restoreState, bind. rewrite (runGit_ok w _ buf s Hg).
    destruct (os_Open w _ s); reflexivity. }
  split; [exact Heq|].
  intros content err Ho _. rewrite Heq, Ho. reflexivity.
Qed.

Lemma restoreState_outcomes_witness :
  V3.restoreState Sample.world Sample.torn = Done zeroState Sample.torn.
Proof.
  apply (proj2 (restoreState_outcomes Sample.world Sample.torn
                  (Sample.line "/repo") eq_refl)
           ("{" ++ quoted "Revisions" ++ ":{")
           "unexpected end of JSON input");
    reflexivity.
Defined.

(** The first two variants open the file for writing as well, and create
    it when it is missing. *)
Lemma restoreCache_outcomes (w : World) (s : State) (buf : string) :
  git w ["rev-parse"; "--show-toplevel"] = Ok buf ->
  Marks.restoreCache w s
  = match createError w (cacheFilePath (strings.TrimRight buf newline)) with
    | Some err => die err s
    | None =>
        match files s !! cacheFilePath (strings.TrimRight buf newline) with
        | Some content =>
            Done (fst (jsonDecode w content),
                  cacheFilePath (strings.TrimRight buf newline)) s
        | None =>
            Done (fst (jsonDecode w ""),
                  cacheFilePath (strings.TrimRight buf newline))
              (withFiles s
                 (<[cacheFilePath (strings.TrimRight buf newline) := ""]>
                    (files s)))
        end
    end.
Proof.
  intros Hg. unfold Marks.restoreCache, bind.
  rewrite (runGit_ok w _ buf s Hg). unfold os_OpenFile_create.
  destruct (createError w _); [reflexivity|].
  destruct (files s !! _); reflexivity.
Qed.

(** The cached mark in the first two variants: nothing is requested and
    nothing is written after the file was opened. *)
Lemma legacy_cached_mark_frame w fl s rev cache path s1 :
  update fl = false ->
  targetRevision w (args fl) s = Done rev s ->
  Marks.restoreCache w s = Done (cache, path) s1 ->
  cached fl = true
  \/ Marks.isValid (lookupRevision cache rev)
       (time.ToUnix (time.Now (clock w (ticks s)))) = true ->
  exists s2 s3,
    V2.main w fl s = Exited 0 s2 /\ V1.main w fl s = Exited 0 s3
    /\ stdout s2
       = (stdout s ++ Marks.rendering (Status (lookupRevision cache rev)))%list
    /\ stdout s3 = stdout s2
    /\ requests s2 = requests s /\ requests s3 = requests s
    /\ files s2 = files s1 /\ files s3 = files s1.
Proof.
  intros Hu Hr Hl Hhit.
  pose proof (restoreCache_done _ _ _ _ _ Hl)
    as (buf & Hg & -> & Hq & Ho & _ & Ht & Hf).
  assert (exists s', Marks.fresh w (lookupRevision cache rev) s1
                     = Done (Marks.isValid (lookupRevision cache rev)
                               (time.ToUnix (time.Now (clock w (ticks s))))) s'
                     /\ files s' = files s1 /\ requests s' = requests s1
                     /\ stdout s' = stdout s1) as (s' & Hfr & Hf' & Hq' & Ho').
  { unfold Marks.fresh, Marks.isValid.
    destruct (_ =? -1).
    - exists s1. auto.
    - exists (withTick s1). unfold bind, time_Now. rewrite Ht. cbn. auto. }
  set (ok := Marks.isValid _ _) in *.
  assert ((if ok then true else cached fl) = true) as Huse.
  { destruct Hhit as [-> | ->]; [destruct ok|]; reflexivity. }
  exists (withStdout s' (Marks.rendering (Status (lookupRevision cache rev)))),
         (withStdout s' (Marks.rendering (Status (lookupRevision cache rev)))).
  assert (forall k : bool -> Prog unit,
            bind (V2.useCache w fl (lookupRevision cache rev)) k s1
            = k true s'
            /\ bind (V1.useCache w fl (lookupRevision cache rev)) k s1
              = k true s') as Hk.
  { intros k. unfold V2.useCache, V1.useCache. rewrite Hu.
    unfold bind at 1 2 3 4. rewrite Hfr. unfold ret.
    destruct ok; cbn in Huse; rewrite ?Huse; auto. }
  conjuncts.
  - unfold V2.main.
    rewrite (bind_ret_Done _ _ _ _ _ Hr), (bind_ret_Done _ _ _ _ _ Hl).
    rewrite (proj1 (Hk _)).
    unfold bind. rewrite legacy_printStatus_rendering. reflexivity.
  - unfold V1.main.
    rewrite (bind_ret_Done _ _ _ _ _ Hr), (bind_ret_Done _ _ _ _ _ Hl).
    rewrite (proj2 (Hk _)).
    unfold bind. rewrite legacy_printStatus_rendering. reflexivity.
  - cbn. congruence.
  - reflexivity.
  - cbn. congruence.
  - cbn. congruence.
  - cbn. congruence.
  - cbn. congruence.
Qed.

(** ** A lookup that the environment answers *)

(** The steps of the lookup up to the write, in the three variants. *)
Lemma answered_fetch {A} w tokenOf rev request status s
    (print : string -> Prog unit) (render : string -> list Output)
    (store : revisionEntry -> Prog A) :
  Answers w tokenOf rev request status ->
  (forall st s0, print st s0 = Done tt (withStdout s0 (render st))) ->
  (id <- remoteIdentity w ;;
   let '(remoteURL, user, repo) := id in
   token <- tokenOf remoteURL ;;
   statuses <- fetchStatuses w remoteURL token user repo rev ;;
   thisStatus <- observedEntry w statuses ;;
   print (Status thisStatus) ;;;
   store thisStatus) s
  = store (mkEntry status (time.ToUnix (time.Now (clock w (ticks s)))))
      (withStdout (withTick (withRequest s request)) (render status)).
Proof.
  intros (buf & u & statuses & Hg & Hn & Hlen & Htok & Hreq & Hbase & Hl
          & Hfirst) Hprint.
  assert (remoteIdentity w s
          = Done (u, nth 1 (strings.Split (url.Path u) "/") "",
                  nth 2 (strings.Split (url.Path u) "/") "") s) as Hid.
  { rewrite (remoteIdentity_eq w s buf Hg), Hn.
    rewrite (proj2 (Nat.ltb_ge _ _) Hlen). reflexivity. }
  rewrite (bind_ret_Done _ _ _ _ _ Hid). cbv beta iota.
  rewrite (bind_ret_Done _ _ _ _ _ (Htok s)).
  assert (fetchStatuses w u (rq_token request)
            (nth 1 (strings.Split (url.Path u) "/") "")
            (nth 2 (strings.Split (url.Path u) "/") "") rev s
          = Done statuses (withRequest s request)) as Hfetch.
  { unfold fetchStatuses, bind.
    destruct (String.eqb (url.Host u) "github.com") eqn:Hhost;
      cbn [negb] in *.
    - cbn [ret]. rewrite <- Hbase, <- Hreq, Hl. reflexivity.
    - rewrite Hbase. cbn [ret]. rewrite <- Hreq, Hl. reflexivity. }
  rewrite (bind_ret_Done _ _ _ _ _ Hfetch).
  assert (observedEntry w statuses (withRequest s request)
          = Done (mkEntry status (time.ToUnix (time.Now (clock w (ticks s)))))
              (withTick (withRequest s request))) as Hobs.
  { unfold observedEntry, bind, time_Now. cbn [ticks withRequest].
    destruct statuses as [|first rest]; cbn [firstState] in Hfirst.
    - inversion Hfirst. reflexivity.
    - rewrite Hfirst. reflexivity. }
  rewrite (bind_ret_Done _ _ _ _ _ Hobs).
  rewrite (bind_ret_Done _ _ _ _ _ (Hprint _ _)). reflexivity.
Qed.

Lemma answered_saveState w state s buf bytes :
  git w ["rev-parse"; "--show-toplevel"] = Ok buf ->
  createError w (cacheFilePath (strings.TrimRight buf newline)) = None ->
  jsonEncode w state = Ok bytes ->
  V3.saveState w state s
  = Done tt
      (withFiles s
         (<[cacheFilePath (strings.TrimRight buf newline) := bytes]>
            (files s))).
Proof.
  intros Hg Hc He. unfold V3.saveState.
  rewrite (bind_ret_Done _ _ _ _ _ (runGit_ok w _ buf s Hg)).
  unfold os_Create, encodeTo. rewrite Hc, He.
  cbv beta iota delta [bind truncate ret dieIf withFiles files ticks stdout
                         stderr requests].
  rewrite insert_insert_eq. reflexivity.
Qed.

Lemma answered_storeCache w cache path s bytes :
  jsonEncode w cache = Ok bytes ->
  Marks.storeCache w cache path s
  = Done tt (withFiles s (<[path := bytes]> (files s))).
Proof.
  intros He. unfold Marks.storeCache, encodeTo. rewrite He.
  cbv beta iota delta [bind truncate ret dieIf withFiles files ticks stdout
                         stderr requests].
  rewrite insert_insert_eq. reflexivity.
Qed.

(** With [--update], an environment that answers makes each variant
    return from [main] in the state of a completed lookup. *)
Lemma update_runs w fl s rev :
  update fl = true ->
  targetRevision w (args fl) s = Done rev s ->
  (forall loaded request status buf bytes,
     V3.restoreState w s = Done loaded s ->
     Answers w (retrieveAPIToken w) rev request status ->
     git w ["rev-parse"; "--show-toplevel"] = Ok buf ->
     createError w (cacheFilePath (strings.TrimRight buf newline)) = None ->
     jsonEncode w
       (putRevision loaded rev
          (mkEntry status (time.ToUnix (time.Now (clock w (ticks s))))))
     = Ok bytes ->
     V3.main w fl s
     = Done tt
         (looked s (V3.rendering status) request
            (cacheFilePath (strings.TrimRight buf newline)) bytes))
  /\ (forall cache path s1 request status bytes,
        Marks.restoreCache w s = Done (cache, path) s1 ->
        Answers w (retrieveAPIToken w) rev request status ->
        jsonEncode w
          (putRevision cache rev
             (mkEntry status (time.ToUnix (time.Now (clock w (ticks s1))))))
        = Ok bytes ->
        V2.main w fl s
        = Done tt (looked s1 (Marks.rendering status) request path bytes))
  /\ (forall cache path s1 ok s2 request status bytes,
        Marks.restoreCache w s = Done (cache, path) s1 ->
        Marks.fresh w (lookupRevision cache rev) s1 = Done ok s2 ->
        Answers w (gitToken w) rev request status ->
        jsonEncode w
          (putRevision cache rev
             (mkEntry status (time.ToUnix (time.Now (clock w (ticks s2))))))
        = Ok bytes ->
        V1.main w fl s
        = Done tt (looked s2 (Marks.rendering status) request path bytes)).
Proof.
  intros Hu Hr. conjuncts.
  - intros loaded request status buf bytes Hl Ha Hg Hc He.
    rewrite (main_update w fl s Hu).
    rewrite (bind_ret_Done _ _ _ _ _ Hr), (bind_ret_Done _ _ _ _ _ Hl).
    unfold V3.lookup.
    rewrite (answered_fetch w _ rev request status s V3.printStatus
               V3.rendering _ Ha) by reflexivity.
    rewrite (answered_saveState w _ _ buf bytes Hg Hc He). reflexivity.
  - intros cache path s1 request status bytes Hl Ha He.
    rewrite (proj1 (legacy_main_update w fl s Hu)).
    rewrite (bind_ret_Done _ _ _ _ _ Hr), (bind_ret_Done _ _ _ _ _ Hl).
    cbn [fst snd]. unfold V2.lookup.
    rewrite (answered_fetch w _ rev request status s1 Marks.printStatus
               Marks.rendering _ Ha)
      by (intros; apply legacy_printStatus_rendering).
    rewrite (answered_storeCache w _ path _ bytes He). reflexivity.
  - intros cache path s1 ok s2 request status bytes Hl Hf Ha He.
    rewrite (proj2 (legacy_main_update w fl s Hu)).
    rewrite (bind_ret_Done _ _ _ _ _ Hr), (bind_ret_Done _ _ _ _ _ Hl).
    cbn [fst snd].
    rewrite (bind_ret_Done _ _ _ _ _ Hf).
    unfold V1.lookup.
    rewrite (answered_fetch w (gitToken w) rev request status s2
               Marks.printStatus Marks.rendering _ Ha)
      by (intros; apply legacy_printStatus_rendering).
    rewrite (answered_storeCache w _ path _ bytes He). reflexivity.
Qed.

(** The sample world answers the lookup of the sample revision. *)
Lemma sample_answers :
  Answers Sample.world (retrieveAPIToken Sample.world) Sample.rev
    (mkRequest "netrc-token" false defaultBaseURL "owner" "repo" Sample.rev)
    "success".
Proof.
  exists (Sample.line "git@github.com:owner/repo.git"), Sample.remoteURL,
    [mkRepoStatus (Some "success"); mkRepoStatus (Some "pending")].
  conjuncts; reflexivity.
Qed.

(** C4: with [--update] the flag [*useCache] is cleared whatever the cached
    entry and the time are, so no run ends with the cached mark: a run
    ends with a non-zero status or returns after the lookup, and when the
    environment answers (git resolves the revision and names the origin,
    the token step and the API answer, the cache file can be written) the
    run does return, after exactly one request for the resolved revision,
    with the mark of the first listed status printed and that status,
    stamped with the clock's second, written over the revision's entry in
    the cache file.  This holds in the three variants. *)
Theorem update_forces_lookup w fl s :
  update fl = true ->
  (forall entry, V3.useCache w fl entry s = Done false s)
  /\ LiveLookup w V3.rendering fl (V3.restoreState w) s (V3.main w fl s)
  /\ LiveLookup w Marks.rendering fl (restoredCache w) s (V2.main w fl s)
  /\ LiveLookup w Marks.rendering fl (restoredCache w) s (V1.main w fl s)
  /\ (forall rev loaded request status buf bytes,
        targetRevision w (args fl) s = Done rev s ->
        V3.restoreState w s = Done loaded s ->
        Answers w (retrieveAPIToken w) rev request status ->
        git w ["rev-parse"; "--show-toplevel"] = Ok buf ->
        createError w (cacheFilePath (strings.TrimRight buf newline)) = None ->
        jsonEncode w
          (putRevision loaded rev
             (mkEntry status (time.ToUnix (time.Now (clock w (ticks s))))))
        = Ok bytes ->
        V3.main w fl s
        = Done tt
            (looked s (V3.rendering status) request
               (cacheFilePath (strings.TrimRight buf newline)) bytes))
  /\ (forall rev cache path s1 request status bytes,
        targetRevision w (args fl) s = Done rev s ->
        Marks.restoreCache w s = Done (cache, path) s1 ->
        Answers w (retrieveAPIToken w) rev request status ->
        jsonEncode w
          (putRevision cache rev
             (mkEntry status (time.ToUnix (time.Now (clock w (ticks s1))))))
        = Ok bytes ->
        V2.main w fl s
        = Done tt (looked s1 (Marks.rendering status) request path bytes))
  /\ (forall rev cache path s1 ok s2 request status bytes,
        targetRevision w (args fl) s = Done rev s ->
        Marks.restoreCache w s = Done (cache, path) s1 ->
        Marks.fresh w (lookupRevision cache rev) s1 = Done ok s2 ->
        Answers w (gitToken w) rev request status ->
        jsonEncode w
          (putRevision cache rev
             (mkEntry status (time.ToUnix (time.Now (clock w (ticks s2))))))
        = Ok bytes ->
        V1.main w fl s
        = Done tt (looked s2 (Marks.rendering status) request path bytes)).
Proof.
  intros Hu. conjuncts.
  - intros entry. apply useCache_update. exact Hu.
  - apply update_lookup. exact Hu.
  - apply update_lookup. exact Hu.
  - apply update_lookup. exact Hu.
  - intros rev loaded request status buf bytes Hr.
    apply (proj1 (update_runs w fl s rev Hu Hr)).
  - intros rev cache path s1 request status bytes Hr.
    apply (proj1 (proj2 (update_runs w fl s rev Hu Hr))).
  - intros rev cache path s1 ok s2 request status bytes Hr.
    apply (proj2 (proj2 (update_runs w fl s rev Hu Hr))).
Qed.

(** A pending entry that is 5 seconds old is still valid; under [--update]
    it is looked up again and overwritten with the success the API
    reports. *)
Lemma update_forces_lookup_witness :
  V3.isValid (lookupRevision Sample.pendingState Sample.rev)
    (clock Sample.world 0) = true
  /\ V3.main Sample.world (mkFlags false true []) Sample.start
     = Done tt
         (looked Sample.start (V3.rendering "success")
            (mkRequest "netrc-token" false defaultBaseURL "owner" "repo"
               Sample.rev)
            Sample.path
            (Sample.stateJSON
               (mkState (Some {[ Sample.rev := mkEntry "success" 1005 ]}))))
  /\ V2.main Sample.world (mkFlags false true []) Sample.start
     = Done tt
         (looked Sample.start (Marks.rendering "success")
            (mkRequest "netrc-token" false defaultBaseURL "owner" "repo"
               Sample.rev)
            Sample.path
            (Sample.stateJSON
               (mkState (Some {[ Sample.rev := mkEntry "success" 1005 ]}))))
  /\ V1.main Sample.world (mkFlags false true []) Sample.start
     = Done tt
         (looked (withTick Sample.start) (Marks.rendering "success")
            (mkRequest "config-token" false defaultBaseURL "owner" "repo"
               Sample.rev)
            Sample.path
            (Sample.stateJSON
               (mkState (Some {[ Sample.rev := mkEntry "success" 1005 ]})))).
Proof.
  pose proof (update_forces_lookup Sample.world (mkFlags false true [])
                Sample.start eq_refl) as (_ & _ & _ & _ & H3 & H2 & H1).
  conjuncts.
  - reflexivity.
  - apply (H3 Sample.rev Sample.pendingState _ "success"
             (Sample.line "/repo"));
      [reflexivity | reflexivity | exact sample_answers | reflexivity
      | reflexivity | vm_compute; reflexivity].
  - apply (H2 Sample.rev Sample.pendingState);
      [reflexivity | reflexivity | exact sample_answers
      | vm_compute; reflexivity].
  - apply (H1 Sample.rev Sample.pendingState Sample.path Sample.start true);
      [reflexivity | reflexivity | reflexivity | |vm_compute; reflexivity].
    exists (Sample.line "git@github.com:owner/repo.git"), Sample.remoteURL,
      [mkRepoStatus (Some "success"); mkRepoStatus (Some "pending")].
    conjuncts; reflexivity.
Defined.

(** C10: when [--cached] and [--update] are both given, [--update] wins in
    the three variants: [*useCache] ends up false for every entry, so the
    cached mark is not used; a run ends with a non-zero status or returns
    after the lookup, and when the environment answers it does return,
    after one request, with the fetched status printed and written over
    the revision's entry, whatever the cached entry and the time are. *)
Theorem update_overrides_cached w fl s :
  cached fl = true -> update fl = true ->
  (forall entry,
     V3.useCache w fl entry s = Done false s
     /\ V2.useCache w fl entry s = Done false s
     /\ exists s', V1.useCache w fl entry s = Done false s')
  /\ LiveLookup w V3.rendering fl (V3.restoreState w) s (V3.main w fl s)
  /\ LiveLookup w Marks.rendering fl (restoredCache w) s (V2.main w fl s)
  /\ LiveLookup w Marks.rendering fl (restoredCache w) s (V1.main w fl s)
  /\ (forall rev loaded request status buf bytes,
        targetRevision w (args fl) s = Done rev s ->
        V3.restoreState w s = Done loaded s ->
        Answers w (retrieveAPIToken w) rev request status ->
        git w ["rev-parse"; "--show-toplevel"] = Ok buf ->
        createError w (cacheFilePath (strings.TrimRight buf newline)) = None ->
        jsonEncode w
          (putRevision loaded rev
             (mkEntry status (time.ToUnix (time.Now (clock w (ticks s))))))
        = Ok bytes ->
        V3.main w fl s
        = Done tt
            (looked s (V3.rendering status) request
               (cacheFilePath (strings.TrimRight buf newline)) bytes)
        /\ lookupRevision
             (putRevision loaded rev
                (mkEntry status
                   (time.ToUnix (time.Now (clock w (ticks s)))))) rev
           = mkEntry status (time.ToUnix (time.Now (clock w (ticks s)))))
  /\ (forall rev cache path s1 request status bytes,
        targetRevision w (args fl) s = Done rev s ->
        Marks.restoreCache w s = Done (cache, path) s1 ->
        Answers w (retrieveAPIToken w) rev request status ->
        jsonEncode w
          (putRevision cache rev
             (mkEntry status (time.ToUnix (time.Now (clock w (ticks s1))))))
        = Ok bytes ->
        V2.main w fl s
        = Done tt (looked s1 (Marks.rendering status) request path bytes))
  /\ (forall rev cache path s1 ok s2 request status bytes,
        targetRevision w (args fl) s = Done rev s ->
        Marks.restoreCache w s = Done (cache, path) s1 ->
        Marks.fresh w (lookupRevision cache rev) s1 = Done ok s2 ->
        Answers w (gitToken w) rev request status ->
        jsonEncode w
          (putRevision cache rev
             (mkEntry status (time.ToUnix (time.Now (clock w (ticks s2))))))
        = Ok bytes ->
        V1.main w fl s
        = Done tt (looked s2 (Marks.rendering status) request path bytes)).
Proof.
  intros _ Hu. conjuncts.
  - intros entry. apply useCache_update. exact Hu.
  - apply update_lookup. exact Hu.
  - apply update_lookup. exact Hu.
  - apply update_lookup. exact Hu.
  - intros rev loaded request status buf bytes Hr Hl Ha Hg Hc He. split.
    + exact (proj1 (update_runs w fl s rev Hu Hr) loaded request status buf
               bytes Hl Ha Hg Hc He).
    + apply (proj2 (put_same loaded rev _)).
  - intros rev cache path s1 request status bytes Hr.
    apply (proj1 (proj2 (update_runs w fl s rev Hu Hr))).
  - intros rev cache path s1 ok s2 request status bytes Hr.
    apply (proj2 (proj2 (update_runs w fl s rev Hu Hr))).
Qed.

(** Both flags, over the cache file with the pending entry that is still
    valid: the entry is fetched again and overwritten. *)
Lemma update_overrides_cached_witness :
  cached (mkFlags true true []) = true
  /\ update (mkFlags true true []) = true
  /\ V3.isValid (lookupRevision Sample.pendingState Sample.rev)
       (clock Sample.world 0) = true
  /\ V3.main Sample.world (mkFlags true true []) Sample.start
     = Done tt
         (looked Sample.start (V3.rendering "success")
            (mkRequest "netrc-token" false defaultBaseURL "owner" "repo"
               Sample.rev)
            Sample.path
            (Sample.stateJSON
               (mkState (Some {[ Sample.rev := mkEntry "success" 1005 ]})))).
Proof.
  split; [reflexivity|]. split; [reflexivity|]. split; [reflexivity|].
  apply (proj1 (proj2 (proj2 (proj2 (proj2
           (update_overrides_cached Sample.world (mkFlags true true [])
              Sample.start eq_refl eq_refl)))))
           Sample.rev Sample.pendingState _ "success" (Sample.line "/repo")).
  - reflexivity.
  - reflexivity.
  - exact sample_answers.
  - reflexivity.
  - reflexivity.
  - vm_compute. reflexivity.
Defined.

(** * Further properties of the code *)

(** ** Trimming git's output *)

Lemma append_cons (c : ascii) (a b : string) :
  String c a ++ b = String c (a ++ b).
Proof. reflexivity. Qed.

Lemma append_nil_l (b : string) : "" ++ b = b.
Proof. reflexivity. Qed.

Lemma TrimRight_split (s : string) :
  exists n, s = strings.TrimRight s newline ++ newlines n.
Proof.
  induction s as [|c s [n IH]].
  - exists 0%nat. reflexivity.
  - cbn [strings.TrimRight].
    destruct (strings.TrimRight s newline) as [|a t] eqn:E.
    + rewrite append_nil_l in IH.
      destruct (Ascii.eqb_spec c newline) as [->|Hc].
      * exists (S n). rewrite IH at 1. reflexivity.
      * exists n. rewrite append_cons, append_nil_l, <- IH. reflexivity.
    + exists n. rewrite append_cons, <- IH. reflexivity.
Qed.

Lemma TrimRight_no_newline (s t : string) :
  strings.TrimRight s newline <> t ++ String newline "".
Proof.
  revert t. induction s as [|c s IH]; intros t.
  - cbn. destruct t; discriminate.
  - cbn [strings.TrimRight].
    destruct (strings.TrimRight s newline) as [|a r] eqn:E.
    + destruct (Ascii.eqb_spec c newline) as [->|Hc].
      * destruct t; discriminate.
      * destruct t as [|c' t']; [intros H; inversion H; congruence|].
        rewrite append_cons. intros H. inversion H.
        destruct t'; discriminate.
    + destruct t as [|c' t'].
      * rewrite append_nil_l. discriminate.
      * rewrite append_cons. intros H. inversion H. eapply IH. eassumption.
Qed.

(** X1: when [runGit] returns it has changed nothing; git's output is what
    it returned followed by newlines only, and what it returned does not end
    in a newline: every trailing newline is cut, and nothing else is. *)
Theorem runGit_output_trimmed (w : World) (command : list string)
    (s s' : State) (out : string) :
  runGit w command s = Done out s' ->
  s' = s
  /\ (exists buf n, git w command = Ok buf /\ buf = out ++ newlines n)
  /\ (forall t, out <> t ++ String newline "").
Proof.
  unfold runGit. destruct (git w command) as [buf|err]; [|discriminate].
  intros H. inversion H; subst. conjuncts.
  - reflexivity.
  - destruct (TrimRight_split buf) as [n Hn]. eauto.
  - apply TrimRight_no_newline.
Qed.

Lemma runGit_output_trimmed_witness :
  Sample.start = Sample.start
  /\ (exists buf n,
        git Sample.world ["rev-parse"; "HEAD"] = Ok buf
        /\ buf = "abc123" ++ newlines n)
  /\ (forall t, "abc123" <> t ++ String newline "").
Proof.
  apply (runGit_output_trimmed Sample.world ["rev-parse"; "HEAD"]
           Sample.start Sample.start "abc123").
  reflexivity.
Defined.

(** ** Schemes *)

Lemma span_scheme (a rest : string) :
  strings.all reSchemeClass a = true ->
  strings.span reSchemeClass (a ++ String ":" rest) = (a, String ":" rest).
Proof.
  induction a as [|c a IH]; intros H.
  - reflexivity.
  - cbn in H. apply andb_true_iff in H as [Hc Ha].
    rewrite append_cons. cbn [strings.span]. rewrite Hc, (IH Ha).
    reflexivity.
Qed.

Lemma reScheme_replaces (scheme rest : string) :
  scheme <> "" ->
  strings.all reSchemeClass scheme = true ->
  reScheme_ReplaceAllLiteralString (scheme ++ "://" ++ rest) "https://"
  = "https://" ++ rest.
Proof.
  intros Hne Hall. unfold reScheme_ReplaceAllLiteralString.
  change ("://" ++ rest) with (String ":" (String "/" (String "/" rest))).
  rewrite (span_scheme _ _ Hall).
  destruct scheme as [|c scheme]; [congruence|].
  cbn [String.eqb negb andb].
  assert (strings.HasPrefix (String ":" (String "/" (String "/" rest))) "://"
          = true) as ->.
  { unfold strings.HasPrefix. cbn. destruct rest; reflexivity. }
  reflexivity.
Qed.

(** X2: a remote written with any non-empty scheme made of letters, digits,
    [_] and [+] normalises exactly as the same remote written with
    [https]. *)
Theorem normalizeURL_any_scheme (scheme rest : string) :
  scheme <> "" ->
  strings.all reSchemeClass scheme = true ->
  normalizeURL (scheme ++ "://" ++ rest) = normalizeURL ("https://" ++ rest).
Proof.
  intros Hne Hall. unfold normalizeURL.
  rewrite (reScheme_replaces scheme rest Hne Hall).
  assert (reScheme_ReplaceAllLiteralString ("https://" ++ rest) "https://"
          = "https://" ++ rest) as ->.
  { apply (reScheme_replaces "https" rest); [discriminate | reflexivity]. }
  reflexivity.
Qed.

Lemma normalizeURL_any_scheme_witness :
  normalizeURL ("git+ssh" ++ "://" ++ "git@github.com/owner/repo.git")
  = normalizeURL ("https://" ++ "git@github.com/owner/repo.git").
Proof.
  apply (normalizeURL_any_scheme "git+ssh" "git@github.com/owner/repo.git").
  - discriminate.
  - reflexivity.
Defined.

(** X3: every URL that [normalizeURL] returns has the scheme [https], and
    its path is empty or starts with a slash; so the field at index 0 of the
    path split at slashes is empty, and the owner is the field at
    index 1. *)
Theorem normalizeURL_https_rooted (raw : string) (u : url.URL) :
  normalizeURL raw = Ok u ->
  url.Scheme u = "https"
  /\ (url.Path u = "" \/ exists t, url.Path u = String "/" t)
  /\ nth 0 (strings.Split (url.Path u) "/") "" = "".
Proof.
  intros H. destruct (normalizeURL_shape raw u H) as [Hs Hp].
  conjuncts.
  - exact Hs.
  - destruct Hp as [Hp | Hp]; [auto | right; apply rooted; exact Hp].
  - destruct Hp as [-> | Hp]; [reflexivity|].
    apply rooted in Hp as [t ->].
    unfold strings.Split. cbn [strings.splitFrom].
    pose proof (HasPrefix_slash t) as Hs'. unfold strings.HasPrefix in Hs'.
    rewrite Hs'. reflexivity.
Qed.

Lemma normalizeURL_https_rooted_witness :
  url.Scheme Sample.remoteURL = "https"
  /\ (url.Path Sample.remoteURL = ""
      \/ exists t, url.Path Sample.remoteURL = String "/" t)
  /\ nth 0 (strings.Split (url.Path Sample.remoteURL) "/") "" = "".
Proof.
  apply (normalizeURL_https_rooted "ssh://git@github.com/owner/repo.git").
  reflexivity.
Defined.

(** ** The [.git] suffix *)

Lemma length_append (a b : string) :
  String.length (a ++ b) = (String.length a + String.length b)%nat.
Proof.
  induction a as [|c a IH]; [reflexivity|].
  rewrite append_cons. cbn [String.length]. rewrite IH. reflexivity.
Qed.

Lemma drop_append (a b : string) :
  strings.drop (String.length a) (a ++ b) = b.
Proof.
  induction a as [|c a IH]; [destruct b; reflexivity|].
  rewrite append_cons. exact IH.
Qed.

Lemma take_append (a b : string) :
  strings.take (String.length a) (a ++ b) = a.
Proof.
  induction a as [|c a IH]; [destruct b; reflexivity|].
  rewrite append_cons. cbn [String.length strings.take]. rewrite IH.
  reflexivity.
Qed.

Lemma TrimSuffix_append (t suffix : string) :
  strings.TrimSuffix (t ++ suffix) suffix = t.
Proof.
  unfold strings.TrimSuffix, strings.HasSuffix.
  rewrite length_append.
  replace (String.length t + String.length suffix - String.length suffix)%nat
    with (String.length t) by lia.
  rewrite drop_append, String.eqb_refl, take_append.
  destruct (_ <=? _)%nat eqn:E; [reflexivity|].
  apply Nat.leb_gt in E. lia.
Qed.

Lemma HasSuffix_cons (c : ascii) (s suffix : string) :
  (String.length suffix <= String.length s)%nat ->
  strings.HasSuffix (String c s) suffix = strings.HasSuffix s suffix.
Proof.
  intros Hlen. unfold strings.HasSuffix. cbn [String.length].
  rewrite Nat.sub_succ_l by exact Hlen. cbn [strings.drop].
  rewrite (proj2 (Nat.leb_le _ _) Hlen).
  rewrite (proj2 (Nat.leb_le _ (S _)) (Nat.le_trans _ _ _ Hlen (Nat.le_succ_diag_r _))).
  reflexivity.
Qed.

Lemma HasSuffix_https (rest : string) :
  strings.HasSuffix rest ".git" = false ->
  strings.HasSuffix (https rest) ".git" = false.
Proof.
  destruct rest as [|a [|b [|c [|d rest]]]]; try reflexivity.
  intros H. unfold https.
  rewrite !HasSuffix_cons by (cbn [String.length]; lia).
  exact H.
Qed.

Lemma normalizeURL_scheme (scheme rest : string) :
  scheme <> "" ->
  strings.all reSchemeClass scheme = true ->
  normalizeURL (scheme ++ "://" ++ rest)
  = url.Parse (strings.TrimSuffix (https rest) ".git").
Proof.
  intros Hne Hall. unfold normalizeURL.
  rewrite (reScheme_replaces scheme rest Hne Hall), https_app.
  assert (strings.HasPrefix (https rest) "https://" = true) as ->.
  { unfold strings.HasPrefix, https. destruct rest; reflexivity. }
  reflexivity.
Qed.

(** X4: a remote with a scheme normalises the same with and without one
    [.git] at its end, when what is before that suffix does not end in
    [.git] itself. *)
Theorem normalizeURL_git_suffix (scheme rest : string) :
  scheme <> "" ->
  strings.all reSchemeClass scheme = true ->
  strings.HasSuffix rest ".git" = false ->
  normalizeURL (scheme ++ "://" ++ rest ++ ".git")
  = normalizeURL (scheme ++ "://" ++ rest).
Proof.
  intros Hne Hall Hsuffix.
  rewrite !normalizeURL_scheme by assumption.
  change (https (rest ++ ".git")) with (https rest ++ ".git").
  rewrite TrimSuffix_append.
  unfold strings.TrimSuffix at 1.
  rewrite (HasSuffix_https rest Hsuffix). reflexivity.
Qed.

Lemma normalizeURL_git_suffix_witness :
  normalizeURL ("ssh" ++ "://" ++ "git@github.com/owner/repo" ++ ".git")
  = normalizeURL ("ssh" ++ "://" ++ "git@github.com/owner/repo").
Proof.
  apply (normalizeURL_git_suffix "ssh" "git@github.com/owner/repo").
  - discriminate.
  - reflexivity.
  - reflexivity.
Defined.

(** ** Fields of a path *)

Lemma prefix_slash_cons (c : ascii) (s : string) :
  String.prefix "/" (String c s) = Ascii.eqb "/" c.
Proof.
  change (String.prefix "/" (String c s))
    with (if ascii_dec "/" c then String.prefix "" s else false).
  destruct (ascii_dec "/" c) as [<-|Hne].
  - destruct s; reflexivity.
  - symmetry. apply Ascii.eqb_neq. exact Hne.
Qed.

Lemma Count1_append (a b : string) (c : ascii) :
  strings.Count1 (a ++ b) c = (strings.Count1 a c + strings.Count1 b c)%nat.
Proof.
  induction a as [|d a IH]; [reflexivity|].
  rewrite append_cons. cbn [strings.Count1]. rewrite IH. lia.
Qed.

Lemma splitFrom_length (cur s : string) :
  length (strings.splitFrom "/" 0 cur s) = S (strings.Count1 s "/").
Proof.
  revert cur. induction s as [|c s IH]; intros cur; [reflexivity|].
  cbn [strings.splitFrom strings.Count1]. rewrite prefix_slash_cons.
  destruct (Ascii.eqb "/" c); cbn [length String.length Nat.sub];
    rewrite IH; reflexivity.
Qed.

Lemma splitFrom_fields (cur s : string) :
  strings.Count1 cur "/" = 0%nat ->
  Forall (fun field => strings.Count1 field "/" = 0%nat)
    (strings.splitFrom "/" 0 cur s).
Proof.
  revert cur. induction s as [|c s IH]; intros cur Hcur.
  - constructor; [exact Hcur | constructor].
  - cbn [strings.splitFrom]. rewrite prefix_slash_cons.
    destruct (Ascii.eqb "/" c) eqn:E; cbn [String.length Nat.sub].
    + constructor; [exact Hcur | apply IH; reflexivity].
    + apply IH. rewrite Count1_append, Hcur. cbn [strings.Count1].
      rewrite E. reflexivity.
Qed.

Lemma nth_field (n : nat) (s : string) :
  strings.Count1 (nth n (strings.Split s "/") "") "/" = 0%nat.
Proof.
  pose proof (splitFrom_fields "" s eq_refl) as H.
  unfold strings.Split.
  destruct (nth_in_or_default n (strings.splitFrom "/" 0 "" s) "")
    as [Hin | ->]; [|reflexivity].
  rewrite List.Forall_forall in H. apply H. exact Hin.
Qed.

Lemma append_nil_r (a : string) : a ++ "" = a.
Proof.
  induction a as [|c a IH]; [reflexivity|].
  rewrite append_cons, IH. reflexivity.
Qed.

Lemma append_assoc (a b c : string) : (a ++ b) ++ c = a ++ (b ++ c).
Proof.
  induction a as [|d a IH]; [reflexivity|].
  rewrite !append_cons, IH. reflexivity.
Qed.

Lemma Join_cons (e : string) (rest : list string) :
  rest <> [] ->
  strings.Join (e :: rest) "/" = e ++ "/" ++ strings.Join rest "/".
Proof. destruct rest; [congruence | reflexivity]. Qed.

(** Splitting at slashes loses nothing: the fields joined by slashes are
    the text. *)
Lemma splitFrom_join (cur s : string) :
  strings.Join (strings.splitFrom "/" 0 cur s) "/" = cur ++ s.
Proof.
  revert cur. induction s as [|c s IH]; intros cur.
  - cbn [strings.splitFrom strings.Join]. rewrite append_nil_r. reflexivity.
  - cbn [strings.splitFrom]. rewrite prefix_slash_cons.
    destruct (Ascii.eqb_spec "/" c) as [<-|Hne];
      cbn [String.length Nat.sub].
    + rewrite Join_cons.
      * rewrite IH. reflexivity.
      * intros Hnil. apply (f_equal (@length string)) in Hnil.
        rewrite splitFrom_length in Hnil. discriminate.
    + rewrite IH, append_assoc. reflexivity.
Qed.

Lemma first_field_empty (t : string) :
  nth 0 (strings.Split (String "/" t) "/") "" = "".
Proof.
  unfold strings.Split. cbn [strings.splitFrom].
  pose proof (HasPrefix_slash t) as Hs. unfold strings.HasPrefix in Hs.
  rewrite Hs. reflexivity.
Qed.

(** X5: when [main] has found the owner and the repository of the origin,
    the path of the normalised URL is a slash, the owner, a slash, the
    repository, and then nothing or a slash and more, which is ignored;
    neither name contains a slash. *)
Theorem owner_and_repo_lead_the_path (w : World) (s s' : State)
    (remoteURL : url.URL) (user repo : string) :
  remoteIdentity w s = Done (remoteURL, user, repo) s' ->
  exists rest,
    url.Path remoteURL = "/" ++ user ++ "/" ++ repo ++ rest
    /\ (rest = "" \/ exists t, rest = String "/" t)
    /\ strings.Count1 user "/" = 0%nat
    /\ strings.Count1 repo "/" = 0%nat.
Proof.
  unfold remoteIdentity. intros H.
  apply bind_done in H as (raw & s1 & _ & H).
  destruct (normalizeURL raw) as [u|err] eqn:Hn; [|discriminate].
  cbv zeta in H.
  destruct (_ <? _)%nat eqn:Hlen; [discriminate|].
  inversion H; subst; clear H.
  apply Nat.ltb_ge in Hlen.
  pose proof (splitFrom_join "" (url.Path remoteURL)) as Hjoin.
  change ("" ++ url.Path remoteURL) with (url.Path remoteURL) in Hjoin.
  fold (strings.Split (url.Path remoteURL) "/") in Hjoin.
  assert (nth 0 (strings.Split (url.Path remoteURL) "/") "" = "") as Hfirst.
  { destruct (proj2 (normalizeURL_shape raw remoteURL Hn)) as [Hp | Hp].
    - rewrite Hp. reflexivity.
    - apply rooted in Hp as [t ->]. apply first_field_empty. }
  pose proof (nth_field 1 (url.Path remoteURL)) as Huser.
  pose proof (nth_field 2 (url.Path remoteURL)) as Hrepo.
  destruct (strings.Split (url.Path remoteURL) "/")
    as [|f0 [|f1 [|f2 more]]]; cbn [length] in Hlen; try lia.
  cbn [nth] in *. subst f0.
  rewrite Join_cons in Hjoin by discriminate.
  rewrite Join_cons in Hjoin by discriminate.
  destruct more as [|f3 more].
  - exists "". cbn [strings.Join] in Hjoin.
    rewrite append_nil_r. rewrite <- Hjoin. auto.
  - exists ("/" ++ strings.Join (f3 :: more) "/").
    rewrite Join_cons in Hjoin by discriminate.
    rewrite <- Hjoin. conjuncts; auto.
    right. eexists. reflexivity.
Qed.

Lemma owner_and_repo_lead_the_path_witness :
  exists rest,
    url.Path Sample.remoteURL = "/" ++ "owner" ++ "/" ++ "repo" ++ rest
    /\ (rest = "" \/ exists t, rest = String "/" t)
    /\ strings.Count1 "owner" "/" = 0%nat
    /\ strings.Count1 "repo" "/" = 0%nat.
Proof.
  apply (owner_and_repo_lead_the_path Sample.world Sample.start Sample.start
           Sample.remoteURL "owner" "repo").
  reflexivity.
Defined.

(** ** The API host in [.netrc] *)

Lemma find_nothing {A} (f : A -> bool) (l : list A) :
  (forall x, In x l -> f x = false) -> List.find f l = None.
Proof.
  induction l as [|a l IH]; intros H; [reflexivity|].
  cbn. rewrite (H a) by (left; reflexivity).
  apply IH. intros x Hx. apply H. right. exact Hx.
Qed.

(** X6: for a remote on [github.com], with the token variable unset and a
    [.netrc] that parses but has no entry named [api.github.com], the
    [.netrc] gives no token (an entry for [github.com] is not used), and
    [retrieveAPIToken] is the query of git's [github.token]
    configuration. *)
Theorem netrc_entry_must_name_api_host (w : World) (remoteURL : url.URL)
    (homeDir : string) (mach : list netrc.Machine) (s : State) :
  url.Host remoteURL = "github.com" ->
  getenv w "GITHUB_COMMIT_STATUS_MARK_TOKEN" = "" ->
  currentUser w = Some homeDir ->
  netrcParse w (filepath_Join [homeDir; ".netrc"]) = Ok mach ->
  (forall m, In m mach -> netrc.Name m <> "api.github.com") ->
  netrcToken w remoteURL = ""
  /\ retrieveAPIToken w remoteURL s
     = runGit w ["config"; "--get-urlmatch"; "github.token";
                 url.String_ remoteURL] s.
Proof.
  intros Hhost Henv Huser Hparse Hnone.
  assert (netrcToken w remoteURL = "") as Htoken.
  { rewrite netrcToken_exact. unfold exactPassword, exactMachine.
    rewrite Huser, Hparse. destruct (stat w _); [|reflexivity].
    rewrite find_nothing; [reflexivity|].
    intros m Hm. unfold apiHostOf. rewrite Hhost. cbn [String.eqb].
    change (String.eqb "github.com" "github.com") with true. cbn iota.
    apply andb_false_iff. left. apply String.eqb_neq. apply Hnone. exact Hm. }
  split; [exact Htoken|].
  unfold retrieveAPIToken. rewrite Henv. cbn [String.eqb]. rewrite Htoken.
  reflexivity.
Qed.

(** ** Marks *)

(** X7: the three variants print the same text for a status, one single
    mark among [?], [✗], [●] and [✓]; for [failure], [pending] and [success]
    the colour calls around it are the same as well. *)
Theorem marks_agree (status : string) :
  printed (Marks.rendering status) = printed (V3.rendering status)
  /\ (exists mark,
        printed (V3.rendering status) = [mark]
        /\ In mark ["?"; "✗"; "●"; "✓"])
  /\ (status = "failure" \/ status = "pending" \/ status = "success" ->
      Marks.rendering status = V3.rendering status).
Proof.
  destruct (String.eqb_spec status "failure") as [->|Hf].
  { conjuncts; [reflexivity | exists "✗"; cbn; auto | reflexivity]. }
  destruct (String.eqb_spec status "pending") as [->|Hp].
  { conjuncts; [reflexivity | exists "●"; cbn; auto | reflexivity]. }
  destruct (String.eqb_spec status "success") as [->|Hs].
  { conjuncts; [reflexivity | exists "✓"; cbn; auto 6 | reflexivity]. }
  assert (V3.rendering status = [ChangeColor ct_None; Print "?"; ResetColor])
    as Hv.
  { destruct (String.eqb_spec status "") as [->|Hu]; [reflexivity|].
    unfold V3.rendering. rewrite (confOf_fallback status) by assumption.
    reflexivity. }
  assert (Marks.rendering status = [Print "?"]) as Hm.
  { unfold Marks.rendering.
    apply String.eqb_neq in Hf, Hp, Hs. rewrite Hf, Hp, Hs. reflexivity. }
  rewrite Hv, Hm. conjuncts.
  - reflexivity.
  - exists "?". cbn. auto.
  - intros [? | [? | ?]]; congruence.
Qed.

(** ** Stored entries *)

(** An entry stamped at a reading of the wall clock is valid at every
    reading less than nine seconds later. *)
Lemma fresh_entry_valid (status : string) (t now : Z) :
  minInt64 <= t <= maxInt64 ->
  minInt64 <= now <= maxInt64 ->
  now < t + 9 * time.Second ->
  V3.isValid (mkEntry status (time.ToUnix (time.Now t))) now = true.
Proof.
  intros Ht Hrange Hnow. rewrite ToUnix_Now by exact Ht.
  pose proof (seconds_of_clock t Ht) as Hsec.
  assert (t - time.Second < t / time.Second * time.Second) as Hfloor.
  { unfold time.Second.
    pose proof (Z.mod_pos_bound t 1000000000 ltac:(lia)).
    pose proof (Z.div_mod t 1000000000 ltac:(lia)). lia. }
  assert (minInt64 <= t / time.Second) as Hlo by (unfold minInt64; lia).
  assert (t / time.Second + time.unixToInternal + 30 <= maxInt64) as Hhi
    by (unfold time.unixToInternal, maxInt64; lia).
  destruct (cacheFor_values status) as [H | [H | H]].
  - apply isValid_forever. exact H.
  - rewrite (isValid_finite status _ now 10) by (assumption || lia).
    apply Z.ltb_lt. unfold time.Second in *. lia.
  - rewrite (isValid_finite status _ now 30) by (assumption || lia).
    apply Z.ltb_lt. unfold time.Second in *. lia.
Qed.

(** X8: in [part_001] the entry [main] builds from the fetched statuses is
    valid at every reading of the clock less than nine seconds after the
    reading it is stamped with: the shortest time to live is ten seconds,
    and the stamp drops the fraction of the second. *)
Theorem observed_entry_stays_valid (w : World) (statuses : list RepoStatus)
    (s s' : State) (entry : revisionEntry) (tick : nat) :
  observedEntry w statuses s = Done entry s' ->
  clock w tick < clock w (ticks s) + 9 * time.Second ->
  V3.isValid entry (clock w tick) = true.
Proof.
  intros H Hnow.
  apply observedEntry_done in H as (_ & _ & Hlm).
  destruct entry as [status lm]. cbn [LastModified] in Hlm. subst lm.
  apply fresh_entry_valid; [apply clock_range | apply clock_range | exact Hnow].
Qed.

(** A pending entry stamped at second 1006 and read at second 1014. *)
Lemma observed_entry_stays_valid_witness :
  V3.isValid (mkEntry "pending" 1006) (clock Sample.faithful 9) = true.
Proof.
  apply (observed_entry_stays_valid Sample.faithful
           [mkRepoStatus (Some "pending")] (withTick Sample.empty)
           (withTick (withTick Sample.empty))).
  - reflexivity.
  - vm_compute. reflexivity.
Defined.

(** X9: in [main.go] and [part_000], an entry whose status is outside the
    expiration table (GitHub's [error], say) is not valid at any time from
    its time stamp on: its time to live is the map's zero value. *)
Theorem legacy_unrecognized_never_valid (status : string) (lm nowUnix : Z) :
  status <> "" -> status <> "failure" -> status <> "pending" ->
  status <> "success" ->
  minInt64 <= lm <= maxInt64 ->
  lm <= nowUnix ->
  Marks.isValid (mkEntry status lm) nowUnix = false.
Proof.
  intros Hu Hf Hp Hs Hrange Hnow.
  unfold Marks.isValid, Marks.expirationOf, Marks.cacheExpirationSeconds.
  cbn [Status LastModified].
  rewrite !lookup_insert_ne by congruence. rewrite lookup_empty.
  cbn [Z.eqb orb]. apply Z.ltb_ge.
  unfold add64, wrap64, minInt64, maxInt64 in *.
  rewrite Z.mod_small by lia. lia.
Qed.

Lemma legacy_unrecognized_never_valid_witness :
  Marks.isValid (mkEntry "error" 1005) 1005 = false.
Proof.
  apply (legacy_unrecognized_never_valid "error" 1005 1005);
    try discriminate; unfold minInt64, maxInt64; lia.
Defined.

(** X10: in [main.go] and [part_000] the expiry is an int64 sum: an entry
    with status [""] or [pending] stamped less than its time to live below
    the largest int64 wraps to a negative expiry, and is not valid at any
    non-negative time. *)
Theorem legacy_expiry_wraps (status : string) (lm nowUnix : Z) :
  status = "" \/ status = "pending" ->
  maxInt64 - Marks.expirationOf status < lm <= maxInt64 ->
  0 <= nowUnix ->
  Marks.isValid (mkEntry status lm) nowUnix = false.
Proof.
  intros Hst Hlm Hnow.
  assert (exists ttl, Marks.expirationOf status = ttl /\ 0 < ttl <= 30)
    as (ttl & Httl & Hbound).
  { destruct Hst as [-> | ->]; [exists 30 | exists 10];
      (split; [reflexivity | lia]). }
  unfold Marks.isValid. cbn [Status LastModified]. rewrite Httl in *.
  assert ((ttl =? -1) = false) as -> by (apply Z.eqb_neq; lia).
  cbn [orb]. apply Z.ltb_ge.
  unfold add64, wrap64, minInt64, maxInt64 in *.
  replace (lm + ttl + 2 ^ 63) with ((lm + ttl - 2 ^ 63) + 1 * 2 ^ 64) by lia.
  rewrite Z.mod_add by lia. rewrite Z.mod_small by lia. lia.
Qed.

Lemma legacy_expiry_wraps_witness :
  Marks.isValid (mkEntry "pending" maxInt64) 1005 = false.
Proof.
  apply (legacy_expiry_wraps "pending" maxInt64 1005).
  - right. reflexivity.
  - change (Marks.expirationOf "pending") with 10.
    unfold maxInt64. lia.
  - lia.
Defined.

(** ** Which way [main] goes *)

Lemma useCache_total w fl entry s :
  exists use s', V3.useCache w fl entry s = Done use s'.
Proof.
  unfold V3.useCache. destruct (update fl); [eexists _, _; reflexivity|].
  destruct (_ =? V3.forever); [eexists _, _; reflexivity|].
  unfold bind, time_Now. destruct (time.Before _ _); eexists _, _; reflexivity.
Qed.

(** X11: in [part_001], without [--update] and [--cached], a run whose
    loaded entry for the revision is not valid at the clock reading goes on
    as the live lookup: it stops on a fatal error or fetches, prints and
    saves. *)
Theorem stale_entry_is_looked_up (w : World) (fl : Flags) (s : State)
    (rev : string) (loaded : persistentState) :
  update fl = false ->
  cached fl = false ->
  targetRevision w (args fl) s = Done rev s ->
  V3.restoreState w s = Done loaded s ->
  V3.isValid (lookupRevision loaded rev) (clock w (ticks s)) = false ->
  V3.main w fl s = V3.lookup w rev loaded (withTick s)
  /\ LiveLookup w V3.rendering fl (V3.restoreState w) s (V3.main w fl s).
Proof.
  intros Hu Hc Hr Hl Hstale.
  assert (V3.main w fl s = V3.lookup w rev loaded (withTick s)) as Hmain.
  { unfold V3.main.
    rewrite (bind_ret_Done _ _ _ _ _ Hr), (bind_ret_Done _ _ _ _ _ Hl).
    unfold V3.isValid in Hstale. apply orb_false_iff in Hstale as [He Hb].
    unfold V3.useCache. rewrite Hu, He.
    unfold bind at 1 2. unfold time_Now. rewrite Hb, Hc. reflexivity. }
  split; [exact Hmain|]. rewrite Hmain.
  destruct (V3.lookup w rev loaded (withTick s)) as [[] s'|c s'] eqn:E.
  - apply main_done_V3. exact Hmain.
  - exact (Fatal_lookup _ _ _ _ _ _ E).
Qed.

Lemma stale_entry_is_looked_up_witness :
  V3.main Sample.world (mkFlags false false []) Sample.torn
  = V3.lookup Sample.world Sample.rev zeroState (withTick Sample.torn)
  /\ LiveLookup Sample.world V3.rendering (mkFlags false false [])
       (V3.restoreState Sample.world) Sample.torn
       (V3.main Sample.world (mkFlags false false []) Sample.torn).
Proof.
  apply (stale_entry_is_looked_up Sample.world (mkFlags false false [])
           Sample.torn Sample.rev zeroState);
    reflexivity.
Defined.

(** The call [os.Exit(0)] is reached only on the cached path. *)
Lemma exited_zero_on_cached_path (w : World) (fl : Flags) (s s' : State) :
  V3.main w fl s = Exited 0 s' ->
  update fl = false
  /\ exists rev loaded,
       targetRevision w (args fl) s = Done rev s
       /\ V3.restoreState w s = Done loaded s
       /\ (cached fl = true
           \/ V3.isValid (lookupRevision loaded rev) (clock w (ticks s))
              = true)
       /\ stdout s'
          = (stdout s ++ V3.rendering (Status (lookupRevision loaded rev)))%list
       /\ requests s' = requests s
       /\ files s' = files s
       /\ stderr s' = stderr s.
Proof.
  unfold V3.main. intros E.
  apply bind_exited in E as [E | (rev & s1 & Hr & E)].
  { exfalso. exact (Fatal_targetRevision _ _ _ _ _ E eq_refl). }
  pose proof (targetRevision_done _ _ _ _ _ Hr) as ->.
  apply bind_exited in E as [E | (loaded & s2 & Hl & E)].
  { exfalso. exact (Fatal_restoreState _ _ _ _ E eq_refl). }
  pose proof (restoreState_done _ _ _ _ Hl) as ->.
  apply bind_exited in E as [E | (use & s3 & Hc & E)].
  { exfalso.
    destruct (useCache_total w fl (lookupRevision loaded rev) s)
      as (use & s3 & H). congruence. }
  destruct use.
  2:{ exfalso. exact (Fatal_lookup _ _ _ _ _ _ E eq_refl). }
  destruct (update fl) eqn:Hu.
  { exfalso.
    pose proof (proj1 (useCache_update w fl (lookupRevision loaded rev) s Hu)).
    congruence. }
  split; [reflexivity|].
  destruct (useCache_isValid w fl (lookupRevision loaded rev) s Hu)
    as (s4 & Hc' & Hf & Ho & He & Hq).
  rewrite Hc in Hc'. inversion Hc'; subst s4.
  assert (s' = withStdout s3
                 (V3.rendering (Status (lookupRevision loaded rev)))) as ->.
  { unfold bind, V3.printStatus, fmt_Print, os_Exit in E.
    inversion E. reflexivity. }
  exists rev, loaded. cbn [stdout requests files stderr withStdout].
  rewrite Hf, Ho, He, Hq. conjuncts; auto.
  match goal with H : true = _ |- _ => symmetry in H;
    apply orb_true_iff in H as [H | H]; auto end.
Qed.

(** ** Saving and loading *)

(** X13: what [saveState] has written, [restoreState] reads back, provided
    the decoder gives the state back from the encoder's bytes and opening a
    file reports no error. *)
Theorem saved_state_is_restored (w : World) (state : persistentState)
    (s s' : State) (bytes : string) :
  V3.saveState w state s = Done tt s' ->
  jsonEncode w state = Ok bytes ->
  fst (jsonDecode w bytes) = state ->
  (forall path, openError w path = None) ->
  V3.restoreState w s' = Done state s'.
Proof.
  intros Hsave Henc Hdec Hopen.
  apply saveState_done in Hsave as (buf & bytes' & Hg & Henc' & ->).
  rewrite Henc in Henc'. inversion Henc'; subst bytes'.
  unfold V3.restoreState, bind. rewrite (runGit_ok w _ buf _ Hg).
  unfold os_Open. rewrite Hopen. cbn [files withFiles].
  rewrite lookup_insert_eq, Hdec. reflexivity.
Qed.

Lemma saved_state_is_restored_witness :
  V3.restoreState Sample.world Sample.start
  = Done Sample.pendingState Sample.start.
Proof.
  apply (saved_state_is_restored Sample.world Sample.pendingState
           Sample.torn Sample.start (Sample.stateJSON Sample.pendingState)).
  - vm_compute. reflexivity.
  - reflexivity.
  - reflexivity.
  - reflexivity.
Defined.

(** X14: what [storeCache] has written to the cache file, [restoreCache]
    reads back with the same path, provided the decoder gives the cache back
    from the encoder's bytes and the file can be opened. *)
Theorem legacy_stored_cache_is_restored (w : World) (cache : persistentState)
    (s s' : State) (buf bytes : string) :
  git w ["rev-parse"; "--show-toplevel"] = Ok buf ->
  Marks.storeCache w cache (cacheFilePath (strings.TrimRight buf newline)) s
  = Done tt s' ->
  jsonEncode w cache = Ok bytes ->
  fst (jsonDecode w bytes) = cache ->
  createError w (cacheFilePath (strings.TrimRight buf newline)) = None ->
  Marks.restoreCache w s'
  = Done (cache, cacheFilePath (strings.TrimRight buf newline)) s'.
Proof.
  intros Hg Hstore Henc Hdec Hcreate.
  apply storeCache_done in Hstore as (bytes' & Henc' & ->).
  rewrite Henc in Henc'. inversion Henc'; subst bytes'.
  rewrite (restoreCache_outcomes w _ buf Hg), Hcreate.
  cbn [files withFiles]. rewrite lookup_insert_eq, Hdec. reflexivity.
Qed.

Lemma legacy_stored_cache_is_restored_witness :
  Marks.restoreCache Sample.world Sample.start
  = Done (Sample.pendingState, Sample.path) Sample.start.
Proof.
  apply (legacy_stored_cache_is_restored Sample.world Sample.pendingState
           Sample.torn Sample.start (Sample.line "/repo")
           (Sample.stateJSON Sample.pendingState)).
  - reflexivity.
  - vm_compute. reflexivity.
  - reflexivity.
  - reflexivity.
  - reflexivity.
Defined.

(** X15: when [restoreCache] returns, the cache file exists: a file that
    was there is decoded and left as it was, a missing one is created empty
    and decoded as such; no other path changes. *)
Theorem restoreCache_leaves_a_file (w : World) (s s1 : State)
    (cache : persistentState) (path : string) :
  Marks.restoreCache w s = Done (cache, path) s1 ->
  is_Some (files s1 !! path)
  /\ (forall content,
        files s !! path = Some content ->
        s1 = s /\ cache = fst (jsonDecode w content))
  /\ (files s !! path = None ->
      s1 = withFiles s (<[path := ""]> (files s))
      /\ cache = fst (jsonDecode w ""))
  /\ (forall other, other <> path -> files s1 !! other = files s !! other).
Proof.
  intros H.
  pose proof (restoreCache_done _ _ _ _ _ H) as (buf & Hg & -> & _).
  rewrite (restoreCache_outcomes w s buf Hg) in H.
  destruct (createError w _); [discriminate|].
  destruct (files s !! _) as [content|] eqn:E; inversion H; subst; clear H.
  - conjuncts.
    + rewrite E. eauto.
    + intros c Hc. inversion Hc. auto.
    + discriminate.
    + reflexivity.
  - conjuncts.
    + cbn [files withFiles]. rewrite lookup_insert_eq. eauto.
    + discriminate.
    + auto.
    + intros other Hne. cbn [files withFiles].
      rewrite lookup_insert_ne by congruence. reflexivity.
Qed.

(** ** Counting what a run emits *)

#[export] Instance requestCount_gauge : Gauge requestCount 0 0 1.
Proof.
  split; intros; unfold requestCount; cbn; rewrite ?length_app; cbn; lia.
Qed.

#[export] Instance diagnostics_gauge : Gauge diagnostics 0 1 0.
Proof.
  split; intros; unfold diagnostics; cbn; rewrite ?length_app; cbn; lia.
Qed.

Lemma printed_app (a b : list Output) :
  printed (a ++ b) = (printed a ++ printed b)%list.
Proof. unfold printed. apply flat_map_app. Qed.

#[export] Instance marksPrinted_gauge : Gauge marksPrinted 1 0 0.
Proof.
  split; intros; unfold marksPrinted;
    cbn [stdout withFiles withTick withStdout withStderr withRequest];
    rewrite ?printed_app, ?length_app; lia.
Qed.

Section Growth.

Context (mu : State -> nat) (perMark perLine perRequest : nat).
Context `{!Gauge mu perMark perLine perRequest}.

Lemma Grows_mono {A} (m : Prog A) (d e d' e' : nat) :
  (d <= d')%nat -> (e <= e')%nat -> Grows mu d e m -> Grows mu d' e' m.
Proof.
  intros Hd He H s. specialize (H s). destruct (m s); lia.
Qed.

Lemma Grows_bind {A B} (m : Prog A) (k : A -> Prog B) (d1 e1 d2 e2 : nat) :
  Grows mu d1 e1 m -> (forall a, Grows mu d2 e2 (k a)) ->
  Grows mu (d1 + d2) (Nat.max e1 (d1 + e2)) (bind m k).
Proof.
  intros Hm Hk s. unfold bind. specialize (Hm s).
  destruct (m s) as [a s1|c s1]; [|lia].
  specialize (Hk a s1). destruct (k a s1); lia.
Qed.

Lemma Grows_if {A} (b : bool) (m1 m2 : Prog A) (d e : nat) :
  Grows mu d e m1 -> Grows mu d e m2 -> Grows mu d e (if b then m1 else m2).
Proof. destruct b; auto. Qed.

Lemma Grows_ret {A} (a : A) : Grows mu 0 0 (ret a).
Proof. intros s. cbn. lia. Qed.

Lemma Grows_die {A} (message : string) : Grows mu 0 perLine (@die A message).
Proof. intros s. cbn. rewrite gauge_stderr. lia. Qed.

Lemma Grows_panic {A} (message : string) :
  Grows mu 0 perLine (@panic A message).
Proof. intros s. cbn. rewrite gauge_stderr. lia. Qed.

Lemma Grows_os_Exit {A} (c : Z) : Grows mu 0 0 (@os_Exit A c).
Proof. intros s. cbn. lia. Qed.

Lemma Grows_dieIf (err : option string) : Grows mu 0 perLine (dieIf err).
Proof.
  destruct err; [apply Grows_die|].
  eapply Grows_mono; [| |apply Grows_ret]; lia.
Qed.

Lemma Grows_runGit w command : Grows mu 0 perLine (runGit w command).
Proof.
  unfold runGit. destruct (git w command); [|apply Grows_die].
  eapply Grows_mono; [| |apply Grows_ret]; lia.
Qed.

Lemma Grows_time_Now w : Grows mu 0 0 (time_Now w).
Proof. intros s. cbn. rewrite gauge_tick. lia. Qed.

Lemma Grows_fmt_Print o :
  Grows mu (perMark * length (printed o)) 0 (fmt_Print o).
Proof. intros s. cbn. rewrite gauge_stdout. lia. Qed.

Lemma Grows_truncate path : Grows mu 0 0 (truncate path).
Proof. intros s. cbn. rewrite gauge_files. lia. Qed.

Lemma Grows_encodeTo w path state : Grows mu 0 0 (encodeTo w path state).
Proof.
  unfold encodeTo. destruct (jsonEncode w state); [|apply Grows_ret].
  intros s. rewrite gauge_files. lia.
Qed.

Lemma Grows_os_Create w path : Grows mu 0 0 (os_Create w path).
Proof.
  unfold os_Create. destruct (createError w path); [apply Grows_ret|].
  intros s. cbn. rewrite gauge_files. lia.
Qed.

Lemma Grows_os_OpenFile_create w path :
  Grows mu 0 0 (os_OpenFile_create w path).
Proof.
  intros s. unfold os_OpenFile_create.
  destruct (createError w path); [lia|].
  destruct (files s !! path); [lia|]. rewrite gauge_files. lia.
Qed.

Lemma Grows_bind_to {A B} (m : Prog A) (k : A -> Prog B)
    (d1 e1 d2 e2 d e : nat) :
  Grows mu d1 e1 m -> (forall a, Grows mu d2 e2 (k a)) ->
  (d1 + d2 <= d)%nat -> (e1 <= e)%nat -> (d1 + e2 <= e)%nat ->
  Grows mu d e (bind m k).
Proof.
  intros Hm Hk Hd He1 He2.
  eapply Grows_mono; [| |apply (Grows_bind _ _ _ _ _ _ Hm Hk)]; lia.
Qed.

(** After a step that emits nothing when it returns and one line at most
    when it ends the process. *)
Lemma Grows_after {A B} (m : Prog A) (k : A -> Prog B) (d e : nat) :
  Grows mu 0 perLine m -> (perLine <= e)%nat ->
  (forall a, Grows mu d e (k a)) ->
  Grows mu d e (bind m k).
Proof.
  intros Hm He Hk. apply (Grows_bind_to _ _ 0 perLine d e); auto; lia.
Qed.

Lemma Grows_quiet {A} (m : Prog A) (d e : nat) :
  Grows mu 0 0 m -> Grows mu d e m.
Proof. apply Grows_mono; lia. Qed.

Lemma Grows_targetRevision w a : Grows mu 0 perLine (targetRevision w a).
Proof. apply Grows_runGit. Qed.

Lemma Grows_restoreState w : Grows mu 0 perLine (V3.restoreState w).
Proof.
  unfold V3.restoreState. apply Grows_after; [apply Grows_runGit | lia|].
  intros top s. destruct (os_Open w _ s); try lia.
  apply (Grows_die (A := persistentState)).
Qed.

Lemma Grows_restoreCache w : Grows mu 0 perLine (Marks.restoreCache w).
Proof.
  unfold Marks.restoreCache. apply Grows_after; [apply Grows_runGit | lia|].
  intros top.
  apply (Grows_bind_to _ _ 0 0 0 perLine);
    [apply Grows_os_OpenFile_create | | lia | lia | lia].
  intros [content|err]; [apply Grows_quiet, Grows_ret | apply Grows_die].
Qed.

Lemma Grows_fresh w entry : Grows mu 0 0 (Marks.fresh w entry).
Proof.
  unfold Marks.fresh. destruct (_ =? -1); [apply Grows_ret|].
  apply (Grows_bind_to _ _ 0 0 0 0);
    [apply Grows_time_Now | intros now; apply Grows_ret | lia | lia | lia].
Qed.

Lemma Grows_useCache w fl entry :
  Grows mu 0 0 (V3.useCache w fl entry)
  /\ Grows mu 0 0 (V2.useCache w fl entry)
  /\ Grows mu 0 0 (V1.useCache w fl entry).
Proof.
  conjuncts.
  - unfold V3.useCache. destruct (update fl); [apply Grows_ret|].
    destruct (_ =? V3.forever); [apply Grows_ret|].
    apply (Grows_bind_to _ _ 0 0 0 0);
      [apply Grows_time_Now | | lia | lia | lia].
    intros now. destruct (time.Before _ _); apply Grows_ret.
  - unfold V2.useCache. destruct (update fl); [apply Grows_ret|].
    apply (Grows_bind_to _ _ 0 0 0 0);
      [apply Grows_fresh | | lia | lia | lia].
    intros []; apply Grows_ret.
  - unfold V1.useCache.
    apply (Grows_bind_to _ _ 0 0 0 0);
      [apply Grows_fresh | intros ok; apply Grows_ret | lia | lia | lia].
Qed.

Lemma Grows_remoteIdentity w : Grows mu 0 perLine (remoteIdentity w).
Proof.
  unfold remoteIdentity. apply Grows_after; [apply Grows_runGit | lia|].
  intros raw. destruct (normalizeURL raw); [|apply Grows_die].
  destruct (_ <? _)%nat; [apply Grows_die|].
  apply Grows_quiet, Grows_ret.
Qed.

Lemma Grows_retrieveAPIToken w u : Grows mu 0 perLine (retrieveAPIToken w u).
Proof.
  unfold retrieveAPIToken. destruct (String.eqb _ "");
    [apply Grows_runGit | apply Grows_quiet, Grows_ret].
Qed.

Lemma Grows_fetchStatuses w u token user repo rev :
  Grows mu perRequest (perRequest + perLine)
    (fetchStatuses w u token user repo rev).
Proof.
  unfold fetchStatuses.
  apply (Grows_bind_to _ _ 0 perLine perRequest (perRequest + perLine));
    [| | lia | lia | lia].
  - destruct (negb _); [|apply Grows_quiet, Grows_ret].
    destruct (url.Parse _); [apply Grows_quiet, Grows_ret | apply Grows_die].
  - intros base s. destruct (listStatuses w _).
    + rewrite gauge_request. lia.
    + unfold die. rewrite gauge_stderr, gauge_request. lia.
Qed.

Lemma Grows_observedEntry w statuses :
  Grows mu 0 perLine (observedEntry w statuses).
Proof.
  unfold observedEntry.
  apply (Grows_bind_to _ _ 0 0 0 perLine);
    [apply Grows_time_Now | | lia | lia | lia].
  intros now. destruct statuses as [|first rest];
    [apply Grows_quiet, Grows_ret|].
  destruct (State_ first); [apply Grows_quiet, Grows_ret | apply Grows_panic].
Qed.

Lemma printed_rendering status :
  length (printed (V3.rendering status)) = 1%nat
  /\ length (printed (Marks.rendering status)) = 1%nat.
Proof.
  split; [reflexivity|]. unfold Marks.rendering.
  destruct (String.eqb status "failure"); [reflexivity|].
  destruct (String.eqb status "pending"); [reflexivity|].
  destruct (String.eqb status "success"); reflexivity.
Qed.

Lemma Grows_printStatus status :
  Grows mu perMark 0 (V3.printStatus status)
  /\ Grows mu perMark 0 (Marks.printStatus status).
Proof.
  split; intros s.
  - cbn. rewrite gauge_stdout. cbn. lia.
  - rewrite legacy_printStatus_rendering, gauge_stdout.
    rewrite (proj2 (printed_rendering status)). lia.
Qed.

Lemma Grows_saveState w state : Grows mu 0 perLine (V3.saveState w state).
Proof.
  unfold V3.saveState. apply Grows_after; [apply Grows_runGit | lia|].
  intros top.
  apply (Grows_bind_to _ _ 0 0 0 perLine);
    [apply Grows_os_Create | | lia | lia | lia].
  intros err. apply Grows_after; [apply Grows_dieIf | lia|]. intros _.
  apply (Grows_bind_to _ _ 0 0 0 perLine);
    [apply Grows_encodeTo | intros e; apply Grows_dieIf | lia | lia | lia].
Qed.

Lemma Grows_storeCache w cache path :
  Grows mu 0 perLine (Marks.storeCache w cache path).
Proof.
  unfold Marks.storeCache.
  apply (Grows_bind_to _ _ 0 0 0 perLine);
    [apply Grows_truncate | | lia | lia | lia].
  intros _.
  apply (Grows_bind_to _ _ 0 0 0 perLine);
    [apply Grows_encodeTo | intros e; apply Grows_dieIf | lia | lia | lia].
Qed.

(** From the API call to the write: one request, one mark, and one line
    at most when the process is ended. *)
Lemma Grows_fetch_print_store {A} w u token user repo rev
    (print : string -> Prog unit) (store : revisionEntry -> Prog A) :
  (forall status, Grows mu perMark 0 (print status)) ->
  (forall entry, Grows mu 0 perLine (store entry)) ->
  Grows mu (perRequest + perMark) (perRequest + perMark + perLine)
    (statuses <- fetchStatuses w u token user repo rev ;;
     thisStatus <- observedEntry w statuses ;;
     print (Status thisStatus) ;;;
     store thisStatus).
Proof.
  intros Hprint Hstore.
  apply (Grows_bind_to _ _ perRequest (perRequest + perLine)
           perMark (perMark + perLine));
    [apply Grows_fetchStatuses | | lia | lia | lia].
  intros statuses.
  apply Grows_after; [apply Grows_observedEntry | lia|]. intros entry.
  apply (Grows_bind_to _ _ perMark 0 0 perLine);
    [apply Hprint | intros _; apply Hstore | lia | lia | lia].
Qed.

Lemma Grows_lookup w rev loaded path :
  Grows mu (perRequest + perMark) (perRequest + perMark + perLine)
    (V3.lookup w rev loaded)
  /\ Grows mu (perRequest + perMark) (perRequest + perMark + perLine)
       (V2.lookup w rev loaded path)
  /\ Grows mu (perRequest + perMark) (perRequest + perMark + perLine)
       (V1.lookup w rev loaded path).
Proof.
  conjuncts.
  - unfold V3.lookup.
    apply Grows_after; [apply Grows_remoteIdentity | lia|].
    intros [[u user] repo].
    apply Grows_after; [apply Grows_retrieveAPIToken | lia|]. intros token.
    apply Grows_fetch_print_store;
      [intros; apply Grows_printStatus | intros; apply Grows_saveState].
  - unfold V2.lookup.
    apply Grows_after; [apply Grows_remoteIdentity | lia|].
    intros [[u user] repo].
    apply Grows_after; [apply Grows_retrieveAPIToken | lia|]. intros token.
    apply Grows_fetch_print_store;
      [intros; apply Grows_printStatus | intros; apply Grows_storeCache].
  - unfold V1.lookup.
    apply Grows_after; [apply Grows_remoteIdentity | lia|].
    intros [[u user] repo].
    apply Grows_after; [apply Grows_runGit | lia|]. intros token.
    apply Grows_fetch_print_store;
      [intros; apply Grows_printStatus | intros; apply Grows_storeCache].
Qed.

(** The cached mark: one mark, then the end of the process. *)
Lemma Grows_cached_mark (print : string -> Prog unit) status :
  Grows mu perMark 0 (print status) ->
  Grows mu (perRequest + perMark) (perRequest + perMark + perLine)
    (print status ;;; os_Exit (A := unit) 0).
Proof.
  intros Hprint.
  apply (Grows_bind_to _ _ perMark 0 0 0);
    [exact Hprint | intros _; apply Grows_os_Exit | lia | lia | lia].
Qed.

Lemma Grows_main w fl :
  Grows mu (perRequest + perMark) (perRequest + perMark + perLine)
    (V3.main w fl)
  /\ Grows mu (perRequest + perMark) (perRequest + perMark + perLine)
       (V2.main w fl)
  /\ Grows mu (perRequest + perMark) (perRequest + perMark + perLine)
       (V1.main w fl).
Proof.
  conjuncts.
  - unfold V3.main.
    apply Grows_after; [apply Grows_targetRevision | lia|]. intros rev.
    apply Grows_after; [apply Grows_restoreState | lia|]. intros state.
    apply Grows_after;
      [apply Grows_quiet, Grows_useCache | lia|].
    intros use. apply Grows_if.
    + apply Grows_cached_mark, Grows_printStatus.
    + apply (Grows_lookup w rev state "").
  - unfold V2.main.
    apply Grows_after; [apply Grows_targetRevision | lia|]. intros rev.
    apply Grows_after; [apply Grows_restoreCache | lia|].
    intros [cache path].
    apply Grows_after;
      [apply Grows_quiet, Grows_useCache | lia|].
    intros use. apply Grows_if.
    + apply Grows_cached_mark, Grows_printStatus.
    + apply (Grows_lookup w rev cache path).
  - unfold V1.main.
    apply Grows_after; [apply Grows_targetRevision | lia|]. intros rev.
    apply Grows_after; [apply Grows_restoreCache | lia|].
    intros [cache path].
    apply Grows_after;
      [apply Grows_quiet, Grows_useCache | lia|].
    intros use. apply Grows_if.
    + apply Grows_cached_mark, Grows_printStatus.
    + apply (Grows_lookup w rev cache path).
Qed.

End Growth.

(** ** Counting, for the three variants *)

(** X16: a run of any of the three variants, however it ends, calls the
    status listing at most once, and removes no recorded call. *)
Theorem one_request_at_most (w : World) (fl : Flags) (s : State) :
  (requestCount s <= requestCount (finalState (V3.main w fl s))
   <= requestCount s + 1)%nat
  /\ (requestCount s <= requestCount (finalState (V2.main w fl s))
      <= requestCount s + 1)%nat
  /\ (requestCount s <= requestCount (finalState (V1.main w fl s))
      <= requestCount s + 1)%nat.
Proof.
  destruct (Grows_main requestCount 0 0 1 w fl) as (H3 & H2 & H1).
  specialize (H3 s). specialize (H2 s). specialize (H1 s).
  destruct (V3.main w fl s), (V2.main w fl s), (V1.main w fl s);
    cbn [finalState]; lia.
Qed.

(** X17: a run of any of the three variants, however it ends, prints at
    most one text to standard output. *)
Theorem one_mark_at_most (w : World) (fl : Flags) (s : State) :
  (marksPrinted s <= marksPrinted (finalState (V3.main w fl s))
   <= marksPrinted s + 1)%nat
  /\ (marksPrinted s <= marksPrinted (finalState (V2.main w fl s))
      <= marksPrinted s + 1)%nat
  /\ (marksPrinted s <= marksPrinted (finalState (V1.main w fl s))
      <= marksPrinted s + 1)%nat.
Proof.
  destruct (Grows_main marksPrinted 1 0 0 w fl) as (H3 & H2 & H1).
  specialize (H3 s). specialize (H2 s). specialize (H1 s).
  destruct (V3.main w fl s), (V2.main w fl s), (V1.main w fl s);
    cbn [finalState]; lia.
Qed.

(** X18: a run of any of the three variants that returns has written no
    message of its own to the diagnostic stream, and one that ends the
    process has written at most one (what git writes there itself is not
    recorded). *)
Theorem one_diagnostic_at_most (w : World) (fl : Flags) (s : State) :
  match V3.main w fl s with
  | Done _ s' => diagnostics s' = diagnostics s
  | Exited _ s' =>
      (diagnostics s <= diagnostics s' <= diagnostics s + 1)%nat
  end
  /\ match V2.main w fl s with
     | Done _ s' => diagnostics s' = diagnostics s
     | Exited _ s' =>
         (diagnostics s <= diagnostics s' <= diagnostics s + 1)%nat
     end
  /\ match V1.main w fl s with
     | Done _ s' => diagnostics s' = diagnostics s
     | Exited _ s' =>
         (diagnostics s <= diagnostics s' <= diagnostics s + 1)%nat
     end.
Proof.
  destruct (Grows_main diagnostics 0 1 0 w fl) as (H3 & H2 & H1).
  specialize (H3 s). specialize (H2 s). specialize (H1 s).
  destruct (V3.main w fl s), (V2.main w fl s), (V1.main w fl s); lia.
Qed.

(** ** The files a run leaves alone *)

Section Frame.

Context (w : World) (p : string).
Hypothesis other :
  forall buf,
    git w ["rev-parse"; "--show-toplevel"] = Ok buf ->
    p <> cacheFilePath (strings.TrimRight buf newline).

Local Abbreviation Kept := (Keeps (Untouched p)).

Lemma Kept_bind {A B} (m : Prog A) (k : A -> Prog B) :
  Kept m -> (forall a, Kept (k a)) -> Kept (bind m k).
Proof.
  intros Hm Hk s. unfold bind. specialize (Hm s).
  destruct (m s) as [a s1|c s1]; [|exact Hm].
  specialize (Hk a s1). cbn [finalState] in Hm. unfold Untouched in *.
  congruence.
Qed.

Lemma Kept_ret {A} (a : A) : Kept (ret a).
Proof. intros s. reflexivity. Qed.

Lemma Kept_die {A} (message : string) : Kept (@die A message).
Proof. intros s. reflexivity. Qed.

Lemma Kept_panic {A} (message : string) : Kept (@panic A message).
Proof. intros s. reflexivity. Qed.

Lemma Kept_os_Exit {A} (c : Z) : Kept (@os_Exit A c).
Proof. intros s. reflexivity. Qed.

Lemma Kept_dieIf (err : option string) : Kept (dieIf err).
Proof. destruct err; [apply Kept_die | apply Kept_ret]. Qed.

Lemma Kept_runGit command : Kept (runGit w command).
Proof.
  unfold runGit. destruct (git w command); [apply Kept_ret | apply Kept_die].
Qed.

Lemma Kept_time_Now : Kept (time_Now w).
Proof. intros s. reflexivity. Qed.

Lemma Kept_fmt_Print o : Kept (fmt_Print o).
Proof. intros s. reflexivity. Qed.

(** The steps that write, at a path other than [p]. *)
Lemma Kept_written path :
  p <> path ->
  Kept (truncate path)
  /\ (forall state, Kept (encodeTo w path state))
  /\ Kept (os_Create w path)
  /\ Kept (os_OpenFile_create w path).
Proof.
  intros Hne.
  assert (forall s content,
            Untouched p s (withFiles s (<[path := content]> (files s))))
    as Hput.
  { intros s content. unfold Untouched. cbn [files withFiles].
    apply lookup_insert_ne. congruence. }
  conjuncts.
  - intros s. apply Hput.
  - intros state s. unfold encodeTo.
    destruct (jsonEncode w state); [apply Hput | reflexivity].
  - intros s. unfold os_Create.
    destruct (createError w path); [reflexivity | apply Hput].
  - intros s. unfold os_OpenFile_create.
    destruct (createError w path); [reflexivity|].
    destruct (files s !! path); [reflexivity | apply Hput].
Qed.

(** After git has named the top level, the path written is the cache
    file's. *)
Lemma Kept_under_toplevel {A} (k : string -> Prog A) :
  (forall toplevel, p <> cacheFilePath toplevel -> Kept (k toplevel)) ->
  Kept (toplevel <- runGit w ["rev-parse"; "--show-toplevel"] ;;
        k toplevel).
Proof.
  intros Hk s. unfold bind, runGit.
  pose proof other as Hother.
  destruct (git w _) as [buf|err]; [|reflexivity].
  apply (Hk _ (Hother buf eq_refl)).
Qed.

Lemma Kept_restoreState : Kept (V3.restoreState w).
Proof.
  unfold V3.restoreState. apply Kept_bind; [apply Kept_runGit|].
  intros top s. destruct (os_Open w _ s); reflexivity.
Qed.

Lemma Kept_saveState state : Kept (V3.saveState w state).
Proof.
  unfold V3.saveState. apply Kept_under_toplevel. intros top Hne.
  destruct (Kept_written _ Hne) as (_ & He & Hc & _).
  apply Kept_bind; [exact Hc | intros err].
  apply Kept_bind; [apply Kept_dieIf | intros _].
  apply Kept_bind; [apply He | intros e; apply Kept_dieIf].
Qed.

Lemma Kept_storeCache cache path :
  p <> path -> Kept (Marks.storeCache w cache path).
Proof.
  intros Hne. destruct (Kept_written _ Hne) as (Ht & He & _ & _).
  unfold Marks.storeCache.
  apply Kept_bind; [exact Ht | intros _].
  apply Kept_bind; [apply He | intros e; apply Kept_dieIf].
Qed.

Lemma Kept_fresh entry : Kept (Marks.fresh w entry).
Proof.
  unfold Marks.fresh. destruct (_ =? -1); [apply Kept_ret|].
  apply Kept_bind; [apply Kept_time_Now | intros now; apply Kept_ret].
Qed.

Lemma Kept_useCache fl entry :
  Kept (V3.useCache w fl entry) /\ Kept (V2.useCache w fl entry)
  /\ Kept (V1.useCache w fl entry).
Proof.
  conjuncts.
  - unfold V3.useCache. destruct (update fl); [apply Kept_ret|].
    destruct (_ =? V3.forever); [apply Kept_ret|].
    apply Kept_bind; [apply Kept_time_Now | intros now].
    destruct (time.Before _ _); apply Kept_ret.
  - unfold V2.useCache. destruct (update fl); [apply Kept_ret|].
    apply Kept_bind; [apply Kept_fresh | intros []; apply Kept_ret].
  - unfold V1.useCache.
    apply Kept_bind; [apply Kept_fresh | intros ok; apply Kept_ret].
Qed.

Lemma Kept_remoteIdentity : Kept (remoteIdentity w).
Proof.
  unfold remoteIdentity. apply Kept_bind; [apply Kept_runGit | intros raw].
  destruct (normalizeURL raw); [|apply Kept_die].
  destruct (_ <? _)%nat; [apply Kept_die | apply Kept_ret].
Qed.

Lemma Kept_retrieveAPIToken u : Kept (retrieveAPIToken w u).
Proof.
  unfold retrieveAPIToken.
  destruct (String.eqb _ ""); [apply Kept_runGit | apply Kept_ret].
Qed.

Lemma Kept_fetchStatuses u token user repo rev :
  Kept (fetchStatuses w u token user repo rev).
Proof.
  unfold fetchStatuses. apply Kept_bind.
  - destruct (negb _); [|apply Kept_ret].
    destruct (url.Parse _); [apply Kept_ret | apply Kept_die].
  - intros base s. destruct (listStatuses w _); reflexivity.
Qed.

Lemma Kept_observedEntry statuses : Kept (observedEntry w statuses).
Proof.
  unfold observedEntry. apply Kept_bind; [apply Kept_time_Now | intros now].
  destruct statuses as [|first rest]; [apply Kept_ret|].
  destruct (State_ first); [apply Kept_ret | apply Kept_panic].
Qed.

Lemma Kept_printStatus status :
  Kept (V3.printStatus status) /\ Kept (Marks.printStatus status).
Proof.
  split; intros s; [reflexivity|].
  rewrite legacy_printStatus_rendering. reflexivity.
Qed.

Lemma Kept_fetch_print_store {A} u token user repo rev
    (print : string -> Prog unit) (store : revisionEntry -> Prog A) :
  (forall status, Kept (print status)) ->
  (forall entry, Kept (store entry)) ->
  Kept (statuses <- fetchStatuses w u token user repo rev ;;
        thisStatus <- observedEntry w statuses ;;
        print (Status thisStatus) ;;;
        store thisStatus).
Proof.
  intros Hprint Hstore.
  apply Kept_bind; [apply Kept_fetchStatuses | intros statuses].
  apply Kept_bind; [apply Kept_observedEntry | intros entry].
  apply Kept_bind; [apply Hprint | intros _; apply Hstore].
Qed.

Lemma Kept_restoreCache : Kept (Marks.restoreCache w).
Proof.
  unfold Marks.restoreCache. apply Kept_under_toplevel. intros top Hne.
  destruct (Kept_written _ Hne) as (_ & _ & _ & Ho).
  apply Kept_bind; [exact Ho|].
  intros [content|err]; [apply Kept_ret | apply Kept_die].
Qed.

Lemma Kept_after_restoreCache {A} (k : persistentState * string -> Prog A) :
  (forall cache path, p <> path -> Kept (k (cache, path))) ->
  Kept (bind (Marks.restoreCache w) k).
Proof.
  intros Hk s. unfold bind. pose proof (Kept_restoreCache s) as Hr.
  destruct (Marks.restoreCache w s) as [[cache path] s1|c s1] eqn:E;
    [|exact Hr].
  apply restoreCache_done in E as (buf & Hg & -> & _).
  cbn [finalState] in Hr.
  pose proof (Hk cache _ (other buf Hg) s1) as Hk1.
  unfold Untouched in *. congruence.
Qed.

Lemma Kept_main fl :
  Kept (V3.main w fl) /\ Kept (V2.main w fl) /\ Kept (V1.main w fl).
Proof.
  conjuncts.
  - unfold V3.main.
    apply Kept_bind; [apply Kept_runGit | intros rev].
    apply Kept_bind; [apply Kept_restoreState | intros state].
    apply Kept_bind; [apply Kept_useCache | intros use].
    destruct use.
    + apply Kept_bind; [apply Kept_printStatus | intros _; apply Kept_os_Exit].
    + unfold V3.lookup.
      apply Kept_bind; [apply Kept_remoteIdentity | intros [[u user] repo]].
      apply Kept_bind; [apply Kept_retrieveAPIToken | intros token].
      apply Kept_fetch_print_store;
        [intros; apply Kept_printStatus | intros; apply Kept_saveState].
  - unfold V2.main.
    apply Kept_bind; [apply Kept_runGit | intros rev].
    apply Kept_after_restoreCache. intros cache path Hne.
    apply Kept_bind; [apply Kept_useCache | intros use].
    destruct use.
    + apply Kept_bind; [apply Kept_printStatus | intros _; apply Kept_os_Exit].
    + unfold V2.lookup.
      apply Kept_bind; [apply Kept_remoteIdentity | intros [[u user] repo]].
      apply Kept_bind; [apply Kept_retrieveAPIToken | intros token].
      apply Kept_fetch_print_store;
        [intros; apply Kept_printStatus
        | intros; apply Kept_storeCache; exact Hne].
  - unfold V1.main.
    apply Kept_bind; [apply Kept_runGit | intros rev].
    apply Kept_after_restoreCache. intros cache path Hne.
    apply Kept_bind; [apply Kept_useCache | intros use].
    destruct use.
    + apply Kept_bind; [apply Kept_printStatus | intros _; apply Kept_os_Exit].
    + unfold V1.lookup.
      apply Kept_bind; [apply Kept_remoteIdentity | intros [[u user] repo]].
      apply Kept_bind; [apply Kept_runGit | intros token].
      apply Kept_fetch_print_store;
        [intros; apply Kept_printStatus
        | intros; apply Kept_storeCache; exact Hne].
Qed.

End Frame.

(** X19: a run of any of the three variants, however it ends, leaves every
    path other than the cache file under git's top-level directory with the
    content it had, or without a file as before. *)
Theorem only_the_cache_file_changes (w : World) (fl : Flags) (s : State)
    (p : string) :
  (forall buf,
     git w ["rev-parse"; "--show-toplevel"] = Ok buf ->
     p <> cacheFilePath (strings.TrimRight buf newline)) ->
  files (finalState (V3.main w fl s)) !! p = files s !! p
  /\ files (finalState (V2.main w fl s)) !! p = files s !! p
  /\ files (finalState (V1.main w fl s)) !! p = files s !! p.
Proof.
  intros Hother.
  destruct (Kept_main w p Hother fl) as (H3 & H2 & H1).
  exact (conj (H3 s) (conj (H2 s) (H1 s))).
Qed.

Lemma only_the_cache_file_changes_witness :
  files (finalState (V3.main Sample.world (mkFlags false true [])
                       Sample.start)) !! "/home/me/.netrc"
  = files Sample.start !! "/home/me/.netrc".
Proof.
  apply (only_the_cache_file_changes Sample.world (mkFlags false true [])
           Sample.start "/home/me/.netrc").
  intros buf H. vm_compute in H. inversion H. vm_compute. discriminate.
Defined.

(** ** A mark on every success *)

Lemma Marked_after {A B} (m : Prog A) (k : A -> Prog B) (d e : nat) :
  Fatal m -> Grows marksPrinted d e m -> (forall a, Marked (k a)) ->
  Marked (bind m k).
Proof.
  intros Hf Hm Hk s. unfold bind. specialize (Hm s).
  destruct (m s) as [a s1|c s1] eqn:E.
  - specialize (Hk a s1). destruct (k a s1); [lia|].
    destruct Hk; [auto | right; lia].
  - left. exact (Hf _ _ _ E).
Qed.

Lemma Marked_then {A} (p : Prog unit) (k : Prog A) (o : list Output)
    (d e : nat) :
  (forall s, p s = Done tt (withStdout s o)) ->
  length (printed o) = 1%nat ->
  Grows marksPrinted d e k ->
  Marked (p ;;; k).
Proof.
  intros Hp Ho Hk s. unfold bind. rewrite Hp.
  specialize (Hk (withStdout s o)).
  assert (marksPrinted (withStdout s o) = S (marksPrinted s)) as Hs.
  { unfold marksPrinted. cbn [stdout withStdout].
    rewrite printed_app, length_app, Ho. lia. }
  destruct (k (withStdout s o)); [lia | right; lia].
Qed.

Lemma Fatal_useCache w fl entry :
  Fatal (V3.useCache w fl entry) /\ Fatal (V2.useCache w fl entry)
  /\ Fatal (V1.useCache w fl entry).
Proof.
  conjuncts.
  - unfold V3.useCache. destruct (update fl); auto with fatal.
    destruct (_ =? V3.forever); auto with fatal.
    intros s c s' H. unfold bind, time_Now in H.
    destruct (time.Before _ _); discriminate.
  - unfold V2.useCache. destruct (update fl); auto with fatal.
    apply Fatal_bind; [auto with fatal|]. intros []; auto with fatal.
  - unfold V1.useCache. apply Fatal_bind; auto with fatal.
Qed.

Lemma Marked_store {A} w u token user repo rev
    (print : string -> Prog unit) (render : string -> list Output)
    (store : revisionEntry -> Prog A) :
  (forall status s, print status s = Done tt (withStdout s (render status))) ->
  (forall status, length (printed (render status)) = 1%nat) ->
  (forall entry, Grows marksPrinted 0 0 (store entry)) ->
  Marked (statuses <- fetchStatuses w u token user repo rev ;;
          thisStatus <- observedEntry w statuses ;;
          print (Status thisStatus) ;;;
          store thisStatus).
Proof.
  intros Hprint Hone Hstore.
  eapply Marked_after;
    [apply Fatal_fetchStatuses
    | apply (Grows_fetchStatuses marksPrinted 1 0 0) |].
  intros statuses.
  eapply Marked_after;
    [apply Fatal_observedEntry
    | apply (Grows_observedEntry marksPrinted 1 0 0) |].
  intros entry.
  eapply Marked_then; [apply Hprint | apply Hone | apply Hstore].
Qed.

Lemma Marked_main w fl :
  Marked (V3.main w fl) /\ Marked (V2.main w fl) /\ Marked (V1.main w fl).
Proof.
  pose proof (fun status => proj1 (printed_rendering status)) as Hone3.
  pose proof (fun status => proj2 (printed_rendering status)) as Hone.
  conjuncts.
  - unfold V3.main.
    eapply Marked_after;
      [apply Fatal_targetRevision
      | apply (Grows_targetRevision marksPrinted 1 0 0) |].
    intros rev.
    eapply Marked_after;
      [apply Fatal_restoreState
      | apply (Grows_restoreState marksPrinted 1 0 0) |].
    intros state.
    eapply Marked_after;
      [apply (proj1 (Fatal_useCache w fl _))
      | apply (proj1 (Grows_useCache marksPrinted 1 0 0 w fl _)) |].
    intros [|].
    + eapply Marked_then;
        [reflexivity | apply Hone3
        | apply (Grows_os_Exit marksPrinted)].
    + unfold V3.lookup.
      eapply Marked_after;
        [apply Fatal_remoteIdentity
        | apply (Grows_remoteIdentity marksPrinted 1 0 0) |].
      intros [[u user] repo].
      eapply Marked_after;
        [apply Fatal_retrieveAPIToken
        | apply (Grows_retrieveAPIToken marksPrinted 1 0 0) |].
      intros token.
      apply (Marked_store _ _ _ _ _ _ _ V3.rendering);
        [reflexivity | apply Hone3
        | intros; apply (Grows_saveState marksPrinted 1 0 0)].
  - unfold V2.main.
    eapply Marked_after;
      [apply Fatal_targetRevision
      | apply (Grows_targetRevision marksPrinted 1 0 0) |].
    intros rev.
    eapply Marked_after;
      [apply Fatal_restoreCache
      | apply (Grows_restoreCache marksPrinted 1 0 0) |].
    intros [cache path].
    eapply Marked_after;
      [apply (proj1 (proj2 (Fatal_useCache w fl _)))
      | apply (proj1 (proj2 (Grows_useCache marksPrinted 1 0 0 w fl _))) |].
    intros [|].
    + eapply Marked_then;
        [apply legacy_printStatus_rendering | apply Hone
        | apply (Grows_os_Exit marksPrinted)].
    + unfold V2.lookup.
      eapply Marked_after;
        [apply Fatal_remoteIdentity
        | apply (Grows_remoteIdentity marksPrinted 1 0 0) |].
      intros [[u user] repo].
      eapply Marked_after;
        [apply Fatal_retrieveAPIToken
        | apply (Grows_retrieveAPIToken marksPrinted 1 0 0) |].
      intros token.
      apply (Marked_store _ _ _ _ _ _ _ Marks.rendering);
        [apply legacy_printStatus_rendering | apply Hone
        | intros; apply (Grows_storeCache marksPrinted 1 0 0)].
  - unfold V1.main.
    eapply Marked_after;
      [apply Fatal_targetRevision
      | apply (Grows_targetRevision marksPrinted 1 0 0) |].
    intros rev.
    eapply Marked_after;
      [apply Fatal_restoreCache
      | apply (Grows_restoreCache marksPrinted 1 0 0) |].
    intros [cache path].
    eapply Marked_after;
      [apply (proj2 (proj2 (Fatal_useCache w fl _)))
      | apply (proj2 (proj2 (Grows_useCache marksPrinted 1 0 0 w fl _))) |].
    intros [|].
    + eapply Marked_then;
        [apply legacy_printStatus_rendering | apply Hone
        | apply (Grows_os_Exit marksPrinted)].
    + unfold V1.lookup.
      eapply Marked_after;
        [apply Fatal_remoteIdentity
        | apply (Grows_remoteIdentity marksPrinted 1 0 0) |].
      intros [[u user] repo].
      eapply Marked_after;
        [apply Fatal_runGit
        | apply (Grows_runGit marksPrinted 1 0 0) |].
      intros token.
      apply (Marked_store _ _ _ _ _ _ _ Marks.rendering);
        [apply legacy_printStatus_rendering | apply Hone
        | intros; apply (Grows_storeCache marksPrinted 1 0 0)].
Qed.

(** X20: a run of any of the three variants that returns from [main] or ends
    with status 0 has printed exactly one mark. *)
Theorem success_prints_one_mark (w : World) (fl : Flags) (s : State) :
  match V3.main w fl s with
  | Done _ s' => marksPrinted s' = S (marksPrinted s)
  | Exited exitCode s' => exitCode <> 0 \/ marksPrinted s' = S (marksPrinted s)
  end
  /\ match V2.main w fl s with
     | Done _ s' => marksPrinted s' = S (marksPrinted s)
     | Exited exitCode s' =>
         exitCode <> 0 \/ marksPrinted s' = S (marksPrinted s)
     end
  /\ match V1.main w fl s with
     | Done _ s' => marksPrinted s' = S (marksPrinted s)
     | Exited exitCode s' =>
         exitCode <> 0 \/ marksPrinted s' = S (marksPrinted s)
     end.
Proof.
  destruct (Grows_main marksPrinted 1 0 0 w fl) as (H3 & H2 & H1).
  destruct (Marked_main w fl) as (M3 & M2 & M1).
  specialize (H3 s). specialize (H2 s). specialize (H1 s).
  specialize (M3 s). specialize (M2 s). specialize (M1 s).
  conjuncts.
  - destruct (V3.main w fl s); [lia|]. destruct M3; [auto | right; lia].
  - destruct (V2.main w fl s); [lia|]. destruct M2; [auto | right; lia].
  - destruct (V1.main w fl s); [lia|]. destruct M1; [auto | right; lia].
Qed.

(** ** No write before the mark *)

Lemma Unwritten_bind {A B} (m : Prog A) (k : A -> Prog B) :
  Keeps Unwritten m -> (forall a, Keeps Unwritten (k a)) ->
  Keeps Unwritten (bind m k).
Proof.
  intros Hm Hk s. unfold bind. specialize (Hm s).
  destruct (m s) as [a s1|c s1]; cbn [finalState] in *; [|exact Hm].
  specialize (Hk a s1). destruct Hm as [Hle Hsame], Hk as [Hle' Hsame'].
  split; [lia|]. intros Heq.
  rewrite Hsame' by lia. apply Hsame. lia.
Qed.

Lemma Unwritten_quiet {A} (m : Prog A) (d e : nat) :
  Keeps SameFiles m -> Grows marksPrinted d e m -> Keeps Unwritten m.
Proof.
  intros Hf Hg s. specialize (Hf s). specialize (Hg s).
  split; [destruct (m s); cbn [finalState]; lia | intros _; exact Hf].
Qed.

Lemma Unwritten_printed {A} (k : Prog A) (status : string) (d e : nat) :
  Grows marksPrinted d e k ->
  Keeps Unwritten (V3.printStatus status ;;; k).
Proof.
  intros Hk s. unfold bind.
  change (V3.printStatus status s)
    with (Done tt (withStdout s (V3.rendering status))).
  specialize (Hk (withStdout s (V3.rendering status))).
  assert (marksPrinted (withStdout s (V3.rendering status))
          = S (marksPrinted s)) as Hs.
  { unfold marksPrinted. cbn [stdout withStdout].
    rewrite printed_app, length_app, (proj1 (printed_rendering status)).
    lia. }
  cbv beta iota. unfold Unwritten.
  destruct (k (withStdout s (V3.rendering status))); cbn [finalState];
    split; lia.
Qed.

Lemma SameFiles_bind {A B} (m : Prog A) (k : A -> Prog B) :
  Keeps SameFiles m -> (forall a, Keeps SameFiles (k a)) ->
  Keeps SameFiles (bind m k).
Proof.
  intros Hm Hk s. unfold bind. specialize (Hm s).
  destruct (m s) as [a s1|c s1]; cbn [finalState] in *; [|exact Hm].
  unfold SameFiles in *. rewrite <- Hm. apply Hk.
Qed.

Lemma SameFiles_ret {A} (a : A) : Keeps SameFiles (ret a).
Proof. intros s. reflexivity. Qed.

Lemma SameFiles_die {A} (message : string) : Keeps SameFiles (@die A message).
Proof. intros s. reflexivity. Qed.

Lemma SameFiles_panic {A} (message : string) :
  Keeps SameFiles (@panic A message).
Proof. intros s. reflexivity. Qed.

Lemma SameFiles_runGit w command : Keeps SameFiles (runGit w command).
Proof. intros s. unfold runGit. destruct (git w command); reflexivity. Qed.

Lemma SameFiles_restoreState w : Keeps SameFiles (V3.restoreState w).
Proof.
  unfold V3.restoreState. apply SameFiles_bind; [apply SameFiles_runGit|].
  intros top s. destruct (os_Open w _ s); reflexivity.
Qed.

Lemma SameFiles_useCache w fl entry : Keeps SameFiles (V3.useCache w fl entry).
Proof.
  unfold V3.useCache. destruct (update fl); [apply SameFiles_ret|].
  destruct (_ =? V3.forever); [apply SameFiles_ret|].
  intros s. unfold bind, time_Now. destruct (time.Before _ _); reflexivity.
Qed.

Lemma SameFiles_remoteIdentity w : Keeps SameFiles (remoteIdentity w).
Proof.
  unfold remoteIdentity. apply SameFiles_bind; [apply SameFiles_runGit|].
  intros raw. destruct (normalizeURL raw); [|apply SameFiles_die].
  cbv zeta. destruct (_ <? _)%nat; [apply SameFiles_die | apply SameFiles_ret].
Qed.

Lemma SameFiles_retrieveAPIToken w u : Keeps SameFiles (retrieveAPIToken w u).
Proof.
  unfold retrieveAPIToken.
  destruct (String.eqb _ ""); [apply SameFiles_runGit | apply SameFiles_ret].
Qed.

Lemma SameFiles_fetchStatuses w u token user repo rev :
  Keeps SameFiles (fetchStatuses w u token user repo rev).
Proof.
  unfold fetchStatuses. apply SameFiles_bind.
  - destruct (negb _); [|apply SameFiles_ret].
    destruct (url.Parse _); [apply SameFiles_ret | apply SameFiles_die].
  - intros base s. destruct (listStatuses w _); reflexivity.
Qed.

Lemma SameFiles_observedEntry w statuses :
  Keeps SameFiles (observedEntry w statuses).
Proof.
  unfold observedEntry. apply SameFiles_bind; [intros s; reflexivity|].
  intros now. destruct statuses as [|first rest]; [apply SameFiles_ret|].
  destruct (State_ first); [apply SameFiles_ret | apply SameFiles_panic].
Qed.

Lemma Unwritten_main w fl : Keeps Unwritten (V3.main w fl).
Proof.
  unfold V3.main.
  apply Unwritten_bind;
    [eapply Unwritten_quiet;
       [apply SameFiles_runGit
       | apply (Grows_targetRevision marksPrinted 1 0 0)] |].
  intros rev.
  apply Unwritten_bind;
    [eapply Unwritten_quiet;
       [apply SameFiles_restoreState
       | apply (Grows_restoreState marksPrinted 1 0 0)] |].
  intros state.
  apply Unwritten_bind;
    [eapply Unwritten_quiet;
       [apply SameFiles_useCache
       | apply (proj1 (Grows_useCache marksPrinted 1 0 0 w fl _))] |].
  intros [|].
  - eapply Unwritten_printed. apply (Grows_os_Exit marksPrinted).
  - unfold V3.lookup.
    apply Unwritten_bind;
      [eapply Unwritten_quiet;
         [apply SameFiles_remoteIdentity
         | apply (Grows_remoteIdentity marksPrinted 1 0 0)] |].
    intros [[u user] repo].
    apply Unwritten_bind;
      [eapply Unwritten_quiet;
         [apply SameFiles_retrieveAPIToken
         | apply (Grows_retrieveAPIToken marksPrinted 1 0 0)] |].
    intros token.
    apply Unwritten_bind;
      [eapply Unwritten_quiet;
         [apply SameFiles_fetchStatuses
         | apply (Grows_fetchStatuses marksPrinted 1 0 0)] |].
    intros statuses.
    apply Unwritten_bind;
      [eapply Unwritten_quiet;
         [apply SameFiles_observedEntry
         | apply (Grows_observedEntry marksPrinted 1 0 0)] |].
    intros entry.
    eapply Unwritten_printed. apply (Grows_saveState marksPrinted 1 0 0).
Qed.

(** X21: in [part_001] a run that has printed no mark, however it ended, has
    changed no file: the cache file is written only after the mark is
    out. *)
Theorem nothing_written_before_the_mark (w : World) (fl : Flags) (s : State) :
  marksPrinted (finalState (V3.main w fl s)) = marksPrinted s ->
  files (finalState (V3.main w fl s)) = files s.
Proof.
  intros H. exact (proj2 (Unwritten_main w fl s) H).
Qed.

Lemma nothing_written_before_the_mark_witness :
  files (finalState (V3.main Sample.world (mkFlags false false ["v0.0"])
                       Sample.start))
  = files Sample.start.
Proof.
  apply (nothing_written_before_the_mark Sample.world
           (mkFlags false false ["v0.0"]) Sample.start).
  vm_compute. reflexivity.
Defined.

(** ** The request of a live lookup *)

Lemma fetchStatuses_request w u token user repo rev s statuses s' :
  fetchStatuses w u token user repo rev s = Done statuses s' ->
  exists base,
    (if String.eqb (url.Host u) "github.com" then base = defaultBaseURL
     else url.Parse ("https://" ++ url.Host u ++ "/api/v3/") = Ok base)
    /\ listStatuses w
         (mkRequest token (negb (String.eqb (url.Host u) "github.com"))
            base user repo rev) = Ok statuses
    /\ s' = withRequest s
              (mkRequest token (negb (String.eqb (url.Host u) "github.com"))
                 base user repo rev).
Proof.
  unfold fetchStatuses. intros H.
  apply bind_done in H as (base & s1 & Hb & H).
  exists base.
  assert (s1 = s
          /\ if String.eqb (url.Host u) "github.com"
             then base = defaultBaseURL
             else url.Parse ("https://" ++ url.Host u ++ "/api/v3/") = Ok base)
    as [-> Hbase].
  { destruct (String.eqb (url.Host u) "github.com"); cbn [negb] in Hb.
    - inversion Hb. auto.
    - destruct (url.Parse _); [inversion Hb; auto | discriminate]. }
  split; [exact Hbase|].
  destruct (listStatuses w _) eqn:E; [|discriminate].
  inversion H. subst. auto.
Qed.

(** What a live lookup that returns has done, step by step. *)
Lemma lookup_steps w rev loaded s s' :
  V3.lookup w rev loaded s = Done tt s' ->
  exists remoteURL user repo token base statuses status buf bytes,
    remoteIdentity w s = Done (remoteURL, user, repo) s
    /\ retrieveAPIToken w remoteURL s = Done token s
    /\ (if String.eqb (url.Host remoteURL) "github.com"
        then base = defaultBaseURL
        else url.Parse ("https://" ++ url.Host remoteURL ++ "/api/v3/")
             = Ok base)
    /\ listStatuses w
         (mkRequest token
            (negb (String.eqb (url.Host remoteURL) "github.com"))
            base user repo rev) = Ok statuses
    /\ firstState statuses = Some status
    /\ git w ["rev-parse"; "--show-toplevel"] = Ok buf
    /\ jsonEncode w
         (putRevision loaded rev
            (mkEntry status (time.ToUnix (time.Now (clock w (ticks s)))))) = Ok bytes
    /\ s' = mkSt (<[cacheFilePath (strings.TrimRight buf newline) := bytes]>
                    (files s))
              (S (ticks s))
              (stdout s ++ V3.rendering status)
              (stderr s)
              (requests s
               ++ [mkRequest token
                     (negb (String.eqb (url.Host remoteURL) "github.com"))
                     base user repo rev]).
Proof.
  unfold V3.lookup. intros H.
  apply bind_done in H as ([[u user] repo] & s1 & Hi & H).
  pose proof (remoteIdentity_done _ _ _ _ Hi) as ->.
  apply bind_done in H as (token & s1 & Ht & H).
  pose proof (retrieveAPIToken_done _ _ _ _ _ Ht) as ->.
  apply bind_done in H as (statuses & s1 & Hf & H).
  apply fetchStatuses_request in Hf as (base & Hbase & Hl & ->).
  apply bind_done in H as (entry & s2 & Ho & H).
  apply observedEntry_done in Ho as (-> & Hfirst & Hlm).
  apply bind_done in H as ([] & s3 & Hp & H).
  inversion Hp; subst s3; clear Hp.
  apply saveState_done in H as (buf & bytes & Hg & He & ->).
  destruct entry as [status lm]. cbn [Status LastModified] in *. subst lm.
  exists u, user, repo, token, base, statuses, status, buf, bytes.
  conjuncts; auto.
Qed.

(** X22: the one request of a live lookup of [part_001] that returns asks
    for the revision of the owner and repository read from the origin, with
    the token [retrieveAPIToken] gave; for [github.com] it goes to the
    default API address with certificate checks on, for any other host to
    [https://HOST/api/v3/] with certificate checks off. *)
Theorem request_is_addressed (w : World) (rev : string)
    (loaded : persistentState) (s s' : State) :
  V3.lookup w rev loaded s = Done tt s' ->
  exists remoteURL user repo token base,
    remoteIdentity w s = Done (remoteURL, user, repo) s
    /\ retrieveAPIToken w remoteURL s = Done token s
    /\ requests s'
       = (requests s
          ++ [mkRequest token
                (negb (String.eqb (url.Host remoteURL) "github.com"))
                base user repo rev])%list
    /\ (if String.eqb (url.Host remoteURL) "github.com"
        then base = defaultBaseURL
        else url.Parse ("https://" ++ url.Host remoteURL ++ "/api/v3/")
             = Ok base).
Proof.
  intros H.
  apply lookup_steps in H
    as (u & user & repo & token & base & statuses & status & buf & bytes
        & Hi & Ht & Hbase & _ & _ & _ & _ & ->).
  exists u, user, repo, token, base. conjuncts; auto.
Qed.

Lemma request_is_addressed_witness :
  exists remoteURL user repo token base,
    remoteIdentity Sample.world (withTick Sample.torn)
    = Done (remoteURL, user, repo) (withTick Sample.torn)
    /\ retrieveAPIToken Sample.world remoteURL (withTick Sample.torn)
       = Done token (withTick Sample.torn)
    /\ requests Sample.refreshed
       = (requests (withTick Sample.torn)
          ++ [mkRequest token
                (negb (String.eqb (url.Host remoteURL) "github.com"))
                base user repo Sample.rev])%list
    /\ (if String.eqb (url.Host remoteURL) "github.com"
        then base = defaultBaseURL
        else url.Parse ("https://" ++ url.Host remoteURL ++ "/api/v3/")
             = Ok base).
Proof.
  apply (request_is_addressed Sample.world Sample.rev zeroState
           (withTick Sample.torn) Sample.refreshed).
  vm_compute. reflexivity.
Defined.

(** ** The two ways to status 0 *)

(** X12: in [part_001] a run ends with status 0 in one of two ways.  It
    ends through [os.Exit(0)] on the cached path: [--update] was not given,
    [--cached] was given or the loaded entry was valid, the output is the
    mark of that entry, and no request was made, no file changed and no
    diagnostic written.  Or it returns from [main] after the live lookup:
    [--update] was given, or [--cached] was not and the loaded entry was
    not valid; one request was made, the mark of the fetched status was
    printed and the cache file was written with that status put in. *)
Theorem status_zero_is_cached_or_refreshed (w : World) (fl : Flags)
    (s : State) :
  match V3.main w fl s with
  | Exited exitCode s' =>
      exitCode <> 0
      \/ (update fl = false
          /\ exists rev loaded,
               targetRevision w (args fl) s = Done rev s
               /\ V3.restoreState w s = Done loaded s
               /\ (cached fl = true
                   \/ V3.isValid (lookupRevision loaded rev)
                        (clock w (ticks s)) = true)
               /\ stdout s'
                  = (stdout s
                     ++ V3.rendering (Status (lookupRevision loaded rev)))%list
               /\ requests s' = requests s
               /\ files s' = files s
               /\ stderr s' = stderr s)
  | Done _ s' =>
      exists rev loaded buf,
        targetRevision w (args fl) s = Done rev s
        /\ V3.restoreState w s = Done loaded s
        /\ (update fl = true
            \/ (cached fl = false
                /\ V3.isValid (lookupRevision loaded rev)
                     (clock w (ticks s)) = false))
        /\ git w ["rev-parse"; "--show-toplevel"] = Ok buf
        /\ Refreshed w V3.rendering rev loaded
             (cacheFilePath (strings.TrimRight buf newline)) s s'
        /\ stderr s' = stderr s
  end.
Proof.
  destruct (V3.main w fl s) as [[] s'|exitCode s'] eqn:E.
  - pose proof E as E'. unfold V3.main in E.
    apply bind_done in E as (rev & s1 & Hr & E).
    pose proof (targetRevision_done _ _ _ _ _ Hr) as ->.
    apply bind_done in E as (loaded & s2 & Hl & E).
    pose proof (restoreState_done _ _ _ _ Hl) as ->.
    apply bind_done in E as (use & s3 & Hc & E).
    destruct use.
    { apply bind_done in E as (? & ? & _ & E). discriminate. }
    pose proof (useCache_frame w fl _ s false s3 (or_introl Hc))
      as (Hf & Hq & Ho & He).
    assert (update fl = true
            \/ (cached fl = false
                /\ V3.isValid (lookupRevision loaded rev)
                     (clock w (ticks s)) = false)) as Hwhy.
    { destruct (update fl) eqn:Hu; [auto | right].
      destruct (useCache_isValid w fl (lookupRevision loaded rev) s Hu)
        as (s4 & Hc' & _).
      rewrite Hc in Hc'. inversion Hc' as [[Hfalse Hs]].
      symmetry in Hfalse. apply orb_false_iff in Hfalse as [Hv Hcached].
      auto. }
    pose proof E as Hlook.
    apply lookup_refreshes in E as (buf & Hg & E).
    exists rev, loaded, buf. conjuncts; auto.
    + eapply Refreshed_from; eauto.
    + rewrite <- He.
      apply lookup_steps in Hlook
        as (? & ? & ? & ? & ? & ? & ? & ? & ? & _ & _ & _ & _ & _ & _ & _
            & ->).
      reflexivity.
  - destruct (Z.eq_dec exitCode 0) as [-> | Hne]; [right | left; exact Hne].
    exact (exited_zero_on_cached_path w fl s s' E).
Qed.

(** ** A lookup, then the cached mark *)

(** X23: after a run of [part_001] that returned, a next run on the same
    arguments without [--update], started less than nine seconds after the
    first run's stamp, ends with status 0, prints the mark the first run
    printed (that of the first listed status), and makes no request and
    changes no file; provided the decoder inverts the encoder and opening
    reports no error. *)
Theorem refreshed_entry_is_served (w : World) (fl next : Flags)
    (s s' : State) :
  V3.main w fl s = Done tt s' ->
  update next = false ->
  args next = args fl ->
  (forall state bytes,
     jsonEncode w state = Ok bytes -> fst (jsonDecode w bytes) = state) ->
  (forall path, openError w path = None) ->
  clock w (ticks s') < clock w (pred (ticks s')) + 9 * time.Second ->
  exists request statuses status s'',
    last (requests s') = Some request
    /\ listStatuses w request = Ok statuses
    /\ firstState statuses = Some status
    /\ V3.main w next s' = Exited 0 s''
    /\ stdout s' = (stdout s ++ V3.rendering status)%list
    /\ stdout s'' = (stdout s' ++ V3.rendering status)%list
    /\ requests s'' = requests s'
    /\ files s'' = files s'.
Proof.
  intros Hrun Hu Hargs Hcodec Hopen Hsoon.
  unfold V3.main in Hrun.
  apply bind_done in Hrun as (rev & s1 & Hr & Hrun).
  pose proof (targetRevision_done _ _ _ _ _ Hr) as ->.
  apply bind_done in Hrun as (loaded & s2 & Hl & Hrun).
  pose proof (restoreState_done _ _ _ _ Hl) as ->.
  apply bind_done in Hrun as (use & s3 & Hc & Hrun).
  destruct use.
  { apply bind_done in Hrun as (? & ? & _ & Hrun). discriminate. }
  pose proof (useCache_frame w fl _ s false s3 (or_introl Hc))
    as (Hf3 & Hq3 & Ho3 & He3).
  apply lookup_steps in Hrun
    as (u & user & repo & token & base & statuses & status & buf & bytes
        & _ & _ & _ & Hlist & Hfirst & Hg & Henc & ->).
  set (entry := mkEntry status (time.ToUnix (time.Now (clock w (ticks s3))))) in *.
  set (path := cacheFilePath (strings.TrimRight buf newline)) in *.
  match goal with
  | |- context [V3.main w next ?st] => set (s' := st) in *
  end.
  assert (targetRevision w (args next) s' = Done rev s') as Hr'.
  { rewrite Hargs. unfold targetRevision in *.
    apply runGit_done in Hr as (_ & b & Hb & ->).
    apply runGit_ok. exact Hb. }
  assert (V3.restoreState w s' = Done (putRevision loaded rev entry) s')
    as Hl'.
  { unfold V3.restoreState, bind. rewrite (runGit_ok w _ buf _ Hg).
    fold path. unfold os_Open. rewrite Hopen.
    subst s'. cbn [files]. rewrite lookup_insert_eq.
    rewrite (Hcodec _ _ Henc). reflexivity. }
  assert (V3.isValid (lookupRevision (putRevision loaded rev entry) rev)
            (clock w (ticks s')) = true) as Hvalid.
  { rewrite (proj2 (put_same loaded rev entry)).
    apply fresh_entry_valid;
      [apply clock_range | apply clock_range | exact Hsoon]. }
  destruct (useCache_isValid w next
              (lookupRevision (putRevision loaded rev entry) rev) s' Hu)
    as (s4 & Hc' & Hf4 & Ho4 & He4 & Hq4).
  rewrite Hvalid in Hc'. cbn [orb] in Hc'.
  exists (mkRequest token
            (negb (String.eqb (url.Host u) "github.com"))
            base user repo rev), statuses, status,
    (withStdout s4
       (V3.rendering
          (Status (lookupRevision (putRevision loaded rev entry) rev)))).
  rewrite (proj2 (put_same loaded rev entry)). cbn [Status entry].
  conjuncts.
  - subst s'. cbn [requests]. apply last_snoc.
  - exact Hlist.
  - exact Hfirst.
  - unfold V3.main.
    rewrite (bind_ret_Done _ _ _ _ _ Hr'), (bind_ret_Done _ _ _ _ _ Hl').
    rewrite (bind_ret_Done _ _ _ _ _ Hc').
    rewrite (proj2 (put_same loaded rev entry)). reflexivity.
  - subst s'. cbn [stdout]. rewrite Ho3. reflexivity.
  - cbn [stdout withStdout]. rewrite Ho4. reflexivity.
  - cbn [requests withStdout]. exact Hq4.
  - cbn [files withStdout]. exact Hf4.
Qed.

(** ** Sample runs *)
Lemma unbits_bits (p : positive) : Sample.unbits (Sample.bits p) = p.
Proof. induction p; cbn; congruence. Qed.

Lemma faithful_codec (state : persistentState) (bytes : string) :
  jsonEncode Sample.faithful state = Ok bytes ->
  fst (jsonDecode Sample.faithful bytes) = state.
Proof.
  cbn [jsonEncode jsonDecode Sample.faithful]. unfold Sample.encodeAll.
  intros H. inversion H. unfold Sample.decodeAll.
  rewrite unbits_bits, decode_encode. reflexivity.
Qed.

Lemma refreshed_entry_is_served_witness :
  exists request statuses status s'',
    last (requests (finalState (V3.main Sample.faithful
                                  (mkFlags false false []) Sample.empty)))
    = Some request
    /\ listStatuses Sample.faithful request = Ok statuses
    /\ firstState statuses = Some status
    /\ V3.main Sample.faithful (mkFlags false false [])
         (finalState (V3.main Sample.faithful (mkFlags false false [])
                        Sample.empty))
       = Exited 0 s''
    /\ stdout (finalState (V3.main Sample.faithful (mkFlags false false [])
                             Sample.empty))
       = (stdout Sample.empty ++ V3.rendering status)%list
    /\ stdout s''
       = (stdout (finalState (V3.main Sample.faithful
                                (mkFlags false false []) Sample.empty))
          ++ V3.rendering status)%list
    /\ requests s''
       = requests (finalState (V3.main Sample.faithful
                                 (mkFlags false false []) Sample.empty))
    /\ files s''
       = files (finalState (V3.main Sample.faithful
                              (mkFlags false false []) Sample.empty)).
Proof.
  apply (refreshed_entry_is_served Sample.faithful (mkFlags false false [])
           (mkFlags false false []) Sample.empty).
  - vm_compute. reflexivity.
  - reflexivity.
  - reflexivity.
  - exact faithful_codec.
  - reflexivity.
  - vm_compute. reflexivity.
Defined.

Lemma netrc_entry_must_name_api_host_witness :
  netrcToken Sample.webHostOnly Sample.remoteURL = ""
  /\ retrieveAPIToken Sample.webHostOnly Sample.remoteURL Sample.start
     = runGit Sample.webHostOnly
         ["config"; "--get-urlmatch"; "github.token";
          url.String_ Sample.remoteURL] Sample.start.
Proof.
  apply (netrc_entry_must_name_api_host Sample.webHostOnly Sample.remoteURL
           "/home/me" [netrc.mkMachine "github.com" "me" "netrc-token" ""]).
  - reflexivity.
  - reflexivity.
  - reflexivity.
  - reflexivity.
  - intros m [<- | []]. cbn. discriminate.
Defined.

Lemma restoreCache_leaves_a_file_witness :
  is_Some (files (withFiles Sample.empty {[ Sample.path := "" ]})
           !! Sample.path)
  /\ (forall content,
        files Sample.empty !! Sample.path = Some content ->
        withFiles Sample.empty {[ Sample.path := "" ]} = Sample.empty
        /\ zeroState = fst (jsonDecode Sample.world content))
  /\ (files Sample.empty !! Sample.path = None ->
      withFiles Sample.empty {[ Sample.path := "" ]}
      = withFiles Sample.empty (<[Sample.path := ""]> (files Sample.empty))
      /\ zeroState = fst (jsonDecode Sample.world ""))
  /\ (forall other,
        other <> Sample.path ->
        files (withFiles Sample.empty {[ Sample.path := "" ]}) !! other
        = files Sample.empty !! other).
Proof.
  apply (restoreCache_leaves_a_file Sample.world Sample.empty
           (withFiles Sample.empty {[ Sample.path := "" ]})
           zeroState Sample.path).
  vm_compute. reflexivity.
Defined.

Lemma marks_agree_witness :
  Marks.rendering "success" = V3.rendering "success".
Proof.
  apply (proj2 (proj2 (marks_agree "success"))).
  right. right. reflexivity.
Defined.
